(** * Bits of Time: an electronic sandglass on a bi-colour LED matrix

    Shallow embedding of [dot_matrix.h], [dot_matrix.cpp] and
    [Bits_of_Time.cpp].  Unsigned machine integers are modelled as [Z] with
    the wrap-around written out ([u8], [u16]); the static class variables of
    [DotMatrix] and the globals and function statics of the sandglass become
    fields of explicit state records that are passed along.  The busy-wait
    [wait], the port pins, the EEPROM and the text buffer of the main file
    carry no pixel or counter state and are left out. *)

From Stdlib Require Import ZArith List Lia Bool Sorted.
From stdpp Require Import base list.
Import ListNotations.

Local Open Scope Z_scope.

(** ** Machine integers *)

Definition u8 (z : Z) : Z := z mod 256.
Definition u16 (z : Z) : Z := z mod 65536.

(** [~z] on a 16-bit unsigned operand. *)
Definition not16 (z : Z) : Z := u16 (Z.lnot z).

(** C truth value of an integer expression. *)
Definition truthy (z : Z) : bool := negb (z =? 0).

(** ** dot_matrix.h / dot_matrix.cpp *)

Module DotMatrix.

Definition VISIBLE : Z := 0.
Definition HIDDEN : Z := 1.

Definition ORANGE : Z := 15.
Definition YELLOW : Z := 7.
Definition BLACK : Z := 0.

Definition RED_MSB : Z := 8.
Definition RED_LSB : Z := 4.
Definition GREEN_MSB : Z := 2.
Definition GREEN_LSB : Z := 1.

Definition NUM_BLOCKS_X : Z := 2.
Definition NUM_BLOCKS_Y : Z := 1.
Definition COLS_PER_BLOCK : Z := 8.
Definition ROWS_PER_BLOCK : Z := 8.
Definition NUM_BLOCKS : Z := NUM_BLOCKS_X * NUM_BLOCKS_Y.
Definition NUM_PIXCOLS : Z := NUM_BLOCKS * COLS_PER_BLOCK.
Definition DIM_X : Z := NUM_BLOCKS_X * COLS_PER_BLOCK.
Definition DIM_Y : Z := NUM_BLOCKS_Y * ROWS_PER_BLOCK.
Definition MAX_BRIGHTNESS : Z := 3.
Definition DEFAULT_COLOR : Z := ORANGE.

Record pixcol_t : Type := { lsb : Z; msb : Z }.

Definition pixcol_zero : pixcol_t := {| lsb := 0; msb := 0 |}.

(** The static class variables.  [screen] is the array; the three
    pointers are kept as the index of the array element they point to. *)
Record t : Type := {
  screen : list pixcol_t;
  scr_vis : Z;
  scr_hid : Z;
  scr_wrk : Z;
  offset : Z;
  column : Z;
  bright_cnt : Z;
  color : Z
}.

Definition with_screen (l : list pixcol_t) (d : t) : t :=
  {| screen := l; scr_vis := scr_vis d; scr_hid := scr_hid d;
     scr_wrk := scr_wrk d; offset := offset d; column := column d;
     bright_cnt := bright_cnt d; color := color d |}.

Definition with_ptrs (vis hid wrk : Z) (d : t) : t :=
  {| screen := screen d; scr_vis := vis; scr_hid := hid;
     scr_wrk := wrk; offset := offset d; column := column d;
     bright_cnt := bright_cnt d; color := color d |}.

Definition with_scan (col bc : Z) (d : t) : t :=
  {| screen := screen d; scr_vis := scr_vis d; scr_hid := scr_hid d;
     scr_wrk := scr_wrk d; offset := offset d; column := col;
     bright_cnt := bc; color := color d |}.

(** [p[i]] read and written through a pointer [p] into [screen].  An
    access outside the array is undefined in C; here a read yields the
    zero column and a write does nothing. *)
Definition load (d : t) (p i : Z) : pixcol_t :=
  nth (Z.to_nat (p + i)) (screen d) pixcol_zero.

Definition store (p i : Z) (pc : pixcol_t) (d : t) : t :=
  with_screen (<[Z.to_nat (p + i) := pc]> (screen d)) d.

Definition store_msb (p i v : Z) (d : t) : t :=
  store p i {| lsb := lsb (load d p i); msb := v |} d.

Definition store_lsb (p i v : Z) (d : t) : t :=
  store p i {| lsb := v; msb := msb (load d p i) |} d.

Definition pixcol_mask : list Z :=
  [0x0001; 0x0004; 0x0010; 0x0040; 0x0100; 0x0400; 0x1000; 0x4000].

Definition pgm_read_word (tbl : list Z) (i : Z) : Z := nth (Z.to_nat i) tbl 0.

(** State of the class before [main] runs: statics are zero.  The flag
    is the compile-time switch ENABLE_HIDDEN_SCREEN, which doubles the
    array ([dot_matrix.h] ships with it commented out). *)
Definition power_on (ENABLE_HIDDEN_SCREEN : bool) : t :=
  {| screen := repeat pixcol_zero
                 (Z.to_nat (if ENABLE_HIDDEN_SCREEN
                            then NUM_BLOCKS * COLS_PER_BLOCK * 2
                            else NUM_BLOCKS * COLS_PER_BLOCK));
     scr_vis := 0; scr_hid := 0; scr_wrk := 0;
     offset := 0; column := 0; bright_cnt := 0; color := 0 |}.

Fixpoint clear_from (n : nat) (i : Z) (d : t) : t :=
  match n with
  | O => d
  | S n' =>
      let d := store_msb (scr_wrk d) i 0 d in
      let d := store_lsb (scr_wrk d) i 0 d in
      clear_from n' (i + 1) d
  end.

(** for (i = 0; i < NUM_PIXCOLS; i++) { scr_wrk[i].msb = 0; scr_wrk[i].lsb = 0; } *)
Definition clearScreen (d : t) : t := clear_from (Z.to_nat NUM_PIXCOLS) 0 d.

Definition selectScreen (vis_hid : Z) (d : t) : t :=
  if vis_hid =? VISIBLE then with_ptrs (scr_vis d) (scr_hid d) (scr_vis d) d
  else if vis_hid =? HIDDEN then with_ptrs (scr_vis d) (scr_hid d) (scr_hid d) d
  else d.

Definition swapScreen (d : t) : t :=
  let temp_screen := scr_vis d in
  let d := with_ptrs (scr_hid d) (scr_hid d) (scr_wrk d) d in
  let d := with_ptrs (scr_vis d) temp_screen (scr_wrk d) d in
  if scr_wrk d =? scr_vis d
  then with_ptrs (scr_vis d) (scr_hid d) (scr_hid d) d
  else with_ptrs (scr_vis d) (scr_hid d) (scr_vis d) d.

Definition init (ENABLE_HIDDEN_SCREEN : bool) (d : t) : t :=
  let d :=
    if ENABLE_HIDDEN_SCREEN then
      let d := with_ptrs (scr_vis d) (NUM_BLOCKS * COLS_PER_BLOCK) (scr_wrk d) d in
      let d := selectScreen HIDDEN d in
      clearScreen d
    else
      with_ptrs (scr_vis d) 0 (scr_wrk d) d in
  let d := with_ptrs 0 (scr_hid d) (scr_wrk d) d in
  let d := selectScreen VISIBLE d in
  let d := clearScreen d in
  let d := with_scan 0 MAX_BRIGHTNESS d in
  {| screen := screen d; scr_vis := scr_vis d; scr_hid := scr_hid d;
     scr_wrk := scr_wrk d; offset := offset d; column := column d;
     bright_cnt := bright_cnt d; color := DEFAULT_COLOR |}.

Definition setPixel (x y color : Z) (d : t) : t :=
  let mask_green := pgm_read_word pixcol_mask (Z.land y (ROWS_PER_BLOCK - 1)) in
  let mask_red := u16 (Z.shiftl mask_green 1) in
  if DIM_X <=? x then d else
  if DIM_Y <=? y then d else
  let y := y / ROWS_PER_BLOCK in
  let x := u8 (x + y * DIM_X) in
  (* most significant colour bits *)
  let pix := Z.land (msb (load d (scr_wrk d) x)) (not16 (Z.lor mask_red mask_green)) in
  let pix := if truthy (Z.land color 2) then Z.lor pix mask_green else pix in
  let pix := if truthy (Z.land color 8) then Z.lor pix mask_red else pix in
  let d := store_msb (scr_wrk d) x pix d in
  (* least significant colour bits *)
  let pix := Z.land (lsb (load d (scr_wrk d) x)) (not16 (Z.lor mask_red mask_green)) in
  let pix := if truthy (Z.land color 1) then Z.lor pix mask_green else pix in
  let pix := if truthy (Z.land color 4) then Z.lor pix mask_red else pix in
  store_lsb (scr_wrk d) x pix d.

Definition getPixel (x y vis_hid : Z) (d : t) : Z :=
  let mask_green := pgm_read_word pixcol_mask (Z.land y (ROWS_PER_BLOCK - 1)) in
  let mask_red := u16 (Z.shiftl mask_green 1) in
  if DIM_X <=? x then 255 else
  if DIM_Y <=? y then 255 else
  let y := y / ROWS_PER_BLOCK in
  let x := u8 (x + y * DIM_X) in
  let pick (scr : Z) : Z :=
    let color := 0 in
    let color := if truthy (Z.land (msb (load d scr x)) mask_red)
                 then Z.lor color RED_MSB else color in
    let color := if truthy (Z.land (msb (load d scr x)) mask_green)
                 then Z.lor color GREEN_MSB else color in
    let color := if truthy (Z.land (lsb (load d scr x)) mask_red)
                 then Z.lor color RED_LSB else color in
    let color := if truthy (Z.land (lsb (load d scr x)) mask_green)
                 then Z.lor color GREEN_LSB else color in
    color in
  if vis_hid =? VISIBLE then pick (scr_vis d)
  else if vis_hid =? HIDDEN then pick (scr_hid d)
  else 255.

(** The brightness selection inside the block loop of [update]:
    [if (bright_cnt & 1) msb &= lsb; else if (bright_cnt == 0) msb |= lsb;] *)
Definition dither (br_msb br_lsb bright_cnt : Z) : Z :=
  if truthy (Z.land bright_cnt 1) then Z.land br_msb br_lsb
  else if bright_cnt =? 0 then Z.lor br_msb br_lsb
  else br_msb.

(** The block loop of [update]: [n] blocks left, [c] the column index.
    Yields the words handed to [shift_out], in order. *)
Fixpoint update_blocks (n : nat) (c : Z) (d : t) : list Z :=
  match n with
  | O => []
  | S n' =>
      let br_msb := msb (load d (scr_vis d) c) in
      let br_lsb := lsb (load d (scr_vis d) c) in
      let c := u8 (c - COLS_PER_BLOCK) in
      let c := if NUM_PIXCOLS <=? c then u8 (c + NUM_PIXCOLS) else c in
      dither br_msb br_lsb (bright_cnt d) :: update_blocks n' c d
  end.

(** [update] without DM_REVERSE_COLS: the words shifted out and the new
    scan state. *)
Definition update (d : t) : list Z * t :=
  let d := if column d =? 0
           then with_scan (column d) (Z.land (u8 (bright_cnt d - 1)) MAX_BRIGHTNESS) d
           else d in
  let c := NUM_PIXCOLS - COLS_PER_BLOCK in
  let c := u8 (c + offset d) in
  let c := if NUM_PIXCOLS <=? c then u8 (c - NUM_PIXCOLS) else c in
  let c := u8 (c + column d) in
  let out := update_blocks (Z.to_nat NUM_BLOCKS) c d in
  (out, with_scan (Z.land (u8 (column d + 1)) (COLS_PER_BLOCK - 1)) (bright_cnt d) d).

(** *** The rest of the class *)

Definition OPAQUE : Z := 0.
Definition TRANSPARENT : Z := 1.
Definition XOR : Z := 2.

Definition RAM : Z := 0.
Definition FLASH : Z := 1.
Definition EEPROM : Z := 2.

Definition rainbow : list Z :=
  [0xEE20; 0xFA80; 0x7B88; 0xFEA0; 0xDEE2; 0x7FA8; 0x77B8; 0x5FEA;
   0x1DEE; 0x57FA; 0x477B; 0x15FE; 0x11DE; 0x057F; 0x0477; 0x015F].

Definition u32 (z : Z) : Z := z mod 4294967296.

Definition with_offset (v : Z) (d : t) : t :=
  {| screen := screen d; scr_vis := scr_vis d; scr_hid := scr_hid d;
     scr_wrk := scr_wrk d; offset := v; column := column d;
     bright_cnt := bright_cnt d; color := color d |}.

Definition setOffset (col : Z) (d : t) : t :=
  if col <? NUM_PIXCOLS then with_offset col d else d.

(** [shift_out] without DM_LSB_FIRST: the level of the data pin at each of
    the rising clock edges, [n] bits still to go. *)
Fixpoint shift_bits (n : nat) (data : Z) : list bool :=
  match n with
  | O => []
  | S n' => truthy (Z.land data 0x8000) :: shift_bits n' (u16 (Z.shiftl data 1))
  end.

Definition shift_out (data : Z) : list bool := shift_bits 16 data.

(** The union [shifter_t] as avr-gcc lays it out (byte aligned, little
    endian): [u16] is bits 8 to 23 of [u32]. *)
Definition shifter_u16 (sh : Z) : Z := Z.land (Z.shiftr sh 8) 0xFFFF.

Definition shifter_set_u16 (v : Z) (sh : Z) : Z :=
  Z.lor (Z.land sh 0xFF0000FF) (Z.shiftl (u16 v) 8).

(** [for (i = 0; i < 8; i++) { sh.u32 <<= 1; sh.u16 <<= 1; }] *)
Fixpoint spread_loop (n : nat) (sh : Z) : Z :=
  match n with
  | O => sh
  | S n' =>
      let sh := u32 (Z.shiftl sh 1) in
      let sh := shifter_set_u16 (Z.shiftl (shifter_u16 sh) 1) sh in
      spread_loop n' sh
  end.

Definition pattern2PixCol (pix_data color : Z) : pixcol_t :=
  let sh := spread_loop 8 pix_data in
  (* most significant colour bits *)
  let temp := if truthy (Z.land color 2) then Z.shiftr (shifter_u16 sh) 1 else 0 in
  let temp := if truthy (Z.land color 8) then Z.lor temp (shifter_u16 sh) else temp in
  let pc_msb := temp in
  (* least significant colour bits *)
  let temp := if truthy (Z.land color 1) then Z.shiftr (shifter_u16 sh) 1 else 0 in
  let temp := if truthy (Z.land color 4) then Z.lor temp (shifter_u16 sh) else temp in
  {| lsb := temp; msb := pc_msb |}.

(** The union [split32_t]: [lo] is the low half of [u32], [hi] the high
    half. *)
Definition split_lo (s : Z) : Z := Z.land s 0xFFFF.
Definition split_hi (s : Z) : Z := Z.land (Z.shiftr s 16) 0xFFFF.
Definition split_set_lo (v : Z) (s : Z) : Z :=
  Z.lor (Z.land s 0xFFFF0000) (u16 v).

(** [for (i = 0; i < (yr * 2); i++) { mask.u32 <<= 1; pixel_lsb.u32 <<= 1; pixel_msb.u32 <<= 1; }] *)
Fixpoint shift_loop (n : nat) (s : Z * Z * Z) : Z * Z * Z :=
  match n with
  | O => s
  | S n' =>
      let '(mask, pixel_lsb, pixel_msb) := s in
      shift_loop n' (u32 (Z.shiftl mask 1), u32 (Z.shiftl pixel_lsb 1),
                     u32 (Z.shiftl pixel_msb 1))
  end.

(** The write to one screen slot in [setPixCol]; [m], [l] and [h] are the
    halves of mask, lsb pixels and msb pixels that belong to the slot. *)
Definition blit (idx mode m l h : Z) (d : t) : t :=
  if mode =? XOR then
    let d := store_lsb (scr_wrk d) idx (Z.lxor (lsb (load d (scr_wrk d) idx)) l) d in
    store_msb (scr_wrk d) idx (Z.lxor (msb (load d (scr_wrk d) idx)) h) d
  else
    let d := store_lsb (scr_wrk d) idx (Z.land (lsb (load d (scr_wrk d) idx)) m) d in
    let d := store_msb (scr_wrk d) idx (Z.land (msb (load d (scr_wrk d) idx)) m) d in
    let d := store_lsb (scr_wrk d) idx (Z.lor (lsb (load d (scr_wrk d) idx)) l) d in
    store_msb (scr_wrk d) idx (Z.lor (msb (load d (scr_wrk d) idx)) h) d.

(** [setPixCol].  The three unions are locals of which only the [lo] half
    is assigned; [junk] holds what their memory contained before, as 32-bit
    values. *)
Definition setPixCol (junk : Z * Z * Z) (x y : Z) (pc : pixcol_t) (mode : Z) (d : t) : t :=
  let '(mask, pixel_lsb, pixel_msb) := junk in
  if DIM_X <=? x then d else
  if DIM_Y <=? y then d else
  let idx := u8 (x + y / ROWS_PER_BLOCK * DIM_X) in
  let yr := Z.land y (ROWS_PER_BLOCK - 1) in
  let mask :=
    if mode =? TRANSPARENT then
      let mask := split_set_lo (Z.lor (lsb pc) (msb pc)) mask in
      let mask := split_set_lo
                    (Z.lor (split_lo mask) (Z.land (Z.shiftr (split_lo mask) 1) 0x5555))
                    mask in
      split_set_lo (Z.lor (split_lo mask) (Z.shiftl (split_lo mask) 1)) mask
    else split_set_lo 0xFFFF mask in
  let pixel_lsb := split_set_lo (lsb pc) pixel_lsb in
  let pixel_msb := split_set_lo (msb pc) pixel_msb in
  let '(mask, pixel_lsb, pixel_msb) :=
    shift_loop (Z.to_nat (yr * 2)) (mask, pixel_lsb, pixel_msb) in
  let mask := u32 (Z.lnot mask) in
  let d := blit idx mode (split_lo mask) (split_lo pixel_lsb) (split_lo pixel_msb) d in
  if truthy yr then
    let idx := u8 (idx + DIM_X) in
    if NUM_BLOCKS * COLS_PER_BLOCK <=? idx then d else
    blit idx mode (split_hi mask) (split_hi pixel_lsb) (split_hi pixel_msb) d
  else d.

(** [displayGraphics]: [graphics] is the memory the pointer walks over,
    as 16-bit words; [pc] is the local the columns are read into, with
    whatever it held on entry; [junk i] is what the locals of the [i]-th
    call of [setPixCol] hold.  Reading past the data is undefined in C and
    yields zero here. *)
Fixpoint displayGraphics_loop (junk : Z -> Z * Z * Z) (n : nat) (i : Z) (x y mode : Z)
    (graphics : list Z) (src_mem_type : Z) (pc : pixcol_t) (d : t) : t :=
  match n with
  | O => d
  | S n' =>
      let '(pc, graphics) :=
        if src_mem_type =? RAM then
          ({| lsb := nth 0 graphics 0; msb := nth 1 graphics 0 |}, skipn 2 graphics)
        else if src_mem_type =? FLASH then
          ({| lsb := nth 0 graphics 0; msb := nth 1 graphics 0 |}, skipn 2 graphics)
        else if src_mem_type =? EEPROM then
          ({| lsb := 0; msb := 0 |}, skipn 2 graphics)
        else (pc, graphics) in
      let d := setPixCol (junk i) (u8 (x + i)) y pc mode d in
      displayGraphics_loop junk n' (u8 (i + 1)) x y mode graphics src_mem_type pc d
  end.

Definition displayGraphics (junk : Z -> Z * Z * Z) (pc0 : pixcol_t) (x y mode : Z)
    (graphics : list Z) (src_mem_type len : Z) (d : t) : t :=
  displayGraphics_loop junk (Z.to_nat len) 0 x y mode graphics src_mem_type pc0 d.

End DotMatrix.

(** ** Bits_of_Time.cpp *)

Module Sandglass.
Import DotMatrix.

Definition GRAINS_TOTAL : Z := 54.

Definition DOWN : Z := 0.
Definition UP : Z := 1.

Definition UPPER : Z := 0.
Definition LOWER : Z := 1.

Definition SET : Z := 0.
Definition RUN : Z := 1.
Definition ALARM : Z := 2.

Definition POLYNOMIAL : Z := 14.
Definition RANDOM_SEED : Z := 120.

(** The display object, the global [gravity], and the function statics
    [rnd] (of [random]), [side] and [static_counter] (of
    [simulate_grain]). *)
Record globals : Type := {
  dm : DotMatrix.t;
  gravity : Z;
  rnd : Z;
  side : Z;
  static_counter : Z
}.

Definition with_dm (d : DotMatrix.t) (g : globals) : globals :=
  {| dm := d; gravity := gravity g; rnd := rnd g; side := side g;
     static_counter := static_counter g |}.

Definition with_rnd (v : Z) (g : globals) : globals :=
  {| dm := dm g; gravity := gravity g; rnd := v; side := side g;
     static_counter := static_counter g |}.

Definition with_side (v : Z) (g : globals) : globals :=
  {| dm := dm g; gravity := gravity g; rnd := rnd g; side := v;
     static_counter := static_counter g |}.

Definition with_counter (v : Z) (g : globals) : globals :=
  {| dm := dm g; gravity := gravity g; rnd := rnd g; side := side g;
     static_counter := v |}.

(** The coordinate computation that [get_pixel] and [set_pixel] both
    carry out, statement for statement, after their range check:
    [if (gravity == UP) { x = 7 - x; y = 7 - y; } if (bulb ^ gravity) { x += 8; }] *)
Definition orient (gravity x y bulb : Z) : Z * Z :=
  let '(x, y) := if gravity =? UP then (u8 (7 - x), u8 (7 - y)) else (x, y) in
  let x := if truthy (Z.lxor bulb gravity) then u8 (x + 8) else x in
  (x, y).

Definition get_pixel (x y bulb : Z) (g : globals) : Z :=
  if (7 <? x) || (7 <? y) then 255 else
  let '(px, py) := orient (gravity g) x y bulb in
  getPixel px py VISIBLE (dm g).

Definition set_pixel (x y bulb color : Z) (g : globals) : globals :=
  if (7 <? x) || (7 <? y) then g else
  let '(px, py) := orient (gravity g) x y bulb in
  with_dm (setPixel px py color (dm g)) g.

(** [random] touches nothing but its own static [rnd]: it is given the
    register and returns the value and the new register. *)
Definition random (seed : Z) (rnd : Z) : Z * Z :=
  let rnd := if truthy seed then seed else rnd in
  let rnd :=
    if truthy (Z.land rnd 128) then
      let rnd := u8 (Z.shiftl rnd 1) in
      u8 (Z.lxor rnd (Z.lor (Z.shiftl POLYNOMIAL 1) 1))
    else
      u8 (Z.shiftl rnd 1) in
  (rnd, rnd).

(** The two nested loops of [fill_bulb], rows outermost. *)
Definition fill_bulb (bulb : Z) (g : globals) : globals :=
  fold_left
    (fun g y =>
       fold_left
         (fun g x => if 3 <? x + y then set_pixel x y bulb YELLOW g else g)
         (seqZ 0 8) g)
    (seqZ 0 8) g.

Definition move_grain (x1 y1 x2 y2 bulb : Z) (g : globals) : Z * globals :=
  if get_pixel x2 y2 bulb g =? BLACK then
    let g := set_pixel x1 y1 bulb BLACK g in
    let g := set_pixel x2 y2 bulb ORANGE g in
    (1, g)
  else (0, g).

(** [static_counter = 0; return(static_counter);] *)
Definition moved (g : globals) : Z * globals :=
  let g := with_counter 0 g in (static_counter g, g).

(** The tail of [simulate_grain], reached when no move was possible. *)
Definition at_rest (x y bulb : Z) (g : globals) : Z * globals :=
  let g := if bulb =? LOWER
           then with_counter (u8 (static_counter g + 1)) g
           else with_counter 0 g in
  let g := set_pixel x y bulb YELLOW g in
  (static_counter g, g).

Definition simulate_grain (x y bulb : Z) (g : globals) : Z * globals :=
  let x := Z.land x 7 in
  let y := Z.land y 7 in
  if get_pixel x y bulb g =? BLACK then
    let g := with_counter (u8 (static_counter g + 1)) g in
    (static_counter g, g)
  else
  let '(m, g) := move_grain x y (u8 (x + 1)) (u8 (y + 1)) bulb g in
  if truthy m then moved g else
  if truthy (side g) then
    let g := with_side (Z.lxor (side g) 1) g in
    let '(m, g) := move_grain x y (u8 (x + 1)) y bulb g in
    if truthy m then moved g else
    let '(m, g) := move_grain x y x (u8 (y + 1)) bulb g in
    if truthy m then moved g else
    at_rest x y bulb g
  else
    let g := with_side (Z.lxor (side g) 1) g in
    let '(m, g) := move_grain x y x (u8 (y + 1)) bulb g in
    if truthy m then moved g else
    let '(m, g) := move_grain x y (u8 (x + 1)) y bulb g in
    if truthy m then moved g else
    at_rest x y bulb g.

Definition drop (g : globals) : globals :=
  if get_pixel 7 7 UPPER g =? BLACK then g else
  if get_pixel 0 0 LOWER g =? BLACK then
    let g := set_pixel 7 7 UPPER BLACK g in
    set_pixel 0 0 LOWER ORANGE g
  else g.

Definition reset_hour_glass (g : globals) : globals :=
  fill_bulb UPPER (with_dm (clearScreen (dm g)) g).

(** [alarm_signal] as far as the display is concerned. *)
Definition alarm_signal (g : globals) : globals :=
  with_dm (clearScreen (dm g)) g.

(** The locals of [main] that the RUN branch uses, with the globals. *)
Record main_t : Type := {
  glob : globals;
  mode : Z;
  drop_cycle : Z;
  last_drop : Z
}.

Definition with_glob (g : globals) (m : main_t) : main_t :=
  {| glob := g; mode := mode m; drop_cycle := drop_cycle m;
     last_drop := last_drop m |}.

Definition with_mode (v : Z) (m : main_t) : main_t :=
  {| glob := glob m; mode := v; drop_cycle := drop_cycle m;
     last_drop := last_drop m |}.

Definition with_last_drop (v : Z) (m : main_t) : main_t :=
  {| glob := glob m; mode := mode m; drop_cycle := drop_cycle m;
     last_drop := v |}.

(** [if ((timer - last_drop) >= drop_cycle) { last_drop = timer; drop(); }]
    with [timer] the value of the 16-bit software timer read in this
    pass of the loop. *)
Definition timed_drop (timer : Z) (m : main_t) : main_t :=
  if drop_cycle m <=? u16 (timer - last_drop m) then
    let m := with_last_drop timer m in
    with_glob (drop (glob m)) m
  else m.

(** The block [if (mode == RUN) { ... }] of the main loop. *)
Definition main_run (timer : Z) (m : main_t) : main_t :=
  if mode m =? RUN then
    let m := timed_drop timer m in
    let '(r, rnd') := random 0 (rnd (glob m)) in
    let g := with_rnd rnd' (glob m) in
    let '(res, g) := simulate_grain (Z.shiftr r 1) (Z.shiftr r 4) (Z.land r 1) g in
    let m := with_glob g m in
    if 255 =? res then
      let m := with_glob (alarm_signal (glob m)) m in
      with_mode ALARM m
    else m
  else m.

(** State of [main] on entry to [while(1)]: display initialised, the
    initial [sense_gravity] has set [gravity] from the sensor, the glass
    is filled, the timer value [timer] is latched into [last_drop].  The
    splash graphics shown before are wiped by the [clearScreen] of
    [reset_hour_glass] and are not drawn here. *)
Definition boot (sensed_gravity cycle timer : Z) : main_t :=
  let g := {| dm := init false (power_on false); gravity := sensed_gravity;
              rnd := RANDOM_SEED; side := 0; static_counter := 0 |} in
  {| glob := reset_hour_glass g; mode := RUN; drop_cycle := cycle;
     last_drop := timer |}.

(** Successive passes through the RUN block, one timer reading each. *)
Definition run (timers : list Z) (m : main_t) : main_t :=
  fold_left (fun m t => main_run t m) timers m.

(** *** The rest of the main file *)

Definition DM_REFRESH_FREQ : Z := 2500.
Definition SIM_SPEED : Z := 10.
Definition MAX_MINUTES : Z := 5.
Definition INCL_PIN : Z := 3.

(** [DROP_CYCLE(time)] for a whole number of seconds: the macro is
    [(uint16_t)(0.5 + 2500 * time / 54)] in floating point.  The exact
    quotient is a multiple of 1/27, so it is never nearer than 1/54 to a
    value that ends in .5, and the rounding error of the division (below
    1/1000 for these magnitudes) cannot change the truncated result. *)
Definition DROP_CYCLE (time : Z) : Z :=
  u16 ((2 * DM_REFRESH_FREQ * time + GRAINS_TOTAL) / (2 * GRAINS_TOTAL)).

Definition times : list Z :=
  map DROP_CYCLE
    [ 10;  15;  30;  45;  60;  75;  90; 105; 120; 135; 150; 165;
     180; 195; 210; 225; 240; 255; 270; 285; 300; 315; 330; 345;
     360; 375; 390; 405; 420; 435; 450; 465; 480; 495; 510; 525;
     540; 555; 570; 585].

(** [wait]: the timer value at which the busy loop [while (timer != alarm)]
    lets go. *)
Definition wait (ms timer : Z) : Z :=
  u16 (u16 (timer + u16 (Z.shiftl ms 1)) + Z.shiftr ms 1).

(** [sense_gravity] with the port value [pina] it reads: the value
    returned, the new [sensor], the globals. *)
Definition sense_gravity (pina sensor : Z) (g : globals) : Z * Z * globals :=
  let sensor_new := Z.land pina (Z.shiftl 1 INCL_PIN) in
  if sensor_new =? sensor then (0, sensor, g) else
  let g := if truthy sensor_new
           then {| dm := dm g; gravity := DOWN; rnd := rnd g; side := side g;
                   static_counter := static_counter g |}
           else {| dm := dm g; gravity := UP; rnd := rnd g; side := side g;
                   static_counter := static_counter g |} in
  (1, sensor_new, g).

(** [get_drop_cycle]: the value returned and the global [sim_speed] it
    leaves.  The table is read at [(m << 2) + q]; outside the table the
    read is undefined in C and yields zero here. *)
Definition get_drop_cycle (m q : Z) : Z * Z :=
  let time := pgm_read_word times (Z.shiftl m 2 + q) in
  let sim_speed := SIM_SPEED in
  let sim_speed := if time <? DROP_CYCLE 30 then Z.shiftr SIM_SPEED 1 else sim_speed in
  let sim_speed := if time <? DROP_CYCLE 15 then Z.shiftr SIM_SPEED 1 else sim_speed in
  (time, sim_speed).

(** [upper_bulb_empty]: the two loops leave with 0 at the first cell that
    is not black. *)
Definition upper_bulb_empty (g : globals) : Z :=
  if existsb
       (fun y => existsb (fun x => negb (get_pixel x y UPPER g =? BLACK)) (seqZ 0 8))
       (seqZ 0 8)
  then 0 else 1.

(** The time setting kept in the locals [minute] and [quarter] of [main]. *)
Record setting_t : Type := { minute : Z; quarter : Z }.

(** The setting read from the EEPROM bytes [ee0] and [ee1] at start:
    [if (minute > MAX_MINUTES) { minute = 0; }  quarter &= 0x03;] *)
Definition read_setting (ee0 ee1 : Z) : setting_t :=
  let minute := ee0 in
  let minute := if MAX_MINUTES <? minute then 0 else minute in
  let quarter := ee1 in
  let quarter := Z.land quarter 3 in
  {| minute := minute; quarter := quarter |}.

(** The block of push button S1 between its two debounce waits: the new
    [mode] and setting. *)
Definition button_S1 (mode : Z) (s : setting_t) : Z * setting_t :=
  if mode =? SET then
    let minute := u8 (minute s + 1) in
    let minute := if MAX_MINUTES <? minute then 0 else minute in
    (mode, {| minute := minute; quarter := 0 |})
  else (SET, s).

(** The block of push button S2, QUARTER_OVERFLOWS_INTO_MINUTES not
    defined. *)
Definition button_S2 (mode : Z) (s : setting_t) : Z * setting_t :=
  if mode =? SET then
    let quarter := u8 (quarter s + 1) in
    let quarter := if 3 <? quarter then 0 else quarter in
    (mode, {| minute := minute s; quarter := quarter |})
  else (SET, s).

(** The block of push button S3:
    [reset_hour_glass(); drop_cycle = get_drop_cycle(minute, quarter); mode = RUN;] *)
Definition button_S3 (s : setting_t) (m : main_t) : main_t :=
  {| glob := reset_hour_glass (glob m);
     mode := RUN;
     drop_cycle := fst (get_drop_cycle (minute s) (quarter s));
     last_drop := last_drop m |}.

(** [sensor = ~PINA & (1 << INCL_PIN);] before the first
    [sense_gravity] in [main]. *)
Definition inverted_sensor (pina : Z) : Z :=
  u8 (Z.land (Z.lnot pina) (Z.shiftl 1 INCL_PIN)).

End Sandglass.

(** ** Vocabulary of the properties *)

Import DotMatrix Sandglass.

(** The values returned by [n] successive calls of [random], the first
    with argument [seed], the others with argument 0; [r] is the register
    before the first call. *)
Fixpoint outputs (n : nat) (seed : Z) (r : Z) : list Z :=
  match n with
  | O => []
  | S n' => let '(v, r) := random seed r in v :: outputs n' 0 r
  end.

(** The duty pattern the specification gives for one LED: the bit driven
    in sub-frames 3, 2, 1, 0 for intensity bits (MSB, LSB). *)
Definition duty_pattern (msb_bit lsb_bit : bool) : list bool :=
  match msb_bit, lsb_bit with
  | false, true => [false; false; false; true]
  | true, false => [false; true; false; true]
  | true, true => [true; true; true; true]
  | false, false => [false; false; false; false]
  end.

(** Bit [i] of the word emitted in sub-frames 3, 2, 1, 0. *)
Definition emitted_bits (m l i : Z) : list bool :=
  map (fun sf => Z.testbit (dither m l sf) i) [3; 2; 1; 0].

(** A cell of the logical grid: bulb-local coordinates and a bulb. *)
Definition logical (x y bulb : Z) : Prop :=
  0 <= x < 8 /\ 0 <= y < 8 /\ (bulb = UPPER \/ bulb = LOWER).

(** A pixel of the physical 16 x 8 grid. *)
Definition physical (p : Z * Z) : Prop :=
  0 <= fst p < DIM_X /\ 0 <= snd p < DIM_Y.

(** The screen array holds a whole buffer at pointer [p]. *)
Definition buffer_ok (d : DotMatrix.t) (p : Z) : Prop :=
  0 <= p /\ p + NUM_PIXCOLS <= Z.of_nat (length (screen d)).

(** The buffer a [vis_hid] argument of [getPixel] selects. *)
Definition selected (vis_hid : Z) (d : DotMatrix.t) : Z :=
  if vis_hid =? VISIBLE then scr_vis d else scr_hid d.

(** The two mask steps [setPixel] applies to one plane word: clear the
    red and green bit of the row, then set them as asked. *)
Definition put2 (w mask_green mask_red : Z) (g r : bool) : Z :=
  let pix := Z.land w (not16 (Z.lor mask_red mask_green)) in
  let pix := if g then Z.lor pix mask_green else pix in
  if r then Z.lor pix mask_red else pix.

(** The colour [getPixel] assembles from the four plane bits of a pixel. *)
Definition color_of_bits (rm gm rl gl : bool) : Z :=
  let color := 0 in
  let color := if rm then Z.lor color RED_MSB else color in
  let color := if gm then Z.lor color GREEN_MSB else color in
  let color := if rl then Z.lor color RED_LSB else color in
  if gl then Z.lor color GREEN_LSB else color.

(** The colour of row [y] of a pixel column, read off its plane bits. *)
Definition color_at (pc : pixcol_t) (y : Z) : Z :=
  color_of_bits (Z.testbit (msb pc) (2 * y + 1)) (Z.testbit (msb pc) (2 * y))
                (Z.testbit (lsb pc) (2 * y + 1)) (Z.testbit (lsb pc) (2 * y)).

(** The display as the sandglass uses it: one buffer, visible and
    written at once, lying inside the array. *)
Definition display_ok (d : DotMatrix.t) : Prop :=
  buffer_ok d (scr_wrk d) /\ scr_vis d = scr_wrk d.

(** The pixels of the physical grid, and the cells of one bulb. *)
Definition cells : list (Z * Z) :=
  flat_map (fun x => map (fun y => (x, y)) (seqZ 0 DIM_Y)) (seqZ 0 DIM_X).

Definition bulb_cells : list (Z * Z) :=
  flat_map (fun x => map (fun y => (x, y)) (seqZ 0 8)) (seqZ 0 8).

(** A grain is a pixel that is not black. *)
Definition lit (c : Z) : Z := if c =? BLACK then 0 else 1.

Fixpoint total (f : Z * Z -> Z) (l : list (Z * Z)) : Z :=
  match l with
  | [] => 0
  | p :: l' => f p + total f l'
  end.

(** Number of non-black pixels on the visible screen. *)
Definition grains_on_screen (d : DotMatrix.t) : Z :=
  total (fun p => lit (getPixel (fst p) (snd p) VISIBLE d)) cells.

(** Number of grains in one bulb. *)
Definition grains_in (bulb : Z) (g : globals) : Z :=
  total (fun p => lit (get_pixel (fst p) (snd p) bulb g)) bulb_cells.

(** The calls the simulation makes on the sandglass. *)
Inductive call : Type :=
| Drop : call
| Simulate : Z -> Z -> Z -> call.

Definition perform (c : call) (g : globals) : globals :=
  match c with
  | Drop => drop g
  | Simulate x y bulb => snd (simulate_grain x y bulb g)
  end.

Definition perform_all (cs : list call) (g : globals) : globals :=
  fold_left (fun g c => perform c g) cs g.

(** Number of grains on the sandglass display. *)
Definition grains (g : globals) : Z := grains_on_screen (dm g).

(** The two pixel writes of a successful [move_grain]. *)
Definition shift (x1 y1 x2 y2 bulb : Z) (g : globals) : globals :=
  set_pixel x2 y2 bulb ORANGE (set_pixel x1 y1 bulb BLACK g).

(** What [fill_bulb] leaves in the two bulbs of a freshly reset glass. *)
Definition filled (g : globals) (p : Z * Z) : bool :=
  (get_pixel (fst p) (snd p) UPPER g =? (if 3 <? fst p + snd p then YELLOW else BLACK))
  && (get_pixel (fst p) (snd p) LOWER g =? BLACK).

(** Every pixel of the screen keeps its colour, except those listed. *)
Definition same_except (ps : list (Z * Z)) (g g' : globals) : Prop :=
  forall p, physical p -> ~ In p ps ->
    getPixel (fst p) (snd p) VISIBLE (dm g') = getPixel (fst p) (snd p) VISIBLE (dm g).

(** The grain of cell [(x1, y1)] of the bulb has moved to cell [(x2, y2)]:
    the old cell is black, the new one has the colour of a moving grain. *)
Definition grain_moved (x1 y1 x2 y2 bulb : Z) (g g' : globals) : Prop :=
  get_pixel x1 y1 bulb g' = BLACK /\
  get_pixel x2 y2 bulb g' = ORANGE /\
  same_except [orient (gravity g) x1 y1 bulb; orient (gravity g) x2 y2 bulb] g g'.

(** The grain of cell [(x, y)] of the bulb has taken colour [c]. *)
Definition recolored (x y bulb c : Z) (g g' : globals) : Prop :=
  get_pixel x y bulb g' = c /\
  same_except [orient (gravity g) x y bulb] g g'.

(** The axis-aligned target tried first, and the one tried after it, as
    the flag [side] selects them. *)
Definition preferred (side x y : Z) : Z * Z :=
  if truthy side then (x + 1, y) else (x, y + 1).

Definition fallback (side x y : Z) : Z * Z :=
  if truthy side then (x, y + 1) else (x + 1, y).

(** The relaxation step in the words of the specification, for a cell
    already masked into the bulb.  With [every_call] the flag is toggled by
    every call, as the specification has it; without, only by the calls
    that get as far as the axis-aligned moves. *)
Inductive relaxation (every_call : bool) (x y bulb : Z) (g g' : globals) : Prop :=
| rule_empty :
    get_pixel x y bulb g = BLACK ->
    dm g' = dm g ->
    static_counter g' = u8 (static_counter g + 1) ->
    side g' = (if every_call then Z.lxor (side g) 1 else side g) ->
    relaxation every_call x y bulb g g'
| rule_diagonal :
    get_pixel x y bulb g <> BLACK ->
    get_pixel (x + 1) (y + 1) bulb g = BLACK ->
    grain_moved x y (x + 1) (y + 1) bulb g g' ->
    static_counter g' = 0 ->
    side g' = (if every_call then Z.lxor (side g) 1 else side g) ->
    relaxation every_call x y bulb g g'
| rule_preferred :
    get_pixel x y bulb g <> BLACK ->
    get_pixel (x + 1) (y + 1) bulb g <> BLACK ->
    get_pixel (fst (preferred (side g) x y)) (snd (preferred (side g) x y)) bulb g = BLACK ->
    grain_moved x y (fst (preferred (side g) x y)) (snd (preferred (side g) x y)) bulb g g' ->
    static_counter g' = 0 ->
    side g' = Z.lxor (side g) 1 ->
    relaxation every_call x y bulb g g'
| rule_fallback :
    get_pixel x y bulb g <> BLACK ->
    get_pixel (x + 1) (y + 1) bulb g <> BLACK ->
    get_pixel (fst (preferred (side g) x y)) (snd (preferred (side g) x y)) bulb g <> BLACK ->
    get_pixel (fst (fallback (side g) x y)) (snd (fallback (side g) x y)) bulb g = BLACK ->
    grain_moved x y (fst (fallback (side g) x y)) (snd (fallback (side g) x y)) bulb g g' ->
    static_counter g' = 0 ->
    side g' = Z.lxor (side g) 1 ->
    relaxation every_call x y bulb g g'
| rule_settle :
    get_pixel x y bulb g <> BLACK ->
    get_pixel (x + 1) (y + 1) bulb g <> BLACK ->
    get_pixel (fst (preferred (side g) x y)) (snd (preferred (side g) x y)) bulb g <> BLACK ->
    get_pixel (fst (fallback (side g) x y)) (snd (fallback (side g) x y)) bulb g <> BLACK ->
    recolored x y bulb YELLOW g g' ->
    (bulb = LOWER -> static_counter g' = u8 (static_counter g + 1)) ->
    (bulb = UPPER -> static_counter g' = 0) ->
    side g' = Z.lxor (side g) 1 ->
    relaxation every_call x y bulb g g'.

(** Checks run over all 255 nonzero register values. *)
Definition lfsr_closed (r : Z) : bool :=
  let v := fst (random 0 r) in (0 <? v) && (v <? 256).

Definition full_period (s : Z) : bool :=
  bool_decide (NoDup (outputs 255 s 0))
  && (nth 254 (outputs 255 s 0) 0 =? s)
  && (nth 255 (outputs 256 s 0) 0 =? nth 0 (outputs 256 s 0) 0).

(** A grain crosses from the upper to the lower bulb in the pass of the
    loop that reads [timer]: the RUN block runs, the cycle has elapsed on
    the 16-bit timer, the exit cell holds a grain and the entry cell is
    empty. *)
Definition transfers_now (timer : Z) (m : main_t) : bool :=
  (mode m =? RUN)
  && (drop_cycle m <=? u16 (timer - last_drop m))
  && negb (get_pixel 7 7 UPPER (glob m) =? BLACK)
  && (get_pixel 0 0 LOWER (glob m) =? BLACK).

(** The passes of the loop are made at the interrupt counts [ticks] (the
    count is unbounded, the software timer shows its low 16 bits); the
    result lists the counts at which a grain crossed. *)
Fixpoint transfer_times (ticks : list Z) (m : main_t) : list Z :=
  match ticks with
  | [] => []
  | T :: ticks' =>
      (if transfers_now (u16 T) m then [T] else [])
        ++ transfer_times ticks' (main_run (u16 T) m)
  end.

(** The states after each pass of a run. *)
Fixpoint trace (timers : list Z) (m : main_t) : list main_t :=
  match timers with
  | [] => []
  | t :: ts => main_run t m :: trace ts (main_run t m)
  end.

(** Interrupt counts of a run with the longest cycle of the table
    (27083 counts, 585 s): a pass when the first cycle has elapsed, one a
    cycle later, then 35 passes 100 counts apart. *)
Definition passes_after_blocked_drop : list Z :=
  27083 :: 54166 :: map (fun k => 54166 + 100 * k) (seqZ 1 35).

(** Timer readings of [n] passes made one shortest cycle (463 counts,
    10 s setting) apart, so that a drop is due in each. *)
Definition passes_every_cycle (n : Z) : list Z :=
  map (fun k => u16 (k * 463)) (seqZ 1 n).

(** *** Vocabulary for the rest of the code *)

(** The mask [setPixCol] builds in the low half before shifting. *)
Definition mask_lo (mode : Z) (pc : pixcol_t) : Z :=
  if mode =? TRANSPARENT then
    let m := u16 (Z.lor (lsb pc) (msb pc)) in
    let m := u16 (Z.lor m (Z.land (Z.shiftr m 1) 0x5555)) in
    u16 (Z.lor m (Z.shiftl m 1))
  else 0xFFFF.

(** A 16-bit plane moved up by [k] bit positions, as it arrives in the
    low half after the shift loop. *)
Definition raised (v k : Z) : Z := u16 (Z.shiftl (u16 v) k).

(** The red bits of a colour code. *)
Definition red_part (c : Z) : Z := Z.land c (Z.lor RED_MSB RED_LSB).

(** Checks run over all byte patterns and bit positions. *)
Definition spread_ok (p j : Z) : bool :=
  Bool.eqb (Z.testbit (shifter_u16 (spread_loop 8 p)) j)
           (Z.odd j && Z.testbit p (j / 2)).

(** What [setPixCol] leaves in a plane word of the slot: [m] the mask
    half, [s] the pixel half, [old] the word before. *)
Definition blit_word (mode m s old : Z) : Z :=
  if mode =? XOR then Z.lxor old s else Z.lor (Z.land old m) s.

(** The object after [n] calls of [update]. *)
Definition scan (n : nat) (d : DotMatrix.t) : DotMatrix.t :=
  Nat.iter n (fun d => snd (update d)) d.

(** The scan state (column, sub-frame counter) after one call. *)
Definition scan_step (s : Z * Z) : Z * Z :=
  let b := if fst s =? 0 then Z.land (u8 (snd s - 1)) MAX_BRIGHTNESS else snd s in
  (Z.land (u8 (fst s + 1)) (COLS_PER_BLOCK - 1), b).

(** Presses of S1 ([true]) and S2 ([false]) in a row, on mode and
    setting. *)
Definition presses (bs : list bool) (st : Z * setting_t) : Z * setting_t :=
  fold_left (fun st (b : bool) =>
               if b then button_S1 (fst st) (snd st) else button_S2 (fst st) (snd st))
            bs st.

(** The time in seconds a setting stands for. *)
Definition seconds (m q : Z) : Z :=
  if (m =? 0) && (q =? 0) then 10 else 60 * m + 15 * q.

(** The sum of [w] over the cells of a bulb that hold a grain. *)
Definition weighted (w : Z * Z -> Z) (bulb : Z) (g : globals) : Z :=
  total (fun p => w p * lit (get_pixel (fst p) (snd p) bulb g)) bulb_cells.

(** How far the sand of a bulb has sunk towards the corner gravity pulls
    it to: the sum of [x + y] over its grains. *)
Definition depth (bulb : Z) (g : globals) : Z :=
  weighted (fun p => fst p + snd p) bulb g.

(** A call that names one of the two bulbs. *)
Definition call_ok (c : call) : Prop :=
  match c with
  | Drop => True
  | Simulate _ _ bulb => bulb = UPPER \/ bulb = LOWER
  end.

(** The cell [main] picks from a random byte:
    [simulate_grain(r >> 1, r >> 4, r & 1)], with the masking to 0..7
    that [simulate_grain] applies to the coordinates. *)
Definition cell_of (r : Z) : Z * Z * Z :=
  (Z.land (Z.shiftr r 1) 7, Z.land (Z.shiftr r 4) 7, Z.land r 1).

(** A byte that selects a given cell. *)
Definition byte_of (x y bulb : Z) : Z :=
  if (x =? 0) && (y =? 0) && (bulb =? 0) then 128 else bulb + 2 * x + 16 * y.

(** * Properties *)

(** ** PseudoRandomSource *)

Lemma forallb_seqZ (f : Z -> bool) (m n : Z) :
  forallb f (seqZ m n) = true -> forall k, m <= k < m + n -> f k = true.
Proof.
  intros H k Hk. rewrite forallb_forall in H. apply H.
  apply list_elem_of_In, elem_of_seqZ. exact Hk.
Qed.

Lemma truthy_pos z : 0 < z -> truthy z = true.
Proof. intros H. unfold truthy. destruct (Z.eqb_spec z 0); [lia | reflexivity]. Qed.

Lemma random_seeded seed r r' :
  truthy seed = true -> random seed r = random seed r'.
Proof. intros H. unfold random. rewrite H. reflexivity. Qed.

Lemma random_snd seed r : snd (random seed r) = fst (random seed r).
Proof. reflexivity. Qed.

Lemma random_shift seed r :
  random seed r = random 0 (if truthy seed then seed else r).
Proof. reflexivity. Qed.

Lemma lfsr_closed_all r : 0 < r < 256 -> 0 < fst (random 0 r) < 256.
Proof.
  intros Hr.
  assert (H : lfsr_closed r = true).
  { apply (forallb_seqZ lfsr_closed 1 255); [vm_compute; reflexivity | lia]. }
  unfold lfsr_closed in H. apply andb_prop in H. lia.
Qed.

Lemma full_period_all s : 0 < s < 256 -> full_period s = true.
Proof.
  intros Hs.
  apply (forallb_seqZ full_period 1 255); [vm_compute; reflexivity | lia].
Qed.

Lemma outputs_seeded n seed r r' :
  truthy seed = true -> outputs n seed r = outputs n seed r'.
Proof.
  intros H. destruct n as [| n]; [reflexivity |].
  cbn [outputs]. rewrite (random_seeded seed r r' H). reflexivity.
Qed.

Lemma outputs_nonzero n : forall seed r,
  0 < (if truthy seed then seed else r) < 256 ->
  Forall (fun v => v <> 0) (outputs n seed r).
Proof.
  induction n as [| n IH]; intros seed r H; cbn [outputs]; [constructor |].
  rewrite random_shift.
  pose proof (lfsr_closed_all _ H) as Hc.
  pose proof (random_snd 0 (if truthy seed then seed else r)) as Hs.
  destruct (random 0 (if truthy seed then seed else r)) as [v r1].
  cbn [fst snd] in Hs, Hc. subst r1.
  constructor; [lia |]. apply IH. exact Hc.
Qed.

(** C4, as amended: after a reseed with a nonzero 8-bit seed [S] every
    value returned by [random] is nonzero, the first 255 returned values are
    pairwise distinct, the 255th returned value is [S] itself, and the 256th
    repeats the first. *)
Theorem random_full_period (S : Z) (r : Z) :
  0 < S < 256 ->
  (forall n, Forall (fun v => v <> 0) (outputs n S r)) /\
  NoDup (outputs 255 S r) /\
  nth 254 (outputs 255 S r) 0 = S /\
  nth 255 (outputs 256 S r) 0 = nth 0 (outputs 256 S r) 0.
Proof.
  intros HS.
  pose proof (truthy_pos S (proj1 HS)) as Et.
  pose proof (full_period_all S HS) as Hp. unfold full_period in Hp.
  apply andb_prop in Hp. destruct Hp as [Hp H256].
  apply andb_prop in Hp. destruct Hp as [Hnd H255].
  rewrite (outputs_seeded 255 S r 0 Et), (outputs_seeded 256 S r 0 Et).
  repeat split.
  - intros n. apply outputs_nonzero. rewrite Et. exact HS.
  - apply bool_decide_eq_true in Hnd. exact Hnd.
  - apply Z.eqb_eq, H255.
  - apply Z.eqb_eq, H256.
Qed.

Lemma random_full_period_witness :
  0 < 1 < 256 /\
  ((forall n, Forall (fun v => v <> 0) (outputs n 1 RANDOM_SEED)) /\
   NoDup (outputs 255 1 RANDOM_SEED) /\
   nth 254 (outputs 255 1 RANDOM_SEED) 0 = 1 /\
   nth 255 (outputs 256 1 RANDOM_SEED) 0 = nth 0 (outputs 256 1 RANDOM_SEED) 0).
Proof.
  split; [lia |]. apply (random_full_period 1 RANDOM_SEED). lia.
Defined.

(** C4 as stated fails: seeded with 1, the 256th value returned is 2, the
    same as the first, and not the seed. *)
Lemma random_output_256_not_seed :
  nth 0 (outputs 256 1 RANDOM_SEED) 0 = 2 /\
  nth 255 (outputs 256 1 RANDOM_SEED) 0 = 2 /\
  nth 255 (outputs 256 1 RANDOM_SEED) 0 <> 1.
Proof.
  assert (E : nth 255 (outputs 256 1 RANDOM_SEED) 0 = 2)
    by (vm_compute; reflexivity).
  split; [vm_compute; reflexivity |]. split; [exact E |].
  rewrite E. discriminate.
Qed.

(** ** DisplayEngine *)

Lemma u8_small z : 0 <= z < 256 -> u8 z = z.
Proof. intros H. unfold u8. apply Z.mod_small. exact H. Qed.

(** One call of [update], for an offset and a scan column in range: the
    sub-frame counter is stepped down when the scan is at column 0, the
    word of the rightmost block goes out first, and the scan moves on by
    one column. *)
Lemma update_words d :
  0 <= offset d < 16 -> 0 <= column d < 8 ->
  update d =
    (let sf := if column d =? 0
               then Z.land (u8 (bright_cnt d - 1)) MAX_BRIGHTNESS else bright_cnt d in
     let c1 := (offset d + 8) mod 16 + column d in
     let c2 := (c1 + 8) mod 16 in
     ([dither (msb (load d (scr_vis d) c1)) (lsb (load d (scr_vis d) c1)) sf;
       dither (msb (load d (scr_vis d) c2)) (lsb (load d (scr_vis d) c2)) sf],
      with_scan (Z.land (u8 (column d + 1)) (COLS_PER_BLOCK - 1)) sf d)).
Proof.
  intros Ho Hc. cbv zeta.
  destruct d as [scr vis hid wrk off col bc clr]. cbn [column offset] in Ho, Hc.
  unfold update, with_scan, load.
  cbn [fst snd column bright_cnt offset scr_vis scr_hid scr_wrk color screen].
  unfold NUM_PIXCOLS, NUM_BLOCKS, NUM_BLOCKS_X, NUM_BLOCKS_Y, COLS_PER_BLOCK, MAX_BRIGHTNESS.
  change (Z.to_nat (2 * 1)) with 2%nat.
  change (2 * 1 * 8 - 8) with 8. change (2 * 1 * 8) with 16.
  assert (E1 : u8 ((if 16 <=? u8 (8 + off) then u8 (u8 (8 + off) - 16) else u8 (8 + off)) + col)
               = (off + 8) mod 16 + col).
  { rewrite (u8_small (8 + off)) by lia.
    destruct (Z.leb_spec 16 (8 + off)).
    - rewrite (u8_small (8 + off - 16)) by lia.
      replace ((off + 8) mod 16) with (8 + off - 16) by (apply Z.mod_unique with 1; lia).
      apply u8_small. lia.
    - rewrite Z.mod_small by lia. replace (8 + off) with (off + 8) by lia.
      apply u8_small. lia. }
  set (c1 := (off + 8) mod 16 + col) in *.
  assert (R1 : 0 <= c1 < 23)
    by (unfold c1; pose proof (Z.mod_pos_bound (off + 8) 16 ltac:(lia)); lia).
  assert (E2 : (if 16 <=? u8 (c1 - 8) then u8 (u8 (c1 - 8) + 16) else u8 (c1 - 8))
               = (c1 + 8) mod 16).
  { destruct (Z.ltb_spec c1 8).
    - replace (u8 (c1 - 8)) with (c1 + 248) by (unfold u8; apply Z.mod_unique with (-1); lia).
      replace (16 <=? c1 + 248) with true by (symmetry; apply Z.leb_le; lia).
      replace (u8 (c1 + 248 + 16)) with (c1 + 8) by (unfold u8; apply Z.mod_unique with 1; lia).
      rewrite Z.mod_small by lia. reflexivity.
    - rewrite (u8_small (c1 - 8)) by lia.
      replace (16 <=? c1 - 8) with false by (symmetry; apply Z.leb_gt; lia).
      apply Z.mod_unique with 1; lia. }
  destruct (col =? 0);
    cbn [column bright_cnt offset update_blocks scr_vis scr_hid scr_wrk color screen];
    unfold load; cbn [scr_vis screen bright_cnt];
    unfold NUM_PIXCOLS, NUM_BLOCKS, NUM_BLOCKS_X, NUM_BLOCKS_Y, COLS_PER_BLOCK;
    change (2 * 1 * 8) with 16;
    rewrite E1, E2; reflexivity.
Qed.

(** C5: with the offset and the scan column in range, [update] emits
    exactly two words, for the visible columns [(offset + 8) mod 16 + column]
    and that index moved by 8 modulo 16; each word is [dither] of the MSB
    plane and the LSB plane of its column and of the sub-frame counter,
    which is the brightness counter stepped down (modulo 4) when the scan
    is at column 0 and is the counter [update] leaves behind.  [dither] is
    AND in sub-frames 1 and 3, OR in sub-frame 0, the MSB plane in
    sub-frame 2; and at every bit position the bits emitted over
    sub-frames 3, 2, 1, 0 follow the duty pattern of the two plane
    bits. *)
Theorem update_dither (d : DotMatrix.t) (m l i : Z) :
  0 <= offset d < NUM_PIXCOLS -> 0 <= column d < COLS_PER_BLOCK ->
  let sf := if column d =? 0
            then Z.land (u8 (bright_cnt d - 1)) MAX_BRIGHTNESS else bright_cnt d in
  let c1 := (offset d + 8) mod 16 + column d in
  let c2 := (c1 + 8) mod 16 in
  fst (update d) =
    [dither (msb (load d (scr_vis d) c1)) (lsb (load d (scr_vis d) c1)) sf;
     dither (msb (load d (scr_vis d) c2)) (lsb (load d (scr_vis d) c2)) sf] /\
  bright_cnt (snd (update d)) = sf /\
  screen (snd (update d)) = screen d /\
  dither m l 1 = Z.land m l /\
  dither m l 3 = Z.land m l /\
  dither m l 0 = Z.lor m l /\
  dither m l 2 = m /\
  emitted_bits m l i = duty_pattern (Z.testbit m i) (Z.testbit l i).
Proof.
  unfold NUM_PIXCOLS, NUM_BLOCKS, NUM_BLOCKS_X, NUM_BLOCKS_Y, COLS_PER_BLOCK.
  intros Ho Hc. cbv zeta.
  rewrite (update_words d Ho Hc). cbv zeta. cbn [fst snd bright_cnt screen with_scan].
  split; [reflexivity |]. split; [reflexivity |]. split; [reflexivity |].
  repeat split.
  unfold emitted_bits, dither. cbn [map].
  change (truthy (Z.land 3 1)) with true.
  change (truthy (Z.land 2 1)) with false.
  change (truthy (Z.land 1 1)) with true.
  change (truthy (Z.land 0 1)) with false.
  change (2 =? 0) with false. change (0 =? 0) with true. cbv iota.
  rewrite Z.land_spec, Z.lor_spec.
  destruct (Z.testbit m i), (Z.testbit l i); reflexivity.
Qed.

(** An orange pixel at [(8, 2)] after [init]: the first call of [update]
    is at column 0, steps the counter from 3 to sub-frame 2, and emits the
    MSB plane of column 8, bits 4 and 5, then the empty column 0. *)
Lemma update_dither_witness :
  fst (update (setPixel 8 2 ORANGE (init false (power_on false)))) = [48; 0].
Proof.
  refine (eq_trans
            (proj1 (update_dither (setPixel 8 2 ORANGE (init false (power_on false))) 0 0 0 _ _))
            _);
    vm_compute; intuition congruence.
Defined.

(** ** OrientationTransform *)

Ltac lxor_cases :=
  change (truthy (Z.lxor 0 0)) with false in *;
  change (truthy (Z.lxor 1 0)) with true in *;
  change (truthy (Z.lxor 0 1)) with true in *;
  change (truthy (Z.lxor 1 1)) with false in *.

(** [orient] on a cell of a bulb, as plain arithmetic: both axes are
    mirrored when gravity is UP, and eight is added to [x] when
    [bulb ^ gravity] is nonzero. *)
Lemma orient_arith gv x y bulb :
  0 <= x < 8 -> 0 <= y < 8 ->
  orient gv x y bulb =
    ((if gv =? UP then 7 - x else x) + (if truthy (Z.lxor bulb gv) then 8 else 0),
     if gv =? UP then 7 - y else y).
Proof.
  intros Hx Hy. unfold orient.
  destruct (gv =? UP).
  - rewrite (u8_small (7 - x)), (u8_small (7 - y)) by lia.
    destruct (truthy (Z.lxor bulb gv)); [rewrite u8_small by lia | rewrite Z.add_0_r]; reflexivity.
  - destruct (truthy (Z.lxor bulb gv)); [rewrite u8_small by lia | rewrite Z.add_0_r]; reflexivity.
Qed.

Lemma orient_physical gv x y bulb :
  0 <= x < 8 -> 0 <= y < 8 -> physical (orient gv x y bulb).
Proof.
  intros Hx Hy. rewrite orient_arith by assumption.
  unfold physical, DIM_X, DIM_Y, NUM_BLOCKS_X, NUM_BLOCKS_Y, COLS_PER_BLOCK, ROWS_PER_BLOCK.
  cbn [fst snd].
  destruct (gv =? UP), (truthy (Z.lxor bulb gv)); lia.
Qed.

(** Within one bulb the transform is injective, whatever the values of
    [gravity] and [bulb]. *)
Lemma orient_inj_bulb gv bulb x y x' y' :
  0 <= x < 8 -> 0 <= y < 8 -> 0 <= x' < 8 -> 0 <= y' < 8 ->
  orient gv x y bulb = orient gv x' y' bulb -> x = x' /\ y = y'.
Proof.
  intros Hx Hy Hx' Hy' E.
  rewrite !orient_arith in E by assumption.
  injection E as E1 E2.
  destruct (gv =? UP), (truthy (Z.lxor bulb gv)); lia.
Qed.

(** C6: for a fixed gravity value the coordinate computation of
    [get_pixel] and [set_pixel] maps the cells of the two bulbs into the
    physical grid, injectively, and onto it. *)
Theorem orient_bijection (gv : Z) :
  gv = DOWN \/ gv = UP ->
  (forall x y bulb c g, logical x y bulb -> gravity g = gv ->
     get_pixel x y bulb g =
       getPixel (fst (orient gv x y bulb)) (snd (orient gv x y bulb)) VISIBLE (dm g) /\
     set_pixel x y bulb c g =
       with_dm (setPixel (fst (orient gv x y bulb)) (snd (orient gv x y bulb)) c (dm g)) g) /\
  (forall x y bulb, logical x y bulb -> physical (orient gv x y bulb)) /\
  (forall x y bulb x' y' bulb',
     logical x y bulb -> logical x' y' bulb' ->
     orient gv x y bulb = orient gv x' y' bulb' ->
     x = x' /\ y = y' /\ bulb = bulb') /\
  (forall p, physical p ->
     exists x y bulb, logical x y bulb /\ orient gv x y bulb = p).
Proof.
  intros Hg. split; [| split; [| split]].
  - intros x y bulb c g (Hx & Hy & _) Hgv. unfold get_pixel, set_pixel. rewrite Hgv.
    replace (7 <? x) with false by (symmetry; apply Z.ltb_ge; lia).
    replace (7 <? y) with false by (symmetry; apply Z.ltb_ge; lia).
    cbn [orb]. destruct (orient gv x y bulb). split; reflexivity.
  - intros x y bulb (Hx & Hy & _).
    apply (orient_physical gv x y bulb Hx Hy).
  - intros x y bulb x' y' bulb' (Hx & Hy & Hb) (Hx' & Hy' & Hb') E.
    rewrite !orient_arith in E by assumption. injection E as E1 E2.
    unfold UP, DOWN, UPPER, LOWER in *.
    destruct Hg, Hb, Hb'; subst; lxor_cases; cbn in E1, E2; lia.
  - intros [px py] [Hpx Hpy].
    unfold DIM_X, DIM_Y, NUM_BLOCKS_X, NUM_BLOCKS_Y, COLS_PER_BLOCK, ROWS_PER_BLOCK in *.
    cbn [fst snd] in Hpx, Hpy.
    assert (Hc : px < 8 \/ 8 <= px) by lia.
    unfold UP, DOWN in Hg.
    destruct Hg as [-> | ->], Hc as [Hc | Hc].
    + exists px, py, UPPER. split; [unfold logical, UPPER, LOWER; lia |].
      rewrite orient_arith by lia. unfold UPPER, LOWER, UP. lxor_cases.
      cbn. f_equal; lia.
    + exists (px - 8), py, LOWER. split; [unfold logical, UPPER, LOWER; lia |].
      rewrite orient_arith by lia. unfold UPPER, LOWER, UP. lxor_cases.
      cbn. f_equal; lia.
    + exists (7 - px), (7 - py), LOWER. split; [unfold logical, UPPER, LOWER; lia |].
      rewrite orient_arith by lia. unfold UPPER, LOWER, UP. lxor_cases.
      cbn. f_equal; lia.
    + exists (15 - px), (7 - py), UPPER. split; [unfold logical, UPPER, LOWER; lia |].
      rewrite orient_arith by lia. unfold UPPER, LOWER, UP. lxor_cases.
      cbn. f_equal; lia.
Qed.

Lemma orient_bijection_witness :
  (DOWN = DOWN \/ DOWN = UP) /\
  (forall x y bulb, logical x y bulb -> physical (orient DOWN x y bulb)).
Proof.
  split; [left; reflexivity |].
  apply (orient_bijection DOWN). left. reflexivity.
Defined.

(** ** FrameBuffer: pixel encoding *)

Lemma land_pow2 w k :
  0 <= k -> Z.land w (2 ^ k) = if Z.testbit w k then 2 ^ k else 0.
Proof.
  intros Hk. apply Z.bits_inj'. intros n Hn.
  rewrite Z.land_spec, Z.pow2_bits_eqb by exact Hk.
  destruct (Z.eqb_spec k n) as [-> | Hne].
  - rewrite andb_true_r. destruct (Z.testbit w n) eqn:E.
    + symmetry. apply Z.pow2_bits_true. exact Hn.
    + symmetry. apply Z.bits_0.
  - rewrite andb_false_r. destruct (Z.testbit w k).
    + symmetry. apply Z.pow2_bits_false. exact Hne.
    + symmetry. apply Z.bits_0.
Qed.

Lemma truthy_land_pow2 w k : 0 <= k -> truthy (Z.land w (2 ^ k)) = Z.testbit w k.
Proof.
  intros Hk. rewrite land_pow2 by exact Hk. unfold truthy.
  destruct (Z.testbit w k); [| reflexivity].
  destruct (Z.eqb_spec (2 ^ k) 0) as [E | _]; [| reflexivity].
  pose proof (Z.pow_pos_nonneg 2 k ltac:(lia) Hk). lia.
Qed.

Lemma not16_bit z i : 0 <= i < 16 -> Z.testbit (not16 z) i = negb (Z.testbit z i).
Proof.
  intros Hi. unfold not16, u16. change 65536 with (2 ^ 16).
  rewrite Z.mod_pow2_bits_low by lia. apply Z.lnot_spec. lia.
Qed.

Lemma put2_bit w k g r i :
  0 <= k -> 0 <= i < 16 ->
  Z.testbit (put2 w (2 ^ k) (2 ^ (k + 1)) g r) i =
    if i =? k then g else if i =? k + 1 then r else Z.testbit w i.
Proof.
  intros Hk Hi.
  assert (B : Z.testbit (Z.land w (not16 (Z.lor (2 ^ (k + 1)) (2 ^ k)))) i =
              if i =? k then false else if i =? k + 1 then false else Z.testbit w i).
  { rewrite Z.land_spec, not16_bit, Z.lor_spec, !Z.pow2_bits_eqb by lia.
    rewrite (Z.eqb_sym k i), (Z.eqb_sym (k + 1) i).
    destruct (i =? k), (i =? k + 1), (Z.testbit w i); reflexivity. }
  unfold put2. destruct g, r;
    rewrite ?Z.lor_spec, B, ?Z.pow2_bits_eqb by lia;
    rewrite ?(Z.eqb_sym k i), ?(Z.eqb_sym (k + 1) i);
    destruct (Z.eqb_spec i k), (Z.eqb_spec i (k + 1)), (Z.testbit w i);
    try reflexivity; lia.
Qed.

Lemma row_cases y :
  0 <= y < 8 -> y = 0 \/ y = 1 \/ y = 2 \/ y = 3 \/ y = 4 \/ y = 5 \/ y = 6 \/ y = 7.
Proof. lia. Qed.

(** The mask table holds the green bit of each row, and the shifted mask
    is the red bit next to it. *)
Lemma masks_of_row y :
  0 <= y < 8 ->
  pgm_read_word pixcol_mask (Z.land y (ROWS_PER_BLOCK - 1)) = 2 ^ (2 * y) /\
  u16 (Z.shiftl (pgm_read_word pixcol_mask (Z.land y (ROWS_PER_BLOCK - 1))) 1)
    = 2 ^ (2 * y + 1).
Proof.
  intros Hy.
  destruct (row_cases y Hy) as [-> | [-> | [-> | [-> | [-> | [-> | [-> | ->]]]]]]];
    split; reflexivity.
Qed.

Lemma color_of_bits_nibble c :
  0 <= c < 16 ->
  color_of_bits (truthy (Z.land c 8)) (truthy (Z.land c 2))
                (truthy (Z.land c 4)) (truthy (Z.land c 1)) = c.
Proof.
  intros Hc.
  assert (H : forallb (fun c => color_of_bits (truthy (Z.land c 8)) (truthy (Z.land c 2))
                (truthy (Z.land c 4)) (truthy (Z.land c 1)) =? c) (seqZ 0 16) = true)
    by (vm_compute; reflexivity).
  apply Z.eqb_eq. apply (forallb_seqZ _ 0 16 H). lia.
Qed.

Lemma index_in_range x y :
  0 <= x < 16 -> 0 <= y < 8 -> u8 (x + y / ROWS_PER_BLOCK * DIM_X) = x.
Proof.
  intros Hx Hy. unfold ROWS_PER_BLOCK. rewrite Z.div_small by lia.
  rewrite Z.mul_0_l, Z.add_0_r. apply u8_small. lia.
Qed.

Lemma load_store_eq d p i pc :
  (Z.to_nat (p + i) < length (screen d))%nat ->
  load (store p i pc d) p i = pc.
Proof.
  intros H. unfold load, store. cbn [screen with_screen].
  rewrite nth_lookup, list_lookup_insert_eq by exact H. reflexivity.
Qed.

Lemma load_store_ne d p i q j pc :
  Z.to_nat (p + i) <> Z.to_nat (q + j) ->
  load (store p i pc d) q j = load d q j.
Proof.
  intros H. unfold load, store. cbn [screen with_screen].
  rewrite !nth_lookup, list_lookup_insert_ne by exact H. reflexivity.
Qed.

Lemma store_store d p i pc pc' :
  store p i pc' (store p i pc d) = store p i pc' d.
Proof.
  unfold store, with_screen. cbn. rewrite list_insert_insert_eq. reflexivity.
Qed.

Lemma buffer_index d p x :
  buffer_ok d p -> 0 <= x < 16 -> (Z.to_nat (p + x) < length (screen d))%nat.
Proof.
  unfold buffer_ok, NUM_PIXCOLS, NUM_BLOCKS, NUM_BLOCKS_X, NUM_BLOCKS_Y, COLS_PER_BLOCK.
  intros [H0 H1] Hx. lia.
Qed.

Lemma getPixel_in_range x y v d :
  0 <= x < 16 -> 0 <= y < 8 -> v = VISIBLE \/ v = HIDDEN ->
  getPixel x y v d = color_at (load d (selected v d) x) y.
Proof.
  intros Hx Hy Hv. unfold getPixel. cbv zeta.
  destruct (masks_of_row y Hy) as [Eg Er]. rewrite Er, Eg.
  rewrite (index_in_range x y Hx Hy).
  replace (DIM_X <=? x) with false by (symmetry; apply Z.leb_gt; unfold DIM_X, NUM_BLOCKS_X, COLS_PER_BLOCK; lia).
  replace (DIM_Y <=? y) with false by (symmetry; apply Z.leb_gt; unfold DIM_Y, NUM_BLOCKS_Y, ROWS_PER_BLOCK; lia).
  unfold color_at, color_of_bits, selected.
  destruct Hv as [-> | ->]; cbn [Z.eqb VISIBLE HIDDEN];
    rewrite !truthy_land_pow2 by lia; reflexivity.
Qed.

Lemma setPixel_in_range x y c d :
  0 <= x < 16 -> 0 <= y < 8 -> buffer_ok d (scr_wrk d) ->
  setPixel x y c d =
    store (scr_wrk d) x
      {| lsb := put2 (lsb (load d (scr_wrk d) x)) (2 ^ (2 * y)) (2 ^ (2 * y + 1))
                     (truthy (Z.land c 1)) (truthy (Z.land c 4));
         msb := put2 (msb (load d (scr_wrk d) x)) (2 ^ (2 * y)) (2 ^ (2 * y + 1))
                     (truthy (Z.land c 2)) (truthy (Z.land c 8)) |} d.
Proof.
  intros Hx Hy Hb. unfold setPixel. cbv zeta.
  destruct (masks_of_row y Hy) as [Eg Er]. rewrite Er, Eg.
  rewrite (index_in_range x y Hx Hy).
  replace (DIM_X <=? x) with false by (symmetry; apply Z.leb_gt; unfold DIM_X, NUM_BLOCKS_X, COLS_PER_BLOCK; lia).
  replace (DIM_Y <=? y) with false by (symmetry; apply Z.leb_gt; unfold DIM_Y, NUM_BLOCKS_Y, ROWS_PER_BLOCK; lia).
  pose proof (buffer_index d (scr_wrk d) x Hb Hx) as Hi.
  unfold store_lsb, store_msb.
  change (scr_wrk (store ?p ?i ?pc d)) with (scr_wrk d).
  rewrite load_store_eq by exact Hi. rewrite store_store.
  cbn [lsb msb]. unfold put2. reflexivity.
Qed.

Lemma color_at_put pc y c y' :
  0 <= y < 8 -> 0 <= y' < 8 -> 0 <= c < 16 ->
  color_at
    {| lsb := put2 (lsb pc) (2 ^ (2 * y)) (2 ^ (2 * y + 1))
                   (truthy (Z.land c 1)) (truthy (Z.land c 4));
       msb := put2 (msb pc) (2 ^ (2 * y)) (2 ^ (2 * y + 1))
                   (truthy (Z.land c 2)) (truthy (Z.land c 8)) |} y'
  = if y' =? y then c else color_at pc y'.
Proof.
  intros Hy Hy' Hc. unfold color_at. cbn [lsb msb].
  rewrite !put2_bit by lia.
  destruct (Z.eqb_spec y' y) as [-> | Hne].
  - rewrite !Z.eqb_refl.
    replace (2 * y + 1 =? 2 * y) with false by (symmetry; apply Z.eqb_neq; lia).
    apply color_of_bits_nibble, Hc.
  - replace (2 * y' + 1 =? 2 * y) with false by (symmetry; apply Z.eqb_neq; lia).
    replace (2 * y' + 1 =? 2 * y + 1) with false by (symmetry; apply Z.eqb_neq; lia).
    replace (2 * y' =? 2 * y) with false by (symmetry; apply Z.eqb_neq; lia).
    replace (2 * y' =? 2 * y + 1) with false by (symmetry; apply Z.eqb_neq; lia).
    reflexivity.
Qed.

Lemma selected_store v p i pc d : selected v (store p i pc d) = selected v d.
Proof. reflexivity. Qed.

(** Reading any in-range pixel of the written buffer after [setPixel]. *)
Lemma getPixel_setPixel x y c x' y' v d :
  buffer_ok d (scr_wrk d) ->
  v = VISIBLE \/ v = HIDDEN -> selected v d = scr_wrk d ->
  0 <= x < 16 -> 0 <= y < 8 -> 0 <= x' < 16 -> 0 <= y' < 8 -> 0 <= c < 16 ->
  getPixel x' y' v (setPixel x y c d) =
    if (x' =? x) && (y' =? y) then c else getPixel x' y' v d.
Proof.
  intros Hb Hv Hs Hx Hy Hx' Hy' Hc.
  rewrite (setPixel_in_range x y c d Hx Hy Hb).
  rewrite !getPixel_in_range by assumption.
  rewrite selected_store, Hs.
  pose proof (buffer_index d (scr_wrk d) x Hb Hx) as Hi.
  destruct (Z.eqb_spec x' x) as [-> | Hne].
  - rewrite load_store_eq by exact Hi. cbn [andb].
    apply color_at_put; assumption.
  - rewrite load_store_ne; [reflexivity |].
    destruct Hb as [Hp _]. lia.
Qed.

(** ** FrameBuffer: C7, C8, C10 *)

Lemma setPixel_out_of_range x y c d :
  DIM_X <= x \/ DIM_Y <= y -> setPixel x y c d = d.
Proof.
  intros Ho. unfold setPixel. cbv zeta.
  destruct (Z.leb_spec DIM_X x) as [Hx | Hx]; [reflexivity |].
  destruct (Z.leb_spec DIM_Y y) as [Hy | Hy]; [reflexivity | lia].
Qed.

Lemma getPixel_out_of_range x y v d :
  DIM_X <= x \/ DIM_Y <= y -> getPixel x y v d = 255.
Proof.
  intros Ho. unfold getPixel. cbv zeta.
  destruct (Z.leb_spec DIM_X x) as [Hx | Hx]; [reflexivity |].
  destruct (Z.leb_spec DIM_Y y) as [Hy | Hy]; [reflexivity | lia].
Qed.

(** C7: on the working buffer a pixel written in range with a 4-bit
    colour is read back unchanged; out of range [setPixel] changes nothing
    and [getPixel] returns 255. *)
Theorem setPixel_getPixel_roundtrip (d : DotMatrix.t) (x y c v : Z) :
  (buffer_ok d (scr_wrk d) ->
   v = VISIBLE \/ v = HIDDEN -> selected v d = scr_wrk d ->
   0 <= x < DIM_X -> 0 <= y < DIM_Y -> 0 <= c < 16 ->
   getPixel x y v (setPixel x y c d) = c) /\
  (DIM_X <= x \/ DIM_Y <= y ->
   setPixel x y c d = d /\ getPixel x y v d = 255).
Proof.
  split.
  - intros Hb Hv Hs Hx Hy Hc.
    unfold DIM_X, DIM_Y, NUM_BLOCKS_X, NUM_BLOCKS_Y, COLS_PER_BLOCK, ROWS_PER_BLOCK in Hx, Hy.
    rewrite (getPixel_setPixel x y c x y v d) by (assumption || lia).
    rewrite !Z.eqb_refl. reflexivity.
  - intros Ho. split; [apply setPixel_out_of_range | apply getPixel_out_of_range]; exact Ho.
Qed.

Lemma setPixel_getPixel_roundtrip_witness :
  getPixel 3 5 VISIBLE (setPixel 3 5 9 (init false (power_on false))) = 9 /\
  setPixel 16 0 9 (init false (power_on false)) = init false (power_on false) /\
  getPixel 0 8 VISIBLE (init false (power_on false)) = 255.
Proof.
  pose proof (setPixel_getPixel_roundtrip (init false (power_on false)) 3 5 9 VISIBLE) as [H _].
  pose proof (setPixel_getPixel_roundtrip (init false (power_on false)) 16 0 9 VISIBLE) as [_ H1].
  pose proof (setPixel_getPixel_roundtrip (init false (power_on false)) 0 8 9 VISIBLE) as [_ H2].
  split; [| split].
  - apply H; vm_compute; intuition congruence.
  - apply H1. left. vm_compute. discriminate.
  - apply H2. right. vm_compute. discriminate.
Defined.

(** C10: with a buffer selector that is neither VISIBLE nor HIDDEN
    [getPixel] returns 255 for every coordinate pair, the value it also
    returns for coordinates outside the display. *)
Theorem getPixel_bad_selector (d : DotMatrix.t) (x y v : Z) :
  v <> VISIBLE -> v <> HIDDEN ->
  getPixel x y v d = 255 /\
  (forall x' y' v', DIM_X <= x' \/ DIM_Y <= y' ->
     getPixel x' y' v' d = getPixel x y v d).
Proof.
  intros Hv Hh.
  assert (E : getPixel x y v d = 255).
  { unfold getPixel. cbv zeta.
    destruct (DIM_X <=? x); [reflexivity |].
    destruct (DIM_Y <=? y); [reflexivity |].
    destruct (Z.eqb_spec v VISIBLE); [contradiction |].
    destruct (Z.eqb_spec v HIDDEN); [contradiction |]. reflexivity. }
  split; [exact E |].
  intros x' y' v' Ho. rewrite E.
  apply getPixel_out_of_range. exact Ho.
Qed.

Lemma getPixel_bad_selector_witness :
  (2 <> VISIBLE /\ 2 <> HIDDEN) /\
  getPixel 3 5 2 (init false (power_on false)) = 255.
Proof.
  split; [split; vm_compute; discriminate |].
  refine (proj1 (getPixel_bad_selector (init false (power_on false)) 3 5 2 _ _));
    vm_compute; discriminate.
Defined.

(** C8, as amended: [swapScreen] exchanges [scr_vis] and [scr_hid] and
    leaves the pixel data alone, and the working screen keeps its role: if
    it was the hidden (visible) screen before, it is the hidden (visible)
    screen after, which is the physical buffer that used to be visible
    (hidden).  The write target is the same physical buffer after the swap
    exactly when visible and hidden screen coincide. *)
Theorem swapScreen_keeps_role (d : DotMatrix.t) :
  screen (swapScreen d) = screen d /\
  scr_vis (swapScreen d) = scr_hid d /\
  scr_hid (swapScreen d) = scr_vis d /\
  (scr_wrk d = scr_hid d ->
     scr_wrk (swapScreen d) = scr_hid (swapScreen d)) /\
  (scr_wrk d = scr_vis d ->
     scr_wrk (swapScreen d) = scr_vis (swapScreen d)) /\
  (scr_wrk d = scr_vis d \/ scr_wrk d = scr_hid d ->
     (scr_wrk (swapScreen d) = scr_wrk d <-> scr_vis d = scr_hid d)).
Proof.
  unfold swapScreen. cbv zeta. cbn [scr_vis scr_hid scr_wrk with_ptrs screen].
  destruct (Z.eqb_spec (scr_wrk d) (scr_hid d)) as [E | E];
    cbn [scr_vis scr_hid scr_wrk with_ptrs screen];
    repeat split; intros; try congruence;
    match goal with H : _ \/ _ |- _ => destruct H; congruence end.
Qed.

Lemma swapScreen_keeps_role_witness :
  scr_wrk (selectScreen HIDDEN (init true (power_on true)))
    = scr_hid (selectScreen HIDDEN (init true (power_on true))) /\
  scr_wrk (swapScreen (selectScreen HIDDEN (init true (power_on true))))
    = scr_hid (swapScreen (selectScreen HIDDEN (init true (power_on true)))).
Proof.
  split; [reflexivity |].
  refine (proj1 (proj2 (proj2 (proj2
            (swapScreen_keeps_role (selectScreen HIDDEN (init true (power_on true))))))) _).
  reflexivity.
Defined.

(** C8 as stated fails when the hidden screen is compiled in: writes go
    to the hidden buffer (index 16) before the swap and to the other
    physical buffer (index 0), now the hidden one, after it. *)
Lemma swapScreen_moves_write_target :
  scr_wrk (selectScreen HIDDEN (init true (power_on true))) = 16 /\
  scr_wrk (swapScreen (selectScreen HIDDEN (init true (power_on true)))) = 0 /\
  scr_wrk (swapScreen (selectScreen HIDDEN (init true (power_on true))))
    <> scr_wrk (selectScreen HIDDEN (init true (power_on true))).
Proof.
  split; [reflexivity |]. split; [reflexivity |].
  vm_compute. discriminate.
Qed.

(** ** Counting grains *)

Section TotalUpdate.

Variables f f' : Z * Z -> Z.

Lemma total_ext l :
  (forall p, In p l -> f' p = f p) -> total f' l = total f l.
Proof.
  induction l as [| q l IH]; intros H; [reflexivity |].
  cbn [total]. rewrite (H q) by (left; reflexivity).
  rewrite IH; [reflexivity |]. intros p Hp. apply H. right. exact Hp.
Qed.

(** A change of one summand changes the total by the difference. *)
Lemma total_update l p0 :
  NoDup l -> In p0 l ->
  (forall p, In p l -> p <> p0 -> f' p = f p) ->
  total f' l = total f l - f p0 + f' p0.
Proof.
  induction l as [| q l IH]; intros Hnd Hin H; [destruct Hin |].
  inversion Hnd as [| ? ? Hq Hl]; subst.
  rewrite list_elem_of_In in Hq.
  cbn [total]. destruct Hin as [-> | Hin].
  - rewrite (total_ext l); [lia |].
    intros p Hp. apply H; [right; exact Hp |].
    intros ->. contradiction.
  - rewrite IH; [| exact Hl | exact Hin |].
    + rewrite (H q); [lia | left; reflexivity |]. intros ->. contradiction.
    + intros p Hp. apply H. right. exact Hp.
Qed.

End TotalUpdate.

Lemma NoDup_cells : NoDup cells.
Proof. apply (bool_decide_eq_true_1 (NoDup cells)). vm_compute. reflexivity. Qed.

Lemma In_cells p : In p cells <-> 0 <= fst p < 16 /\ 0 <= snd p < 8.
Proof.
  unfold cells. rewrite in_flat_map. split.
  - intros (x & Hx & Hp). apply in_map_iff in Hp. destruct Hp as (y & <- & Hy).
    apply list_elem_of_In, elem_of_seqZ in Hx, Hy. cbn [fst snd].
    unfold DIM_X, DIM_Y, NUM_BLOCKS_X, NUM_BLOCKS_Y, COLS_PER_BLOCK, ROWS_PER_BLOCK in *. lia.
  - intros [Hx Hy]. destruct p as [x y]. cbn [fst snd] in *.
    exists x. split.
    + apply list_elem_of_In, elem_of_seqZ.
      unfold DIM_X, NUM_BLOCKS_X, COLS_PER_BLOCK. lia.
    + apply in_map_iff. exists y. split; [reflexivity |].
      apply list_elem_of_In, elem_of_seqZ.
      unfold DIM_Y, NUM_BLOCKS_Y, ROWS_PER_BLOCK. lia.
Qed.

Lemma display_ok_setPixel x y c d : display_ok d -> display_ok (setPixel x y c d).
Proof.
  intros Hd. unfold setPixel. cbv zeta.
  destruct (DIM_X <=? x); [exact Hd |].
  destruct (DIM_Y <=? y); [exact Hd |].
  destruct Hd as [[H0 H1] Hv].
  unfold display_ok, buffer_ok, store_lsb, store_msb, store.
  cbn [scr_wrk scr_vis screen with_screen].
  rewrite !length_insert. auto.
Qed.

(** Writing one pixel changes the number of grains on screen by what the
    pixel was and what it becomes. *)
Lemma grains_setPixel x y c d :
  display_ok d -> 0 <= x < 16 -> 0 <= y < 8 -> 0 <= c < 16 ->
  grains_on_screen (setPixel x y c d) =
    grains_on_screen d - lit (getPixel x y VISIBLE d) + lit c.
Proof.
  intros [Hb Hv] Hx Hy Hc. unfold grains_on_screen.
  rewrite (total_update (fun p => lit (getPixel (fst p) (snd p) VISIBLE d))
             (fun p => lit (getPixel (fst p) (snd p) VISIBLE (setPixel x y c d)))
             cells (x, y) NoDup_cells).
  - cbn [fst snd].
    rewrite (getPixel_setPixel x y c x y VISIBLE d) by (auto; lia).
    rewrite !Z.eqb_refl. reflexivity.
  - apply In_cells. cbn [fst snd]. lia.
  - intros [x' y'] Hp Hne. apply In_cells in Hp. cbn [fst snd] in *.
    rewrite (getPixel_setPixel x y c x' y' VISIBLE d) by (auto; lia).
    destruct (Z.eqb_spec x' x) as [-> | ?]; [| reflexivity].
    destruct (Z.eqb_spec y' y) as [-> | ?]; [| reflexivity].
    contradiction Hne. reflexivity.
Qed.

(** ** The sandglass on the display *)

Lemma get_pixel_in x y bulb g :
  0 <= x < 8 -> 0 <= y < 8 ->
  get_pixel x y bulb g =
    getPixel (fst (orient (gravity g) x y bulb)) (snd (orient (gravity g) x y bulb))
             VISIBLE (dm g).
Proof.
  intros Hx Hy. unfold get_pixel.
  replace (7 <? x) with false by (symmetry; apply Z.ltb_ge; lia).
  replace (7 <? y) with false by (symmetry; apply Z.ltb_ge; lia).
  cbn [orb]. destruct (orient (gravity g) x y bulb). reflexivity.
Qed.

Lemma get_pixel_out x y bulb g : 8 <= x \/ 8 <= y -> get_pixel x y bulb g = 255.
Proof.
  intros Ho. unfold get_pixel.
  destruct (Z.ltb_spec 7 x); [reflexivity |].
  destruct (Z.ltb_spec 7 y); [reflexivity | lia].
Qed.

Lemma set_pixel_in x y bulb c g :
  0 <= x < 8 -> 0 <= y < 8 ->
  set_pixel x y bulb c g =
    with_dm (setPixel (fst (orient (gravity g) x y bulb))
                      (snd (orient (gravity g) x y bulb)) c (dm g)) g.
Proof.
  intros Hx Hy. unfold set_pixel.
  replace (7 <? x) with false by (symmetry; apply Z.ltb_ge; lia).
  replace (7 <? y) with false by (symmetry; apply Z.ltb_ge; lia).
  cbn [orb]. destruct (orient (gravity g) x y bulb). reflexivity.
Qed.

(** [set_pixel] touches the display only. *)
Lemma set_pixel_frame x y bulb c g :
  gravity (set_pixel x y bulb c g) = gravity g /\
  rnd (set_pixel x y bulb c g) = rnd g /\
  side (set_pixel x y bulb c g) = side g /\
  static_counter (set_pixel x y bulb c g) = static_counter g.
Proof.
  unfold set_pixel. destruct ((7 <? x) || (7 <? y)); [auto |].
  destruct (orient (gravity g) x y bulb). auto.
Qed.

Lemma display_ok_set_pixel x y bulb c g :
  display_ok (dm g) -> display_ok (dm (set_pixel x y bulb c g)).
Proof.
  intros Hd. unfold set_pixel. destruct ((7 <? x) || (7 <? y)); [exact Hd |].
  destruct (orient (gravity g) x y bulb). cbn [dm with_dm].
  apply display_ok_setPixel, Hd.
Qed.

Lemma orient_range gv x y bulb :
  0 <= x < 8 -> 0 <= y < 8 ->
  0 <= fst (orient gv x y bulb) < 16 /\ 0 <= snd (orient gv x y bulb) < 8.
Proof.
  intros Hx Hy. apply (orient_physical gv x y bulb Hx Hy).
Qed.

(** Reading a cell of the bulb that was written. *)
Lemma get_pixel_set_pixel x y c x' y' bulb g :
  display_ok (dm g) ->
  0 <= x < 8 -> 0 <= y < 8 -> 0 <= x' < 8 -> 0 <= y' < 8 -> 0 <= c < 16 ->
  get_pixel x' y' bulb (set_pixel x y bulb c g) =
    if (x' =? x) && (y' =? y) then c else get_pixel x' y' bulb g.
Proof.
  intros [Hb Hv] Hx Hy Hx' Hy' Hc.
  rewrite (set_pixel_in x y bulb c g Hx Hy), !get_pixel_in by assumption.
  cbn [dm gravity with_dm].
  pose proof (orient_range (gravity g) x y bulb Hx Hy) as [Ho1 Ho2].
  pose proof (orient_range (gravity g) x' y' bulb Hx' Hy') as [Ho1' Ho2'].
  rewrite getPixel_setPixel by (auto; lia).
  destruct (Z.eqb_spec (fst (orient (gravity g) x' y' bulb)) (fst (orient (gravity g) x y bulb))) as [E1 | N1];
  destruct (Z.eqb_spec (snd (orient (gravity g) x' y' bulb)) (snd (orient (gravity g) x y bulb))) as [E2 | N2];
  cbn [andb].
  - destruct (orient_inj_bulb (gravity g) bulb x' y' x y Hx' Hy' Hx Hy) as [-> ->].
    { destruct (orient (gravity g) x' y' bulb), (orient (gravity g) x y bulb).
      cbn [fst snd] in E1, E2. congruence. }
    rewrite !Z.eqb_refl. reflexivity.
  - destruct (Z.eqb_spec x' x) as [-> | ?]; [| reflexivity].
    destruct (Z.eqb_spec y' y) as [-> | ?]; [| reflexivity]. contradiction.
  - destruct (Z.eqb_spec x' x) as [-> | ?]; [| reflexivity].
    destruct (Z.eqb_spec y' y) as [-> | ?]; [| reflexivity]. contradiction.
  - destruct (Z.eqb_spec x' x) as [-> | ?]; [| reflexivity].
    destruct (Z.eqb_spec y' y) as [-> | ?]; [| reflexivity]. contradiction.
Qed.

Lemma grains_set_pixel x y bulb c g :
  display_ok (dm g) -> 0 <= x < 8 -> 0 <= y < 8 -> 0 <= c < 16 ->
  grains (set_pixel x y bulb c g) = grains g - lit (get_pixel x y bulb g) + lit c.
Proof.
  intros Hd Hx Hy Hc. unfold grains.
  rewrite (set_pixel_in x y bulb c g Hx Hy), get_pixel_in by assumption.
  cbn [dm with_dm].
  pose proof (orient_range (gravity g) x y bulb Hx Hy) as [Ho1 Ho2].
  apply grains_setPixel; assumption.
Qed.

Lemma land7_range z : 0 <= Z.land z 7 < 8.
Proof.
  change 7 with (Z.ones 3). rewrite Z.land_ones by lia.
  apply Z.mod_pos_bound. reflexivity.
Qed.

Lemma move_grain_eq x1 y1 x2 y2 bulb g :
  move_grain x1 y1 x2 y2 bulb g =
    if get_pixel x2 y2 bulb g =? BLACK then (1, shift x1 y1 x2 y2 bulb g) else (0, g).
Proof. reflexivity. Qed.

Lemma get_pixel_with_side x y bulb v g :
  get_pixel x y bulb (with_side v g) = get_pixel x y bulb g.
Proof. reflexivity. Qed.

Lemma get_pixel_with_counter x y bulb v g :
  get_pixel x y bulb (with_counter v g) = get_pixel x y bulb g.
Proof. reflexivity. Qed.

(** The five ways through [simulate_grain], with the state each leaves. *)
Lemma simulate_grain_cases x0 y0 bulb g :
  let x := Z.land x0 7 in
  let y := Z.land y0 7 in
  let g1 := with_side (Z.lxor (side g) 1) g in
  let first := if truthy (side g) then (x + 1, y) else (x, y + 1) in
  let second := if truthy (side g) then (x, y + 1) else (x + 1, y) in
  let g' := snd (simulate_grain x0 y0 bulb g) in
  fst (simulate_grain x0 y0 bulb g) = static_counter g' /\
  ((get_pixel x y bulb g = BLACK /\
    g' = with_counter (u8 (static_counter g + 1)) g) \/
   (get_pixel x y bulb g <> BLACK /\
    get_pixel (x + 1) (y + 1) bulb g = BLACK /\
    g' = with_counter 0 (shift x y (x + 1) (y + 1) bulb g)) \/
   (get_pixel x y bulb g <> BLACK /\
    get_pixel (x + 1) (y + 1) bulb g <> BLACK /\
    get_pixel (fst first) (snd first) bulb g = BLACK /\
    g' = with_counter 0 (shift x y (fst first) (snd first) bulb g1)) \/
   (get_pixel x y bulb g <> BLACK /\
    get_pixel (x + 1) (y + 1) bulb g <> BLACK /\
    get_pixel (fst first) (snd first) bulb g <> BLACK /\
    get_pixel (fst second) (snd second) bulb g = BLACK /\
    g' = with_counter 0 (shift x y (fst second) (snd second) bulb g1)) \/
   (get_pixel x y bulb g <> BLACK /\
    get_pixel (x + 1) (y + 1) bulb g <> BLACK /\
    get_pixel (fst first) (snd first) bulb g <> BLACK /\
    get_pixel (fst second) (snd second) bulb g <> BLACK /\
    g' = set_pixel x y bulb YELLOW
           (with_counter (if bulb =? LOWER then u8 (static_counter g + 1) else 0) g1))).
Proof.
  intros x y g1 first second g'. subst g'.
  pose proof (land7_range x0) as Hx. pose proof (land7_range y0) as Hy.
  fold x in Hx. fold y in Hy.
  unfold simulate_grain. fold x. fold y. cbv zeta.
  rewrite (u8_small (x + 1)), (u8_small (y + 1)) by lia.
  destruct (Z.eqb_spec (get_pixel x y bulb g) BLACK) as [E0 | N0].
  { split; [reflexivity |]. left. split; [exact E0 | reflexivity]. }
  rewrite move_grain_eq.
  destruct (Z.eqb_spec (get_pixel (x + 1) (y + 1) bulb g) BLACK) as [E1 | N1].
  { split; [reflexivity |]. right. left. auto. }
  change (truthy 0) with false. cbv iota.
  subst first second.
  destruct (truthy (side g)); cbn [fst snd];
    rewrite move_grain_eq, get_pixel_with_side.
  - destruct (Z.eqb_spec (get_pixel (x + 1) y bulb g) BLACK) as [E2 | N2].
    { split; [reflexivity |]. right. right. left. auto. }
    change (truthy 0) with false. cbv iota.
    rewrite move_grain_eq, get_pixel_with_side.
    destruct (Z.eqb_spec (get_pixel x (y + 1) bulb g) BLACK) as [E3 | N3].
    { split; [reflexivity |]. right. right. right. left. auto. }
    change (truthy 0) with false. cbv iota.
    split; [reflexivity |]. right. right. right. right.
    repeat (split; [assumption |]). unfold at_rest.
    destruct (bulb =? LOWER); reflexivity.
  - destruct (Z.eqb_spec (get_pixel x (y + 1) bulb g) BLACK) as [E2 | N2].
    { split; [reflexivity |]. right. right. left. auto. }
    change (truthy 0) with false. cbv iota.
    rewrite move_grain_eq, get_pixel_with_side.
    destruct (Z.eqb_spec (get_pixel (x + 1) y bulb g) BLACK) as [E3 | N3].
    { split; [reflexivity |]. right. right. right. left. auto. }
    change (truthy 0) with false. cbv iota.
    split; [reflexivity |]. right. right. right. right.
    repeat (split; [assumption |]). unfold at_rest.
    destruct (bulb =? LOWER); reflexivity.
Qed.

(** ** Grain conservation *)

Lemma black_in_bulb x y bulb g :
  0 <= x -> 0 <= y -> get_pixel x y bulb g = BLACK -> 0 <= x < 8 /\ 0 <= y < 8.
Proof.
  intros Hx Hy E.
  assert (H : ~ (8 <= x \/ 8 <= y)).
  { intros Ho. rewrite (get_pixel_out x y bulb g Ho) in E. discriminate E. }
  lia.
Qed.

Lemma display_ok_shift x1 y1 x2 y2 bulb g :
  display_ok (dm g) -> display_ok (dm (shift x1 y1 x2 y2 bulb g)).
Proof. intros Hd. unfold shift. do 2 apply display_ok_set_pixel. exact Hd. Qed.

(** A grain moved to an empty cell: the source pixel leaves the count, one
    grain enters it. *)
Lemma grains_shift x1 y1 x2 y2 bulb g :
  display_ok (dm g) ->
  0 <= x1 < 8 -> 0 <= y1 < 8 -> 0 <= x2 -> 0 <= y2 ->
  x1 <> x2 \/ y1 <> y2 ->
  get_pixel x2 y2 bulb g = BLACK ->
  grains (shift x1 y1 x2 y2 bulb g) = grains g - lit (get_pixel x1 y1 bulb g) + 1.
Proof.
  intros Hd Hx1 Hy1 Hx2 Hy2 Hne E.
  destruct (black_in_bulb x2 y2 bulb g Hx2 Hy2 E) as [Hx2' Hy2'].
  unfold shift.
  rewrite grains_set_pixel;
    [| apply display_ok_set_pixel; exact Hd | assumption | assumption | unfold ORANGE; lia].
  rewrite get_pixel_set_pixel by (assumption || unfold BLACK; lia).
  rewrite grains_set_pixel by (assumption || unfold BLACK; lia).
  replace ((x2 =? x1) && (y2 =? y1)) with false.
  - rewrite E. change (lit BLACK) with 0. change (lit ORANGE) with 1. lia.
  - symmetry. apply andb_false_iff. rewrite !Z.eqb_neq. lia.
Qed.

Lemma lit_nonblack c : c <> BLACK -> lit c = 1.
Proof. intros H. unfold lit. destruct (Z.eqb_spec c BLACK); [contradiction | reflexivity]. Qed.

(** [simulate_grain] keeps the display well formed and the number of
    grains on it. *)
Lemma simulate_grain_conserves x0 y0 bulb g :
  display_ok (dm g) ->
  display_ok (dm (snd (simulate_grain x0 y0 bulb g))) /\
  grains (snd (simulate_grain x0 y0 bulb g)) = grains g.
Proof.
  intros Hd.
  pose proof (land7_range x0) as Hx. pose proof (land7_range y0) as Hy.
  destruct (simulate_grain_cases x0 y0 bulb g) as [_ H]. cbv zeta in H.
  destruct H as [(E0 & ->) | [(N0 & E1 & ->) | [(N0 & N1 & E2 & ->) | [(N0 & N1 & N2 & E3 & ->) | (N0 & N1 & N2 & N3 & ->)]]]].
  - split; [exact Hd | reflexivity].
  - split; [change (dm (with_counter 0 ?h)) with (dm h); apply display_ok_shift; exact Hd |].
    change (grains (with_counter 0 ?h)) with (grains h).
    rewrite grains_shift by (assumption || lia).
    rewrite lit_nonblack by exact N0. lia.
  - split; [change (dm (with_counter 0 ?h)) with (dm h); apply display_ok_shift; exact Hd |].
    change (grains (with_counter 0 ?h)) with (grains h).
    rewrite grains_shift; [ | exact Hd | lia | lia | | | | ].
    + rewrite get_pixel_with_side, lit_nonblack by exact N0.
      change (grains (with_side ?v g)) with (grains g). lia.
    + destruct (truthy (side g)); cbn [fst snd]; lia.
    + destruct (truthy (side g)); cbn [fst snd]; lia.
    + destruct (truthy (side g)); cbn [fst snd]; lia.
    + rewrite get_pixel_with_side. exact E2.
  - split; [change (dm (with_counter 0 ?h)) with (dm h); apply display_ok_shift; exact Hd |].
    change (grains (with_counter 0 ?h)) with (grains h).
    rewrite grains_shift; [ | exact Hd | lia | lia | | | | ].
    + rewrite get_pixel_with_side, lit_nonblack by exact N0.
      change (grains (with_side ?v g)) with (grains g). lia.
    + destruct (truthy (side g)); cbn [fst snd]; lia.
    + destruct (truthy (side g)); cbn [fst snd]; lia.
    + destruct (truthy (side g)); cbn [fst snd]; lia.
    + rewrite get_pixel_with_side. exact E3.
  - split; [apply display_ok_set_pixel; exact Hd |].
    rewrite grains_set_pixel; [ | exact Hd | lia | lia | unfold YELLOW; lia].
    rewrite get_pixel_with_counter, get_pixel_with_side, lit_nonblack by exact N0.
    change (lit YELLOW) with 1.
    change (grains (with_counter ?v (with_side ?w g))) with (grains g). lia.
Qed.

(** [drop] keeps the display well formed and the number of grains on it. *)
Lemma drop_conserves g :
  display_ok (dm g) -> display_ok (dm (drop g)) /\ grains (drop g) = grains g.
Proof.
  intros Hd. unfold drop.
  destruct (Z.eqb_spec (get_pixel 7 7 UPPER g) BLACK) as [E | N]; [auto |].
  destruct (Z.eqb_spec (get_pixel 0 0 LOWER g) BLACK) as [E0 | N0]; [| auto].
  split; [do 2 apply display_ok_set_pixel; exact Hd |].
  rewrite grains_set_pixel;
    [| apply display_ok_set_pixel; exact Hd | lia | lia | unfold ORANGE; lia].
  rewrite grains_set_pixel by (assumption || unfold BLACK; lia).
  assert (E1 : get_pixel 0 0 LOWER (set_pixel 7 7 UPPER BLACK g) = BLACK).
  { rewrite get_pixel_in in E0 |- * by lia.
    rewrite (set_pixel_in 7 7 UPPER BLACK g) by lia. cbn [dm gravity with_dm].
    destruct Hd as [Hb Hv].
    pose proof (orient_range (gravity g) 7 7 UPPER ltac:(lia) ltac:(lia)) as [? ?].
    pose proof (orient_range (gravity g) 0 0 LOWER ltac:(lia) ltac:(lia)) as [? ?].
    rewrite getPixel_setPixel by (auto; unfold BLACK; lia).
    rewrite E0. destruct (_ && _); reflexivity. }
  rewrite E1, lit_nonblack by exact N.
  change (lit BLACK) with 0. change (lit ORANGE) with 1. lia.
Qed.

Lemma clear_from_frame n : forall i d,
  scr_wrk (clear_from n i d) = scr_wrk d /\
  scr_vis (clear_from n i d) = scr_vis d /\
  length (screen (clear_from n i d)) = length (screen d).
Proof.
  induction n as [| n IH]; intros i d; [auto |].
  cbn [clear_from].
  destruct (IH (i + 1) (store_lsb (scr_wrk (store_msb (scr_wrk d) i 0 d)) i 0
                          (store_msb (scr_wrk d) i 0 d))) as (E1 & E2 & E3).
  rewrite E1, E2, E3. unfold store_lsb, store_msb, store.
  cbn [scr_wrk scr_vis screen with_screen]. rewrite !length_insert. auto.
Qed.

Lemma clear_from_load n : forall i d j,
  0 <= scr_wrk d -> 0 <= i -> 0 <= j ->
  scr_wrk d + i + Z.of_nat n <= Z.of_nat (length (screen d)) ->
  load (clear_from n i d) (scr_wrk d) j =
    if (i <=? j) && (j <? i + Z.of_nat n) then pixcol_zero else load d (scr_wrk d) j.
Proof.
  induction n as [| n IH]; intros i d j Hp Hi Hj Hlen.
  - cbn [clear_from]. replace ((i <=? j) && (j <? i + Z.of_nat 0)) with false; [reflexivity |].
    symmetry. apply andb_false_iff. rewrite Z.leb_gt, Z.ltb_ge. lia.
  - cbn [clear_from].
    set (d1 := store_lsb (scr_wrk (store_msb (scr_wrk d) i 0 d)) i 0
                 (store_msb (scr_wrk d) i 0 d)).
    assert (Ew : scr_wrk d1 = scr_wrk d) by reflexivity.
    assert (El : length (screen d1) = length (screen d)).
    { unfold d1, store_lsb, store_msb, store. cbn [screen with_screen scr_wrk].
      rewrite !length_insert. reflexivity. }
    rewrite <- Ew. rewrite IH by (rewrite ?Ew, ?El; lia). rewrite Ew.
    assert (Hin : (Z.to_nat (scr_wrk d + i) < length (screen d))%nat) by lia.
    destruct (Z.eqb_spec i j) as [<- | Hne].
    + replace ((i + 1 <=? i) && (i <? i + 1 + Z.of_nat n)) with false
        by (symmetry; apply andb_false_iff; rewrite Z.leb_gt; lia).
      replace ((i <=? i) && (i <? i + Z.of_nat (S n))) with true
        by (symmetry; apply andb_true_iff; rewrite Z.leb_le, Z.ltb_lt; lia).
      unfold d1, store_lsb, store_msb.
      change (scr_wrk (store ?p ?k ?pc d)) with (scr_wrk d).
      rewrite load_store_eq.
      * rewrite load_store_eq by exact Hin. reflexivity.
      * unfold store. cbn [screen with_screen]. rewrite length_insert. exact Hin.
    + replace ((i <=? j) && (j <? i + Z.of_nat (S n)))
        with ((i + 1 <=? j) && (j <? i + 1 + Z.of_nat n)).
      * destruct ((i + 1 <=? j) && (j <? i + 1 + Z.of_nat n)); [reflexivity |].
        unfold d1, store_lsb, store_msb.
        change (scr_wrk (store ?p ?k ?pc d)) with (scr_wrk d).
        rewrite !load_store_ne by lia. reflexivity.
      * destruct (Z.leb_spec (i + 1) j), (Z.leb_spec i j),
          (Z.ltb_spec j (i + 1 + Z.of_nat n)), (Z.ltb_spec j (i + Z.of_nat (S n)));
          try reflexivity; lia.
Qed.

Lemma color_at_zero y : color_at pixcol_zero y = 0.
Proof. unfold color_at. cbn [lsb msb pixcol_zero]. rewrite !Z.bits_0. reflexivity. Qed.

Lemma display_ok_clearScreen d : display_ok d -> display_ok (clearScreen d).
Proof.
  intros [[H0 H1] Hv]. unfold clearScreen, display_ok, buffer_ok.
  destruct (clear_from_frame (Z.to_nat NUM_PIXCOLS) 0 d) as (E1 & E2 & E3).
  rewrite E1, E2, E3. auto.
Qed.

Lemma getPixel_clearScreen x y d :
  display_ok d -> 0 <= x < 16 -> 0 <= y < 8 ->
  getPixel x y VISIBLE (clearScreen d) = BLACK.
Proof.
  intros [[H0 H1] Hv] Hx Hy.
  rewrite getPixel_in_range by (auto; lia).
  unfold selected. cbn [Z.eqb VISIBLE]. unfold clearScreen.
  destruct (clear_from_frame (Z.to_nat NUM_PIXCOLS) 0 d) as (E1 & E2 & E3).
  rewrite E2, Hv.
  unfold NUM_PIXCOLS, NUM_BLOCKS, NUM_BLOCKS_X, NUM_BLOCKS_Y, COLS_PER_BLOCK in *.
  rewrite clear_from_load by lia.
  replace ((0 <=? x) && (x <? 0 + Z.of_nat (Z.to_nat (2 * 1 * 8)))) with true
    by (symmetry; apply andb_true_iff; rewrite Z.leb_le, Z.ltb_lt; lia).
  apply color_at_zero.
Qed.

Lemma total_zero l : total (fun _ => 0) l = 0.
Proof. induction l as [| p l IH]; [reflexivity |]. cbn [total]. rewrite IH. reflexivity. Qed.

Lemma total_nonneg f l : (forall p, 0 <= f p) -> 0 <= total f l.
Proof.
  intros H. induction l as [| p l IH]; cbn [total]; [lia |].
  pose proof (H p). lia.
Qed.

Lemma grains_nonneg g : 0 <= grains g.
Proof.
  unfold grains, grains_on_screen. apply total_nonneg.
  intros p. unfold lit. destruct (_ =? _); lia.
Qed.

Lemma grains_clearScreen g :
  display_ok (dm g) -> grains (with_dm (clearScreen (dm g)) g) = 0.
Proof.
  intros Hd. unfold grains, grains_on_screen. cbn [dm with_dm].
  rewrite (total_ext (fun _ => 0)); [apply total_zero |].
  intros p Hp. apply In_cells in Hp.
  rewrite getPixel_clearScreen by (assumption || lia). reflexivity.
Qed.

Lemma perform_conserves c g :
  display_ok (dm g) ->
  display_ok (dm (perform c g)) /\ grains (perform c g) = grains g.
Proof.
  intros Hd. destruct c as [| x y bulb]; cbn [perform].
  - apply drop_conserves, Hd.
  - apply simulate_grain_conserves, Hd.
Qed.

Lemma perform_all_conserves cs : forall g,
  display_ok (dm g) ->
  display_ok (dm (perform_all cs g)) /\ grains (perform_all cs g) = grains g.
Proof.
  induction cs as [| c cs IH]; intros g Hd; [auto |].
  unfold perform_all. cbn [fold_left]. fold (perform_all cs (perform c g)).
  destruct (perform_conserves c g Hd) as [Hd1 E1].
  destruct (IH _ Hd1) as [Hd2 E2]. split; [exact Hd2 | congruence].
Qed.

Lemma timed_drop_conserves t m :
  display_ok (dm (glob m)) ->
  display_ok (dm (glob (timed_drop t m))) /\
  grains (glob (timed_drop t m)) = grains (glob m).
Proof.
  intros Hd. unfold timed_drop.
  destruct (drop_cycle m <=? u16 (t - last_drop m)); [| auto].
  cbn [glob with_glob with_last_drop]. apply drop_conserves, Hd.
Qed.

(** A pass through the RUN block never adds a grain: the count is kept,
    or the alarm clears the screen. *)
Lemma main_run_no_gain t m :
  display_ok (dm (glob m)) ->
  display_ok (dm (glob (main_run t m))) /\
  grains (glob (main_run t m)) <= grains (glob m).
Proof.
  intros Hd. unfold main_run.
  destruct (mode m =? RUN); [| split; [exact Hd | lia]].
  destruct (timed_drop_conserves t m Hd) as [Hd1 E1].
  destruct (random 0 (rnd (glob (timed_drop t m)))) as [r rnd'].
  pose proof (simulate_grain_conserves (Z.shiftr r 1) (Z.shiftr r 4) (Z.land r 1)
                (with_rnd rnd' (glob (timed_drop t m))) Hd1) as [Hd2 E2].
  destruct (simulate_grain (Z.shiftr r 1) (Z.shiftr r 4) (Z.land r 1)
              (with_rnd rnd' (glob (timed_drop t m)))) as [res g2].
  cbn [snd] in Hd2, E2.
  change (grains (with_rnd rnd' ?h)) with (grains h) in E2.
  destruct (255 =? res); cbn [glob with_glob with_mode].
  - unfold alarm_signal. split.
    + cbn [dm with_dm]. apply display_ok_clearScreen, Hd2.
    + rewrite grains_clearScreen by exact Hd2.
      rewrite <- E1. apply grains_nonneg.
  - split; [exact Hd2 | lia].
Qed.

Lemma run_no_gain timers : forall m,
  display_ok (dm (glob m)) ->
  display_ok (dm (glob (run timers m))) /\
  grains (glob (run timers m)) <= grains (glob m).
Proof.
  induction timers as [| t ts IH]; intros m Hd; [split; [exact Hd | apply Z.le_refl] |].
  unfold run. cbn [fold_left]. fold (run ts (main_run t m)).
  destruct (main_run_no_gain t m Hd) as [Hd1 L1].
  destruct (IH _ Hd1) as [Hd2 L2]. split; [exact Hd2 | lia].
Qed.

Lemma In_bulb_cells p : In p bulb_cells <-> 0 <= fst p < 8 /\ 0 <= snd p < 8.
Proof.
  unfold bulb_cells. rewrite in_flat_map. split.
  - intros (x & Hx & Hp). apply in_map_iff in Hp. destruct Hp as (y & <- & Hy).
    apply list_elem_of_In, elem_of_seqZ in Hx, Hy. cbn [fst snd]. lia.
  - intros [Hx Hy]. destruct p as [x y]. cbn [fst snd] in *.
    exists x. split.
    + apply list_elem_of_In, elem_of_seqZ. lia.
    + apply in_map_iff. exists y. split; [reflexivity |].
      apply list_elem_of_In, elem_of_seqZ. lia.
Qed.

Lemma boot_state gv cycle t0 :
  gv = DOWN \/ gv = UP ->
  display_ok (dm (glob (boot gv cycle t0))) /\
  forallb (filled (glob (boot gv cycle t0))) bulb_cells = true /\
  grains_in UPPER (glob (boot gv cycle t0)) = GRAINS_TOTAL /\
  grains_in LOWER (glob (boot gv cycle t0)) = 0 /\
  grains (glob (boot gv cycle t0)) = GRAINS_TOTAL.
Proof.
  intros [-> | ->].
  - split; [| repeat split; vm_compute; reflexivity].
    split; [split |]; vm_compute; congruence.
  - split; [| repeat split; vm_compute; reflexivity].
    split; [split |]; vm_compute; congruence.
Qed.

(** C9: a freshly reset glass holds grains exactly in the 54 cells of the
    upper bulb with [x + y > 3] and none in the lower bulb, and from there
    no call of [drop] or [simulate_grain], and no pass through the RUN
    block, ever leaves more non-black pixels on screen than before. *)
Theorem grain_conservation (gv cycle t0 : Z) (cs : list call) (c : call)
    (timers : list Z) (t : Z) :
  gv = DOWN \/ gv = UP ->
  (forall x y, 0 <= x < 8 -> 0 <= y < 8 ->
     get_pixel x y UPPER (glob (boot gv cycle t0))
       = (if 3 <? x + y then YELLOW else BLACK) /\
     get_pixel x y LOWER (glob (boot gv cycle t0)) = BLACK) /\
  grains_in UPPER (glob (boot gv cycle t0)) = GRAINS_TOTAL /\
  grains_in LOWER (glob (boot gv cycle t0)) = 0 /\
  grains (glob (boot gv cycle t0)) = GRAINS_TOTAL /\
  grains (perform c (perform_all cs (glob (boot gv cycle t0))))
    <= grains (perform_all cs (glob (boot gv cycle t0))) <= GRAINS_TOTAL /\
  grains (glob (main_run t (run timers (boot gv cycle t0))))
    <= grains (glob (run timers (boot gv cycle t0))) <= GRAINS_TOTAL.
Proof.
  intros Hg.
  destruct (boot_state gv cycle t0 Hg) as (Hd & Hf & Hu & Hl & Ht).
  split; [| split; [exact Hu | split; [exact Hl | split; [exact Ht | split]]]].
  - intros x y Hx Hy. rewrite forallb_forall in Hf.
    specialize (Hf (x, y)). unfold filled in Hf. cbn [fst snd] in Hf.
    apply andb_prop in Hf; [| apply In_bulb_cells; cbn [fst snd]; lia].
    destruct Hf as [H1 H2]. apply Z.eqb_eq in H1, H2. auto.
  - destruct (perform_all_conserves cs _ Hd) as [Hd1 E1].
    destruct (perform_conserves c _ Hd1) as [_ E2]. lia.
  - change (glob (boot gv cycle t0)) with (glob (boot gv cycle t0)) in Hd.
    destruct (run_no_gain timers _ Hd) as [Hd1 L1].
    destruct (main_run_no_gain t _ Hd1) as [_ L2]. lia.
Qed.

Lemma grain_conservation_witness :
  (DOWN = DOWN \/ DOWN = UP) /\
  grains (perform (Simulate 6 6 UPPER) (perform_all [Drop] (glob (boot DOWN 463 0))))
    <= grains (perform_all [Drop] (glob (boot DOWN 463 0))) <= GRAINS_TOTAL.
Proof.
  split; [left; reflexivity |].
  refine (proj1 (proj2 (proj2 (proj2 (proj2
    (grain_conservation DOWN 463 0 [Drop] (Simulate 6 6 UPPER) [] 0 _)))))).
  left. reflexivity.
Defined.

(** ** The relaxation step *)

Lemma same_except_set_pixel x y bulb c g :
  display_ok (dm g) -> 0 <= x < 8 -> 0 <= y < 8 -> 0 <= c < 16 ->
  same_except [orient (gravity g) x y bulb] g (set_pixel x y bulb c g).
Proof.
  intros [Hb Hv] Hx Hy Hc [px py] [Hpx Hpy] Hn.
  unfold DIM_X, DIM_Y, NUM_BLOCKS_X, NUM_BLOCKS_Y, COLS_PER_BLOCK, ROWS_PER_BLOCK in Hpx, Hpy.
  cbn [fst snd] in *.
  rewrite (set_pixel_in x y bulb c g Hx Hy). cbn [dm with_dm].
  pose proof (orient_range (gravity g) x y bulb Hx Hy) as [Ho1 Ho2].
  rewrite getPixel_setPixel by (auto; lia).
  destruct (Z.eqb_spec px (fst (orient (gravity g) x y bulb))) as [E1 | ?]; [| reflexivity].
  destruct (Z.eqb_spec py (snd (orient (gravity g) x y bulb))) as [E2 | ?]; [| reflexivity].
  exfalso. apply Hn. left.
  destruct (orient (gravity g) x y bulb). cbn [fst snd] in *. congruence.
Qed.

Lemma set_pixel_recolors x y bulb c g :
  display_ok (dm g) -> 0 <= x < 8 -> 0 <= y < 8 -> 0 <= c < 16 ->
  recolored x y bulb c g (set_pixel x y bulb c g).
Proof.
  intros Hd Hx Hy Hc. split.
  - rewrite get_pixel_set_pixel by assumption. rewrite !Z.eqb_refl. reflexivity.
  - apply same_except_set_pixel; assumption.
Qed.

Lemma shift_moves x1 y1 x2 y2 bulb g :
  display_ok (dm g) ->
  0 <= x1 < 8 -> 0 <= y1 < 8 -> 0 <= x2 < 8 -> 0 <= y2 < 8 ->
  x1 <> x2 \/ y1 <> y2 ->
  grain_moved x1 y1 x2 y2 bulb g (shift x1 y1 x2 y2 bulb g).
Proof.
  intros Hd Hx1 Hy1 Hx2 Hy2 Hne.
  pose proof (display_ok_set_pixel x1 y1 bulb BLACK g Hd) as Hd1.
  assert (H0 : 0 <= BLACK < 16) by (unfold BLACK; lia).
  assert (H15 : 0 <= ORANGE < 16) by (unfold ORANGE; lia).
  unfold grain_moved, shift. split; [| split].
  - rewrite get_pixel_set_pixel by assumption.
    replace ((x1 =? x2) && (y1 =? y2)) with false
      by (symmetry; apply andb_false_iff; rewrite !Z.eqb_neq; lia).
    rewrite get_pixel_set_pixel by assumption. rewrite !Z.eqb_refl. reflexivity.
  - rewrite get_pixel_set_pixel by assumption. rewrite !Z.eqb_refl. reflexivity.
  - intros p Hp Hn.
    pose proof (same_except_set_pixel x2 y2 bulb ORANGE _ Hd1 Hx2 Hy2 H15 p Hp) as S2.
    pose proof (same_except_set_pixel x1 y1 bulb BLACK g Hd Hx1 Hy1 H0 p Hp) as S1.
    destruct (set_pixel_frame x1 y1 bulb BLACK g) as (Eg & _).
    rewrite Eg in S2. rewrite S2, S1; [reflexivity | |].
    + intros [E | []]. apply Hn. left. exact E.
    + intros [E | []]. apply Hn. right. left. exact E.
Qed.

Lemma shift_frame x1 y1 x2 y2 bulb g :
  gravity (shift x1 y1 x2 y2 bulb g) = gravity g /\
  rnd (shift x1 y1 x2 y2 bulb g) = rnd g /\
  side (shift x1 y1 x2 y2 bulb g) = side g /\
  static_counter (shift x1 y1 x2 y2 bulb g) = static_counter g.
Proof.
  unfold shift.
  destruct (set_pixel_frame x2 y2 bulb ORANGE (set_pixel x1 y1 bulb BLACK g))
    as (A1 & A2 & A3 & A4).
  destruct (set_pixel_frame x1 y1 bulb BLACK g) as (B1 & B2 & B3 & B4).
  repeat split; congruence.
Qed.

(** C2, as amended: on the cell masked into the bulb [simulate_grain]
    follows the rules in order (empty cell: counter up by one, 8 bits wide,
    nothing moves; diagonal target empty: grain moves there, counter 0;
    else the two axis-aligned targets in the order the flag selects, first
    empty one taken, counter 0; else the grain turns yellow and the counter
    goes up by one in the lower bulb and to 0 in the upper one), and the
    flag is toggled by exactly the calls that reach the axis-aligned moves.
    The value returned is the counter; gravity and the random register are
    untouched. *)
Theorem simulate_grain_rules (x0 y0 bulb : Z) (g : globals) :
  display_ok (dm g) ->
  0 <= Z.land x0 7 < 8 /\ 0 <= Z.land y0 7 < 8 /\
  relaxation false (Z.land x0 7) (Z.land y0 7) bulb g
             (snd (simulate_grain x0 y0 bulb g)) /\
  fst (simulate_grain x0 y0 bulb g) = static_counter (snd (simulate_grain x0 y0 bulb g)) /\
  gravity (snd (simulate_grain x0 y0 bulb g)) = gravity g /\
  rnd (snd (simulate_grain x0 y0 bulb g)) = rnd g.
Proof.
  intros Hd.
  pose proof (land7_range x0) as Hx. pose proof (land7_range y0) as Hy.
  split; [exact Hx |]. split; [exact Hy |].
  destruct (simulate_grain_cases x0 y0 bulb g) as [Hret H]. cbv zeta in H.
  fold (preferred (side g) (Z.land x0 7) (Z.land y0 7)) in H.
  fold (fallback (side g) (Z.land x0 7) (Z.land y0 7)) in H.
  split; [| split; [exact Hret |]].
  - destruct H as [(E0 & E) | [(N0 & E1 & E) | [(N0 & N1 & E2 & E) | [(N0 & N1 & N2 & E3 & E) | (N0 & N1 & N2 & N3 & E)]]]];
      rewrite E.
    + apply rule_empty; [exact E0 | reflexivity | reflexivity | reflexivity].
    + destruct (black_in_bulb (Z.land x0 7 + 1) (Z.land y0 7 + 1) bulb g
                  ltac:(lia) ltac:(lia) E1) as [Hx2 Hy2].
      apply rule_diagonal; [exact N0 | exact E1 | | reflexivity |].
      * apply (shift_moves _ _ _ _ bulb g Hd); (assumption || lia).
      * destruct (set_pixel_frame (Z.land x0 7 + 1) (Z.land y0 7 + 1) bulb ORANGE
                    (set_pixel (Z.land x0 7) (Z.land y0 7) bulb BLACK g)) as (_ & _ & S2 & _).
        destruct (set_pixel_frame (Z.land x0 7) (Z.land y0 7) bulb BLACK g) as (_ & _ & S1 & _).
        unfold shift. cbn [side with_counter]. rewrite S2, S1. reflexivity.
    + assert (P : 0 <= fst (preferred (side g) (Z.land x0 7) (Z.land y0 7)) /\
                  0 <= snd (preferred (side g) (Z.land x0 7) (Z.land y0 7)) /\
                  (Z.land x0 7 <> fst (preferred (side g) (Z.land x0 7) (Z.land y0 7)) \/
                   Z.land y0 7 <> snd (preferred (side g) (Z.land x0 7) (Z.land y0 7)))).
      { unfold preferred. destruct (truthy (side g)); cbn [fst snd]; lia. }
      destruct P as (P1 & P2 & P3).
      destruct (black_in_bulb _ _ bulb g P1 P2 E2) as [Hx2 Hy2].
      apply rule_preferred; [exact N0 | exact N1 | exact E2 | | reflexivity |].
      * apply (shift_moves _ _ _ _ bulb (with_side (Z.lxor (side g) 1) g) Hd); assumption.
      * destruct (set_pixel_frame (fst (preferred (side g) (Z.land x0 7) (Z.land y0 7)))
                    (snd (preferred (side g) (Z.land x0 7) (Z.land y0 7))) bulb ORANGE
                    (set_pixel (Z.land x0 7) (Z.land y0 7) bulb BLACK
                       (with_side (Z.lxor (side g) 1) g))) as (_ & _ & S2 & _).
        destruct (set_pixel_frame (Z.land x0 7) (Z.land y0 7) bulb BLACK
                    (with_side (Z.lxor (side g) 1) g)) as (_ & _ & S1 & _).
        unfold shift. cbn [side with_counter]. rewrite S2, S1. reflexivity.
    + assert (P : 0 <= fst (fallback (side g) (Z.land x0 7) (Z.land y0 7)) /\
                  0 <= snd (fallback (side g) (Z.land x0 7) (Z.land y0 7)) /\
                  (Z.land x0 7 <> fst (fallback (side g) (Z.land x0 7) (Z.land y0 7)) \/
                   Z.land y0 7 <> snd (fallback (side g) (Z.land x0 7) (Z.land y0 7)))).
      { unfold fallback. destruct (truthy (side g)); cbn [fst snd]; lia. }
      destruct P as (P1 & P2 & P3).
      destruct (black_in_bulb _ _ bulb g P1 P2 E3) as [Hx2 Hy2].
      apply rule_fallback; [exact N0 | exact N1 | exact N2 | exact E3 | | reflexivity |].
      * apply (shift_moves _ _ _ _ bulb (with_side (Z.lxor (side g) 1) g) Hd); assumption.
      * destruct (set_pixel_frame (fst (fallback (side g) (Z.land x0 7) (Z.land y0 7)))
                    (snd (fallback (side g) (Z.land x0 7) (Z.land y0 7))) bulb ORANGE
                    (set_pixel (Z.land x0 7) (Z.land y0 7) bulb BLACK
                       (with_side (Z.lxor (side g) 1) g))) as (_ & _ & S2 & _).
        destruct (set_pixel_frame (Z.land x0 7) (Z.land y0 7) bulb BLACK
                    (with_side (Z.lxor (side g) 1) g)) as (_ & _ & S1 & _).
        unfold shift. cbn [side with_counter]. rewrite S2, S1. reflexivity.
    + destruct (set_pixel_frame (Z.land x0 7) (Z.land y0 7) bulb YELLOW
                  (with_counter (if bulb =? LOWER then u8 (static_counter g + 1) else 0)
                     (with_side (Z.lxor (side g) 1) g))) as (_ & _ & S1 & C1).
      apply rule_settle; [exact N0 | exact N1 | exact N2 | exact N3 | | | |].
      * apply (set_pixel_recolors _ _ bulb YELLOW
                 (with_counter (if bulb =? LOWER then u8 (static_counter g + 1) else 0)
                    (with_side (Z.lxor (side g) 1) g)) Hd); (assumption || unfold YELLOW; lia).
      * intros ->. rewrite C1. reflexivity.
      * intros ->. rewrite C1. reflexivity.
      * rewrite S1. reflexivity.
  - destruct H as [(E0 & E) | [(N0 & E1 & E) | [(N0 & N1 & E2 & E) | [(N0 & N1 & N2 & E3 & E) | (N0 & N1 & N2 & N3 & E)]]]];
      rewrite E; cbn [gravity rnd with_counter].
    + auto.
    + destruct (shift_frame (Z.land x0 7) (Z.land y0 7) (Z.land x0 7 + 1) (Z.land y0 7 + 1)
                  bulb g) as (F1 & F2 & _). auto.
    + destruct (shift_frame (Z.land x0 7) (Z.land y0 7)
                  (fst (preferred (side g) (Z.land x0 7) (Z.land y0 7)))
                  (snd (preferred (side g) (Z.land x0 7) (Z.land y0 7)))
                  bulb (with_side (Z.lxor (side g) 1) g)) as (F1 & F2 & _). auto.
    + destruct (shift_frame (Z.land x0 7) (Z.land y0 7)
                  (fst (fallback (side g) (Z.land x0 7) (Z.land y0 7)))
                  (snd (fallback (side g) (Z.land x0 7) (Z.land y0 7)))
                  bulb (with_side (Z.lxor (side g) 1) g)) as (F1 & F2 & _). auto.
    + destruct (set_pixel_frame (Z.land x0 7) (Z.land y0 7) bulb YELLOW
                  (with_counter (if bulb =? LOWER then u8 (static_counter g + 1) else 0)
                     (with_side (Z.lxor (side g) 1) g))) as (F1 & F2 & _). auto.
Qed.

Lemma simulate_grain_rules_witness :
  display_ok (dm (glob (boot DOWN 463 0))) /\
  relaxation false (Z.land 0 7) (Z.land 7 7) UPPER (glob (boot DOWN 463 0))
             (snd (simulate_grain 0 7 UPPER (glob (boot DOWN 463 0)))).
Proof.
  assert (Hd : display_ok (dm (glob (boot DOWN 463 0)))).
  { split; [split |]; vm_compute; congruence. }
  split; [exact Hd |].
  exact (proj1 (proj2 (proj2
           (simulate_grain_rules 0 7 UPPER (glob (boot DOWN 463 0)) Hd)))).
Defined.

(** C2 as stated fails: a call that samples an empty cell leaves the
    flag as it was, so the preferred order does not alternate on every
    call.  Here the freshly reset glass is asked about cell (0, 0) of the
    lower bulb. *)
Lemma simulate_grain_keeps_flag_on_empty_cell :
  get_pixel 0 0 LOWER (glob (boot DOWN 463 0)) = BLACK /\
  side (glob (boot DOWN 463 0)) = 0 /\
  side (snd (simulate_grain 0 0 LOWER (glob (boot DOWN 463 0)))) = 0 /\
  ~ relaxation true (Z.land 0 7) (Z.land 0 7) LOWER (glob (boot DOWN 463 0))
      (snd (simulate_grain 0 0 LOWER (glob (boot DOWN 463 0)))).
Proof.
  assert (E : get_pixel 0 0 LOWER (glob (boot DOWN 463 0)) = BLACK)
    by (vm_compute; reflexivity).
  split; [exact E |]. split; [reflexivity |]. split; [vm_compute; reflexivity |].
  intros H. destruct H as [_ _ _ Hs | N _ _ _ _ | N _ _ _ _ _ | N _ _ _ _ _ _ | N _ _ _ _ _ _ _];
    try (apply N; exact E).
  vm_compute in Hs. discriminate Hs.
Qed.

(** ** Timed transfer *)

Lemma exit_entry_distinct gv : orient gv 7 7 UPPER <> orient gv 0 0 LOWER.
Proof.
  rewrite !orient_arith by lia. intros E. injection E as E1 E2.
  destruct (gv =? UP), (truthy (Z.lxor UPPER gv)), (truthy (Z.lxor LOWER gv)); lia.
Qed.

(** Reading a cell after a write to a cell that lies elsewhere on the
    screen, possibly in the other bulb. *)
Lemma get_pixel_set_pixel_other x y bulb c x' y' bulb' g :
  display_ok (dm g) ->
  0 <= x < 8 -> 0 <= y < 8 -> 0 <= x' < 8 -> 0 <= y' < 8 -> 0 <= c < 16 ->
  orient (gravity g) x' y' bulb' <> orient (gravity g) x y bulb ->
  get_pixel x' y' bulb' (set_pixel x y bulb c g) = get_pixel x' y' bulb' g.
Proof.
  intros Hd Hx Hy Hx' Hy' Hc Hne.
  rewrite !get_pixel_in by assumption.
  destruct (set_pixel_frame x y bulb c g) as (Eg & _). rewrite Eg.
  apply (same_except_set_pixel x y bulb c g Hd Hx Hy Hc
           (orient (gravity g) x' y' bulb')).
  - apply orient_physical; assumption.
  - intros [E | []]. apply Hne. symmetry. exact E.
Qed.

(** What a transfer does to the screen. *)
Lemma drop_moves g :
  display_ok (dm g) ->
  get_pixel 7 7 UPPER g <> BLACK -> get_pixel 0 0 LOWER g = BLACK ->
  get_pixel 7 7 UPPER (drop g) = BLACK /\
  get_pixel 0 0 LOWER (drop g) = ORANGE /\
  same_except [orient (gravity g) 7 7 UPPER; orient (gravity g) 0 0 LOWER] g (drop g).
Proof.
  intros Hd N E. unfold drop.
  destruct (Z.eqb_spec (get_pixel 7 7 UPPER g) BLACK) as [? | _]; [contradiction |].
  rewrite E. change (BLACK =? BLACK) with true. cbv iota.
  pose proof (display_ok_set_pixel 7 7 UPPER BLACK g Hd) as Hd1.
  destruct (set_pixel_frame 7 7 UPPER BLACK g) as (Eg & _).
  assert (H0 : 0 <= BLACK < 16) by (unfold BLACK; lia).
  assert (H15 : 0 <= ORANGE < 16) by (unfold ORANGE; lia).
  split; [| split].
  - rewrite get_pixel_set_pixel_other; try (assumption || lia).
    + rewrite get_pixel_set_pixel by (assumption || lia). reflexivity.
    + rewrite Eg. apply exit_entry_distinct.
  - rewrite get_pixel_set_pixel by (assumption || lia). reflexivity.
  - intros p Hp Hn.
    pose proof (same_except_set_pixel 0 0 LOWER ORANGE _ Hd1 ltac:(lia) ltac:(lia) H15 p Hp) as S2.
    pose proof (same_except_set_pixel 7 7 UPPER BLACK g Hd ltac:(lia) ltac:(lia) H0 p Hp) as S1.
    rewrite Eg in S2. rewrite S2, S1; [reflexivity | |].
    + intros [F | []]. apply Hn. left. exact F.
    + intros [F | []]. apply Hn. right. left. exact F.
Qed.

Lemma drop_blocked g :
  get_pixel 0 0 LOWER g <> BLACK \/ get_pixel 7 7 UPPER g = BLACK -> drop g = g.
Proof.
  intros H. unfold drop.
  destruct (Z.eqb_spec (get_pixel 7 7 UPPER g) BLACK) as [? | N]; [reflexivity |].
  destruct (Z.eqb_spec (get_pixel 0 0 LOWER g) BLACK) as [E | ?]; [| reflexivity].
  destruct H; contradiction.
Qed.

(** The RUN block changes the locals of [main] only by latching the timer
    when the cycle has elapsed. *)
Lemma main_run_locals t m :
  drop_cycle (main_run t m) = drop_cycle m /\
  last_drop (main_run t m) =
    (if (mode m =? RUN) && (drop_cycle m <=? u16 (t - last_drop m))
     then t else last_drop m).
Proof.
  unfold main_run. destruct (mode m =? RUN); cbn [andb]; [| auto].
  assert (H : drop_cycle (timed_drop t m) = drop_cycle m /\
              last_drop (timed_drop t m) =
                (if drop_cycle m <=? u16 (t - last_drop m) then t else last_drop m)).
  { unfold timed_drop. destruct (drop_cycle m <=? u16 (t - last_drop m)); auto. }
  destruct H as [H1 H2].
  destruct (random 0 (rnd (glob (timed_drop t m)))) as [r rnd'].
  destruct (simulate_grain _ _ _ _) as [res g2].
  destruct (255 =? res); cbn [drop_cycle last_drop with_glob with_mode]; auto.
Qed.

Lemma elapsed_mod T L ld :
  u16 ld = u16 L -> u16 (u16 T - ld) = (T - L) mod 65536.
Proof.
  unfold u16. intros E.
  rewrite Zminus_mod, Z.mod_mod, E, <- Zminus_mod by lia. reflexivity.
Qed.

(** Crossings are at least a cycle after the interrupt count [L] at which
    the timer was last latched, and at least a cycle apart. *)
Lemma transfer_times_spaced ticks : forall m L,
  u16 (last_drop m) = u16 L ->
  (forall T, In T ticks -> L <= T) ->
  StronglySorted Z.le ticks ->
  (forall T, In T (transfer_times ticks m) -> L + drop_cycle m <= T) /\
  StronglySorted (fun a b => a + drop_cycle m <= b) (transfer_times ticks m).
Proof.
  induction ticks as [| T ticks IH]; intros m L EL HL Hs.
  - split; [intros T [] | constructor].
  - cbn [transfer_times].
    apply StronglySorted_inv in Hs. destruct Hs as [Hs HT].
    rewrite Forall_forall in HT.
    destruct (main_run_locals (u16 T) m) as [Ec El].
    assert (HLT : L <= T) by (apply HL; left; reflexivity).
    destruct ((mode m =? RUN) && (drop_cycle m <=? u16 (u16 T - last_drop m))) eqn:Edue.
    + apply andb_prop in Edue. destruct Edue as [Em Ed].
      apply Z.leb_le in Ed. rewrite (elapsed_mod T L _ EL) in Ed.
      assert (Hge : L + drop_cycle m <= T).
      { pose proof (Z.mod_le (T - L) 65536 ltac:(lia) ltac:(lia)). lia. }
      destruct (IH (main_run (u16 T) m) T) as [IH1 IH2].
      { rewrite El. unfold u16. apply Z.mod_mod. lia. }
      { intros T' HT'. apply list_elem_of_In in HT'. apply HT. exact HT'. }
      { exact Hs. }
      rewrite Ec in IH1, IH2.
      destruct (transfers_now (u16 T) m); cbn [app].
      * split.
        -- intros T' [<- | HT']; [exact Hge |]. specialize (IH1 T' HT'). lia.
        -- constructor; [exact IH2 |]. apply Forall_forall.
           intros T' HT'. apply list_elem_of_In in HT'. apply IH1. exact HT'.
      * split; [| exact IH2].
        intros T' HT'. specialize (IH1 T' HT'). lia.
    + assert (Et : transfers_now (u16 T) m = false).
      { unfold transfers_now. rewrite Edue. reflexivity. }
      rewrite Et. cbn [app].
      destruct (IH (main_run (u16 T) m) L) as [IH1 IH2].
      { rewrite El. exact EL. }
      { intros T' HT'. apply HL. right. exact HT'. }
      { exact Hs. }
      rewrite Ec in IH1, IH2. split; assumption.
Qed.

Lemma latch_before ld T :
  exists L, u16 ld = u16 L /\ L <= T.
Proof.
  exists (ld - (Z.max 0 (ld - T)) * 65536). split.
  - unfold u16. rewrite Zminus_mod, Z.mod_mul, Z.sub_0_r, Z.mod_mod by lia. reflexivity.
  - lia.
Qed.

(** C3, as amended: in a pass of the loop in which the 16-bit timer has
    advanced by at least [drop_cycle] since it was last latched, the timer
    is latched again, and if the exit cell (7,7) of the upper bulb holds a
    grain and the entry cell (0,0) of the lower bulb is empty, exactly that
    grain moves: exit black, entry orange, every other pixel as before.
    With the entry occupied or the exit empty nothing moves; earlier than a
    cycle after the last latch nothing changes at all.  Over any run of
    passes made at nondecreasing interrupt counts, two crossings are at
    least [drop_cycle] counts apart. *)
Theorem timed_transfer (timer : Z) (m : main_t) (ticks : list Z) :
  display_ok (dm (glob m)) ->
  (drop_cycle m <= u16 (timer - last_drop m) ->
     last_drop (timed_drop timer m) = timer /\
     (get_pixel 7 7 UPPER (glob m) <> BLACK ->
      get_pixel 0 0 LOWER (glob m) = BLACK ->
      get_pixel 7 7 UPPER (glob (timed_drop timer m)) = BLACK /\
      get_pixel 0 0 LOWER (glob (timed_drop timer m)) = ORANGE /\
      same_except [orient (gravity (glob m)) 7 7 UPPER;
                   orient (gravity (glob m)) 0 0 LOWER]
                  (glob m) (glob (timed_drop timer m)))) /\
  (get_pixel 0 0 LOWER (glob m) <> BLACK \/ get_pixel 7 7 UPPER (glob m) = BLACK ->
     glob (timed_drop timer m) = glob m) /\
  (u16 (timer - last_drop m) < drop_cycle m -> timed_drop timer m = m) /\
  (StronglySorted Z.le ticks ->
     StronglySorted (fun a b => a + drop_cycle m <= b) (transfer_times ticks m)).
Proof.
  intros Hd. split; [| split; [| split]].
  - intros Hdue. unfold timed_drop.
    replace (drop_cycle m <=? u16 (timer - last_drop m)) with true
      by (symmetry; apply Z.leb_le; exact Hdue).
    split; [reflexivity |]. intros N E.
    cbn [glob with_glob with_last_drop]. apply drop_moves; assumption.
  - intros Hb. unfold timed_drop.
    destruct (drop_cycle m <=? u16 (timer - last_drop m)); [| reflexivity].
    cbn [glob with_glob with_last_drop]. apply drop_blocked, Hb.
  - intros Hearly. unfold timed_drop.
    replace (drop_cycle m <=? u16 (timer - last_drop m)) with false
      by (symmetry; apply Z.leb_gt; exact Hearly).
    reflexivity.
  - intros Hs. destruct ticks as [| T ticks]; [constructor |].
    destruct (latch_before (last_drop m) T) as (L & EL & HL).
    apply (transfer_times_spaced (T :: ticks) m L EL); [| exact Hs].
    intros T' [<- | HT']; [exact HL |].
    apply StronglySorted_inv in Hs. destruct Hs as [_ HT].
    rewrite Forall_forall in HT. apply list_elem_of_In in HT'.
    specialize (HT T' HT'). lia.
Qed.

Lemma timed_transfer_witness :
  display_ok (dm (glob (boot DOWN 27083 0))) /\
  27083 <= u16 (27083 - 0) /\
  last_drop (timed_drop 27083 (boot DOWN 27083 0)) = 27083 /\
  get_pixel 7 7 UPPER (glob (timed_drop 27083 (boot DOWN 27083 0))) = BLACK /\
  get_pixel 0 0 LOWER (glob (timed_drop 27083 (boot DOWN 27083 0))) = ORANGE.
Proof.
  assert (Hd : display_ok (dm (glob (boot DOWN 27083 0)))).
  { split; [split |]; vm_compute; congruence. }
  assert (Hdue : drop_cycle (boot DOWN 27083 0)
                   <= u16 (27083 - last_drop (boot DOWN 27083 0))).
  { vm_compute. congruence. }
  destruct (proj1 (timed_transfer 27083 (boot DOWN 27083 0) [] Hd) Hdue) as [Hl Hm].
  destruct Hm as (H1 & H2 & _).
  - vm_compute. discriminate.
  - vm_compute. reflexivity.
  - split; [exact Hd |]. split; [exact Hdue |]. split; [exact Hl |].
    split; [exact H1 | exact H2].
Defined.

(** C3 as stated fails: the cycle is counted from the last latch of the
    timer, not from the last transfer.  A grain crosses at count 27083; at
    count 54166 a drop is due but the exit cell is empty, and the timer is
    latched all the same; 36 passes later, at count 57766, the exit holds a
    grain, the entry is empty and 30683 counts have gone by since the
    transfer, yet nothing moves. *)
Lemma transfer_counts_from_last_latch :
  transfer_times passes_after_blocked_drop (boot DOWN 27083 0) = [27083] /\
  get_pixel 7 7 UPPER
    (glob (run (map u16 passes_after_blocked_drop) (boot DOWN 27083 0))) = ORANGE /\
  get_pixel 0 0 LOWER
    (glob (run (map u16 passes_after_blocked_drop) (boot DOWN 27083 0))) = BLACK /\
  mode (run (map u16 passes_after_blocked_drop) (boot DOWN 27083 0)) = RUN /\
  drop_cycle (run (map u16 passes_after_blocked_drop) (boot DOWN 27083 0))
    <= 57766 - 27083 /\
  last_drop (run (map u16 passes_after_blocked_drop) (boot DOWN 27083 0)) = 54166 /\
  transfers_now (u16 57766)
    (run (map u16 passes_after_blocked_drop) (boot DOWN 27083 0)) = false /\
  glob (timed_drop (u16 57766)
          (run (map u16 passes_after_blocked_drop) (boot DOWN 27083 0)))
    = glob (run (map u16 passes_after_blocked_drop) (boot DOWN 27083 0)).
Proof.
  split; [vm_compute; reflexivity |].
  split; [vm_compute; reflexivity |].
  split; [vm_compute; reflexivity |].
  split; [vm_compute; reflexivity |].
  split; [vm_compute; congruence |].
  split; [vm_compute; reflexivity |].
  split; vm_compute; reflexivity.
Qed.

(** ** Completion signal *)

Lemma simulate_grain_returns_counter x y bulb g :
  fst (simulate_grain x y bulb g) = static_counter (snd (simulate_grain x y bulb g)).
Proof. apply (simulate_grain_cases x y bulb g). Qed.

(** C1, as amended: a pass through the RUN block switches to ALARM
    exactly when [simulate_grain] has brought its counter of consecutive
    samples without movement to 255; the grain total 54 plays no part. *)
Theorem alarm_iff_counter_255 (timer : Z) (m : main_t) :
  mode m = RUN ->
  (mode (main_run timer m) = ALARM <->
   static_counter (glob (main_run timer m)) = 255).
Proof.
  intros Hm. unfold main_run. rewrite Hm. change (RUN =? RUN) with true. cbv iota.
  destruct (random 0 (rnd (glob (timed_drop timer m)))) as [r rnd'].
  pose proof (simulate_grain_returns_counter (Z.shiftr r 1) (Z.shiftr r 4) (Z.land r 1)
                (with_rnd rnd' (glob (timed_drop timer m)))) as Hret.
  destruct (simulate_grain (Z.shiftr r 1) (Z.shiftr r 4) (Z.land r 1)
              (with_rnd rnd' (glob (timed_drop timer m)))) as [res g2].
  cbn [fst snd] in Hret.
  assert (Hmode : mode (timed_drop timer m) = RUN).
  { unfold timed_drop. destruct (_ <=? _); exact Hm. }
  destruct (Z.eqb_spec 255 res) as [E | N].
  - cbn [mode glob with_mode with_glob alarm_signal static_counter with_dm].
    split; [intros _; congruence | intros _; reflexivity].
  - cbn [mode glob with_glob]. rewrite Hmode, <- Hret. split.
    + intros F. vm_compute in F. discriminate F.
    + intros F. congruence.
Qed.

Lemma alarm_iff_counter_255_witness :
  mode (run (passes_every_cycle 8262) (boot DOWN 463 0)) = RUN /\
  mode (main_run (u16 (8263 * 463)) (run (passes_every_cycle 8262) (boot DOWN 463 0)))
    = ALARM.
Proof.
  pose proof (alarm_iff_counter_255 (u16 (8263 * 463))
                (run (passes_every_cycle 8262) (boot DOWN 463 0))) as H.
  let v := eval vm_compute in (run (passes_every_cycle 8262) (boot DOWN 463 0)) in
  assert (E : run (passes_every_cycle 8262) (boot DOWN 463 0) = v)
    by (vm_compute; reflexivity).
  rewrite E in H |- *.
  split; [reflexivity |].
  apply H; vm_compute; reflexivity.
Defined.

(** C1 as stated fails: in the run that makes a pass every 463 counts
    there is, within 6110 passes, a first pass that leaves the counter at
    54, and the loop is still in RUN after it. *)
Lemma counter_54_does_not_alarm :
  option_map (fun m => (static_counter (glob m), mode m))
    (List.find (fun m => static_counter (glob m) =? GRAINS_TOTAL)
               (trace (passes_every_cycle 6110) (boot DOWN 463 0)))
    = Some (GRAINS_TOTAL, RUN) /\
  RUN <> ALARM.
Proof.
  split; [vm_compute; reflexivity | vm_compute; discriminate].
Qed.

(** * More of the code *)

(** ** Serial output *)

Lemma shift_bits_length n : forall data, length (shift_bits n data) = n.
Proof. induction n as [| n IH]; intros data; cbn [shift_bits length]; [| rewrite IH]; reflexivity. Qed.

Lemma shift_bits_nth n : forall data k,
  (k < n)%nat -> (k < 16)%nat ->
  nth k (shift_bits n data) false = Z.testbit data (15 - Z.of_nat k).
Proof.
  induction n as [| n IH]; intros data k Hk Hk16; [lia |].
  cbn [shift_bits]. destruct k as [| k].
  - cbn [nth]. change 0x8000 with (2 ^ 15). rewrite truthy_land_pow2 by lia. reflexivity.
  - cbn [nth]. rewrite IH by lia. unfold u16. change 65536 with (2 ^ 16).
    rewrite Z.mod_pow2_bits_low by lia. rewrite Z.shiftl_spec by lia.
    f_equal. lia.
Qed.

(** X1: [shift_out] puts out sixteen bits, most significant first: the
    [k]-th level on the data line is bit [15 - k] of the word. *)
Theorem shift_out_msb_first (data : Z) (k : nat) :
  length (shift_out data) = 16%nat /\
  ((k < 16)%nat -> nth k (shift_out data) false = Z.testbit data (15 - Z.of_nat k)).
Proof.
  split; [apply shift_bits_length |]. intros Hk. apply shift_bits_nth; exact Hk.
Qed.

Lemma shift_out_msb_first_witness :
  (0 < 16)%nat /\ nth 0 (shift_out 0x8001) false = Z.testbit 0x8001 (15 - Z.of_nat 0).
Proof.
  split; [lia |]. apply (proj2 (shift_out_msb_first 0x8001 0)). lia.
Defined.

(** ** Glyph columns *)

Lemma spread_ok_all p j : 0 <= p < 256 -> 0 <= j < 16 -> spread_ok p j = true.
Proof.
  intros Hp Hj.
  apply (forallb_seqZ (spread_ok p) 0 16); [| lia].
  apply (forallb_seqZ (fun p => forallb (spread_ok p) (seqZ 0 16)) 0 256);
    [vm_compute; reflexivity | lia].
Qed.

Lemma spread_bit p j :
  0 <= p < 256 -> 0 <= j ->
  Z.testbit (shifter_u16 (spread_loop 8 p)) j = (j <? 16) && Z.odd j && Z.testbit p (j / 2).
Proof.
  intros Hp Hj. destruct (Z.ltb_spec j 16) as [Hlt | Hge].
  - rewrite (Bool.eqb_prop _ _ (spread_ok_all p j Hp ltac:(lia))). reflexivity.
  - cbn [andb]. unfold shifter_u16. change 0xFFFF with (Z.ones 16).
    rewrite Z.land_spec, Z.ones_spec_high by lia. apply andb_false_r.
Qed.

Lemma spread_bit_odd p i :
  0 <= p < 256 -> 0 <= i < 8 ->
  Z.testbit (shifter_u16 (spread_loop 8 p)) (2 * i + 1) = Z.testbit p i.
Proof.
  intros Hp Hi. rewrite spread_bit by lia.
  replace (2 * i + 1 <? 16) with true by (symmetry; apply Z.ltb_lt; lia).
  replace (2 * i + 1) with (1 + i * 2) by lia.
  rewrite Z.div_add by lia. replace (1 + i * 2) with (1 + 2 * i) by lia.
  rewrite Z.odd_add_mul_2. reflexivity.
Qed.

Lemma spread_bit_even p i :
  0 <= p < 256 -> 0 <= i ->
  Z.testbit (shifter_u16 (spread_loop 8 p)) (2 * i) = false.
Proof.
  intros Hp Hi. rewrite spread_bit by lia.
  replace (2 * i) with (0 + 2 * i) by lia. rewrite Z.odd_add_mul_2.
  cbn [Z.odd]. rewrite andb_false_r. reflexivity.
Qed.

(** One plane of [pattern2PixCol]: the spread pattern one place down for
    the green bit, as it is for the red bit. *)
Lemma plane_bit (s : Z) (g r : bool) (j : Z) :
  0 <= j ->
  Z.testbit (let temp := if g then Z.shiftr s 1 else 0 in
             if r then Z.lor temp s else temp) j
  = (g && Z.testbit s (j + 1)) || (r && Z.testbit s j).
Proof.
  intros Hj. cbv zeta.
  destruct g, r; rewrite ?Z.lor_spec, ?Z.shiftr_spec, ?Z.bits_0 by lia;
    cbn [andb orb]; rewrite ?orb_false_r; reflexivity.
Qed.

(** X2: [pattern2PixCol] gives the pixel of row [i] the colour asked for
    where bit [i] of the pattern is set, and black where it is clear. *)
Theorem pattern2PixCol_colors (p c i : Z) :
  0 <= p < 256 -> 0 <= c < 16 -> 0 <= i < 8 ->
  color_at (pattern2PixCol p c) i = if Z.testbit p i then c else BLACK.
Proof.
  intros Hp Hc Hi. unfold color_at, pattern2PixCol. cbv zeta. cbn [lsb msb].
  pose proof (plane_bit (shifter_u16 (spread_loop 8 p))) as P. cbv zeta in P.
  rewrite !P by lia.
  replace (2 * i + 1 + 1) with (2 * (i + 1)) by lia.
  rewrite !spread_bit_even, !spread_bit_odd by lia.
  rewrite !andb_false_r. cbn [orb].
  destruct (Z.testbit p i).
  - rewrite !andb_true_r, ?orb_false_r. apply color_of_bits_nibble, Hc.
  - rewrite !andb_false_r. reflexivity.
Qed.

Lemma pattern2PixCol_colors_witness :
  (0 <= 0xDF < 256 /\ 0 <= ORANGE < 16 /\ 0 <= 5 < 8) /\
  color_at (pattern2PixCol 0xDF ORANGE) 5 = if Z.testbit 0xDF 5 then ORANGE else BLACK.
Proof.
  assert (H : 0 <= 0xDF < 256 /\ 0 <= ORANGE < 16 /\ 0 <= 5 < 8)
    by (unfold ORANGE; lia).
  split; [exact H |].
  apply (pattern2PixCol_colors 0xDF ORANGE 5); apply H.
Defined.

(** ** Pixel columns on the screen *)

Lemma u32_bit z j : j < 32 -> Z.testbit (u32 z) j = Z.testbit z j.
Proof.
  intros Hj. unfold u32. change 4294967296 with (2 ^ 32).
  apply Z.mod_pow2_bits_low, Hj.
Qed.

Lemma u16_bit z j : 0 <= j -> Z.testbit (u16 z) j = (j <? 16) && Z.testbit z j.
Proof.
  intros Hj. unfold u16. change 65536 with (2 ^ 16).
  destruct (Z.ltb_spec j 16).
  - rewrite Z.mod_pow2_bits_low by lia. reflexivity.
  - rewrite Z.mod_pow2_bits_high by lia. reflexivity.
Qed.

Lemma split_lo_bit s j : 0 <= j -> Z.testbit (split_lo s) j = (j <? 16) && Z.testbit s j.
Proof.
  intros Hj. unfold split_lo. change 0xFFFF with (Z.ones 16).
  rewrite Z.land_spec. destruct (Z.ltb_spec j 16).
  - rewrite Z.ones_spec_low by lia. rewrite andb_true_r. reflexivity.
  - rewrite Z.ones_spec_high by lia. rewrite andb_false_r. reflexivity.
Qed.

Lemma split_set_lo_bit v s j :
  0 <= j < 16 -> Z.testbit (split_set_lo v s) j = Z.testbit v j.
Proof.
  intros Hj. unfold split_set_lo. rewrite Z.lor_spec, Z.land_spec, u16_bit by lia.
  replace (Z.testbit 0xFFFF0000 j) with false.
  - rewrite andb_false_r. replace (j <? 16) with true by (symmetry; apply Z.ltb_lt; lia).
    reflexivity.
  - symmetry. change 0xFFFF0000 with (Z.shiftl 0xFFFF 16).
    rewrite Z.shiftl_spec by lia. apply Z.testbit_neg_r. lia.
Qed.

Lemma raised_bit v k j :
  0 <= j -> 0 <= k ->
  Z.testbit (raised v k) j = (j <? 16) && (k <=? j) && Z.testbit v (j - k).
Proof.
  intros Hj Hk. unfold raised. rewrite u16_bit, Z.shiftl_spec by lia.
  destruct (Z.ltb_spec j 16); [| reflexivity]. cbn [andb].
  destruct (Z.leb_spec k j).
  - rewrite u16_bit by lia.
    replace (j - k <? 16) with true by (symmetry; apply Z.ltb_lt; lia). reflexivity.
  - apply Z.testbit_neg_r. lia.
Qed.

(** Bits of the low halves after the shift loop: each has moved up by the
    number of shifts, whatever the high halves held. *)
Lemma shift_loop_bits n : forall a b c j,
  0 <= j < 16 ->
  Z.testbit (fst (fst (shift_loop n (a, b, c)))) j = Z.testbit a (j - Z.of_nat n) /\
  Z.testbit (snd (fst (shift_loop n (a, b, c)))) j = Z.testbit b (j - Z.of_nat n) /\
  Z.testbit (snd (shift_loop n (a, b, c))) j = Z.testbit c (j - Z.of_nat n).
Proof.
  assert (S1 : forall a i, i < 32 -> Z.testbit (u32 (Z.shiftl a 1)) i = Z.testbit a (i - 1)).
  { intros a i Hi. rewrite u32_bit by lia. destruct (Z.leb_spec 0 i).
    - apply Z.shiftl_spec. assumption.
    - rewrite !Z.testbit_neg_r by lia. reflexivity. }
  induction n as [| n IH]; intros a b c j Hj.
  - cbn [shift_loop fst snd]. rewrite Z.sub_0_r. auto.
  - cbn [shift_loop].
    destruct (IH (u32 (Z.shiftl a 1)) (u32 (Z.shiftl b 1)) (u32 (Z.shiftl c 1)) j Hj)
      as (E1 & E2 & E3).
    rewrite E1, E2, E3, !S1 by lia.
    replace (j - Z.of_nat n - 1) with (j - Z.of_nat (S n)) by lia. auto.
Qed.

Lemma shift_loop_lo n v1 v2 v3 s1 s2 s3 :
  split_lo (fst (fst (shift_loop n (split_set_lo v1 s1, split_set_lo v2 s2, split_set_lo v3 s3))))
    = raised v1 (Z.of_nat n) /\
  split_lo (snd (fst (shift_loop n (split_set_lo v1 s1, split_set_lo v2 s2, split_set_lo v3 s3))))
    = raised v2 (Z.of_nat n) /\
  split_lo (snd (shift_loop n (split_set_lo v1 s1, split_set_lo v2 s2, split_set_lo v3 s3)))
    = raised v3 (Z.of_nat n).
Proof.
  assert (B : forall v s j, 0 <= j < 16 ->
            Z.testbit (split_set_lo v s) (j - Z.of_nat n)
            = (Z.of_nat n <=? j) && Z.testbit v (j - Z.of_nat n)).
  { intros v s j Hj. destruct (Z.leb_spec (Z.of_nat n) j).
    - apply split_set_lo_bit. lia.
    - apply Z.testbit_neg_r. lia. }
  repeat split; apply Z.bits_inj'; intros j Hj;
    rewrite split_lo_bit, raised_bit by lia;
    (destruct (Z.ltb_spec j 16); [| reflexivity]); cbn [andb];
    destruct (shift_loop_bits n (split_set_lo v1 s1) (split_set_lo v2 s2)
                (split_set_lo v3 s3) j ltac:(lia)) as (E1 & E2 & E3);
    rewrite ?E1, ?E2, ?E3; apply B; lia.
Qed.

Lemma split_lo_not m : split_lo (u32 (Z.lnot m)) = not16 (split_lo m).
Proof.
  apply Z.bits_inj'. intros j Hj. rewrite split_lo_bit by lia.
  unfold not16. rewrite u16_bit by lia.
  destruct (Z.ltb_spec j 16); [| reflexivity]. cbn [andb].
  rewrite u32_bit, !Z.lnot_spec, split_lo_bit by lia.
  replace (j <? 16) with true by (symmetry; apply Z.ltb_lt; lia). reflexivity.
Qed.

Lemma split_lo_set v s : split_lo (split_set_lo v s) = u16 v.
Proof.
  apply Z.bits_inj'. intros j Hj. rewrite split_lo_bit, u16_bit by lia.
  destruct (Z.ltb_spec j 16); [| reflexivity]. cbn [andb].
  apply split_set_lo_bit. lia.
Qed.

Lemma raised_u16 v k : raised (u16 v) k = raised v k.
Proof. unfold raised, u16. rewrite Z.mod_mod by lia. reflexivity. Qed.

Lemma land7_small y : 0 <= y < 8 -> Z.land y 7 = y.
Proof.
  intros Hy. change 7 with (Z.ones 3). rewrite Z.land_ones by lia.
  apply Z.mod_small. lia.
Qed.

(** [setPixCol] in range on this display (one row of blocks): a single
    slot is written, with planes and mask moved up by two bits per row,
    and nothing of the unassigned halves takes part. *)
Lemma setPixCol_in_range junk x y pc mode d :
  0 <= x < 16 -> 0 <= y < 8 ->
  setPixCol junk x y pc mode d =
    blit x mode (not16 (raised (mask_lo mode pc) (2 * y)))
         (raised (lsb pc) (2 * y)) (raised (msb pc) (2 * y)) d.
Proof.
  intros Hx Hy. destruct junk as [[jm jl] jh]. unfold setPixCol.
  replace (DIM_X <=? x) with false by (symmetry; apply Z.leb_gt; unfold DIM_X, NUM_BLOCKS_X, COLS_PER_BLOCK; lia).
  replace (DIM_Y <=? y) with false by (symmetry; apply Z.leb_gt; unfold DIM_Y, NUM_BLOCKS_Y, ROWS_PER_BLOCK; lia).
  rewrite (index_in_range x y Hx Hy).
  change (ROWS_PER_BLOCK - 1) with 7. rewrite (land7_small y Hy).
  cbv zeta.
  assert (Hn : Z.of_nat (Z.to_nat (y * 2)) = 2 * y) by lia.
  assert (Hskip : (NUM_BLOCKS * COLS_PER_BLOCK <=? u8 (x + DIM_X)) = true).
  { apply Z.leb_le. unfold DIM_X, NUM_BLOCKS, NUM_BLOCKS_X, NUM_BLOCKS_Y, COLS_PER_BLOCK.
    rewrite u8_small by lia. lia. }
  rewrite Hskip.
  destruct (Z.eqb_spec mode TRANSPARENT) as [Em | Em].
  - match goal with
    | |- context [shift_loop ?n (split_set_lo ?v1 ?s1, split_set_lo ?v2 ?s2, split_set_lo ?v3 ?s3)] =>
        pose proof (shift_loop_lo n v1 v2 v3 s1 s2 s3) as (E1 & E2 & E3);
        destruct (shift_loop n (split_set_lo v1 s1, split_set_lo v2 s2, split_set_lo v3 s3))
          as [[M L] H]
    end.
    cbn [fst snd] in E1, E2, E3.
    rewrite split_lo_not, E1, E2, E3, Hn.
    rewrite !split_lo_set. rewrite <- raised_u16.
    unfold mask_lo. rewrite Em. change (TRANSPARENT =? TRANSPARENT) with true. cbv iota zeta.
    destruct (truthy y); reflexivity.
  - match goal with
    | |- context [shift_loop ?n (split_set_lo ?v1 ?s1, split_set_lo ?v2 ?s2, split_set_lo ?v3 ?s3)] =>
        pose proof (shift_loop_lo n v1 v2 v3 s1 s2 s3) as (E1 & E2 & E3);
        destruct (shift_loop n (split_set_lo v1 s1, split_set_lo v2 s2, split_set_lo v3 s3))
          as [[M L] H]
    end.
    cbn [fst snd] in E1, E2, E3.
    rewrite split_lo_not, E1, E2, E3, Hn.
    unfold mask_lo.
    replace (mode =? TRANSPARENT) with false by (symmetry; apply Z.eqb_neq; exact Em).
    destruct (truthy y); reflexivity.
Qed.

Lemma store_frame p i pc d :
  scr_vis (store p i pc d) = scr_vis d /\
  scr_hid (store p i pc d) = scr_hid d /\
  scr_wrk (store p i pc d) = scr_wrk d /\
  length (screen (store p i pc d)) = length (screen d).
Proof.
  unfold store. cbn [scr_vis scr_hid scr_wrk screen with_screen].
  rewrite length_insert. auto.
Qed.

Lemma scr_wrk_store p i pc d : scr_wrk (store p i pc d) = scr_wrk d.
Proof. reflexivity. Qed.

Lemma store_length p i pc d : length (screen (store p i pc d)) = length (screen d).
Proof. apply store_frame. Qed.

(** The writes of [blit], gathered into one store. *)
Lemma blit_store idx mode m l h d :
  (Z.to_nat (scr_wrk d + idx) < length (screen d))%nat ->
  blit idx mode m l h d =
    store (scr_wrk d) idx
      {| lsb := blit_word mode m l (lsb (load d (scr_wrk d) idx));
         msb := blit_word mode m h (msb (load d (scr_wrk d) idx)) |} d.
Proof.
  intros Hi. unfold blit, blit_word, store_lsb, store_msb.
  destruct (mode =? XOR);
    rewrite ?scr_wrk_store;
    repeat (rewrite load_store_eq by (rewrite ?store_length; exact Hi));
    rewrite ?store_store; cbn [lsb msb]; reflexivity.
Qed.

(** The pointers and the size of the array are not touched by
    [setPixCol]. *)
Lemma setPixCol_frame junk x y pc mode d :
  buffer_ok d (scr_wrk d) -> 0 <= x -> 0 <= y ->
  scr_vis (setPixCol junk x y pc mode d) = scr_vis d /\
  scr_hid (setPixCol junk x y pc mode d) = scr_hid d /\
  scr_wrk (setPixCol junk x y pc mode d) = scr_wrk d /\
  length (screen (setPixCol junk x y pc mode d)) = length (screen d).
Proof.
  intros Hb Hx Hy.
  destruct (Z.leb_spec DIM_X x) as [Ox | Ix].
  { unfold setPixCol. destruct junk as [[? ?] ?].
    replace (DIM_X <=? x) with true by (symmetry; apply Z.leb_le; exact Ox). auto. }
  destruct (Z.leb_spec DIM_Y y) as [Oy | Iy].
  { unfold setPixCol. destruct junk as [[? ?] ?].
    destruct (DIM_X <=? x); [auto |].
    replace (DIM_Y <=? y) with true by (symmetry; apply Z.leb_le; exact Oy). auto. }
  unfold DIM_X, DIM_Y, NUM_BLOCKS_X, NUM_BLOCKS_Y, COLS_PER_BLOCK, ROWS_PER_BLOCK in Ix, Iy.
  rewrite setPixCol_in_range by lia.
  rewrite blit_store by (apply buffer_index; [exact Hb | lia]).
  apply store_frame.
Qed.

(** Reading the written buffer after [setPixCol]: in the column written
    the pixel comes from the blitted planes, elsewhere it is as before. *)
Lemma getPixel_setPixCol junk x y pc mode x' y' v d :
  buffer_ok d (scr_wrk d) ->
  v = VISIBLE \/ v = HIDDEN -> selected v d = scr_wrk d ->
  0 <= x < 16 -> 0 <= y < 8 -> 0 <= x' < 16 -> 0 <= y' < 8 ->
  getPixel x' y' v (setPixCol junk x y pc mode d) =
    if x' =? x then
      color_at
        {| lsb := blit_word mode (not16 (raised (mask_lo mode pc) (2 * y)))
                    (raised (lsb pc) (2 * y)) (lsb (load d (scr_wrk d) x));
           msb := blit_word mode (not16 (raised (mask_lo mode pc) (2 * y)))
                    (raised (msb pc) (2 * y)) (msb (load d (scr_wrk d) x)) |} y'
    else getPixel x' y' v d.
Proof.
  intros Hb Hv Hs Hx Hy Hx' Hy'.
  pose proof (buffer_index d (scr_wrk d) x Hb Hx) as Hi.
  rewrite (setPixCol_in_range junk x y pc mode d Hx Hy), blit_store by exact Hi.
  rewrite !getPixel_in_range by assumption.
  rewrite selected_store, Hs.
  destruct (Z.eqb_spec x' x) as [-> | Hne].
  - rewrite load_store_eq by exact Hi. reflexivity.
  - rewrite load_store_ne; [reflexivity |]. destruct Hb as [Hp _]. lia.
Qed.

Lemma ones16_bit j : 0 <= j < 16 -> Z.testbit 0xFFFF j = true.
Proof. intros Hj. change 0xFFFF with (Z.ones 16). apply Z.ones_spec_low. lia. Qed.

(** A bit of a plane word after an opaque write. *)
Lemma blit_bit_opaque mode pc pl old y j :
  mode <> TRANSPARENT -> mode <> XOR -> 0 <= y -> 0 <= j < 16 ->
  Z.testbit (blit_word mode (not16 (raised (mask_lo mode pc) (2 * y)))
               (raised pl (2 * y)) old) j
  = if 2 * y <=? j then Z.testbit pl (j - 2 * y) else Z.testbit old j.
Proof.
  intros Ht Hx Hy Hj. unfold blit_word, mask_lo.
  replace (mode =? XOR) with false by (symmetry; apply Z.eqb_neq; exact Hx).
  replace (mode =? TRANSPARENT) with false by (symmetry; apply Z.eqb_neq; exact Ht).
  rewrite Z.lor_spec, Z.land_spec, not16_bit, !raised_bit by lia.
  replace (j <? 16) with true by (symmetry; apply Z.ltb_lt; lia). cbn [andb].
  destruct (Z.leb_spec (2 * y) j).
  - rewrite ones16_bit by lia. cbn [andb negb]. rewrite andb_false_r. reflexivity.
  - cbn [andb negb]. rewrite andb_true_r, orb_false_r. reflexivity.
Qed.

Lemma getPixel_setPixCol_opaque junk x y pc mode x' y' v d :
  buffer_ok d (scr_wrk d) ->
  v = VISIBLE \/ v = HIDDEN -> selected v d = scr_wrk d ->
  mode <> TRANSPARENT -> mode <> XOR ->
  0 <= x < 16 -> 0 <= y < 8 -> 0 <= x' < 16 -> 0 <= y' < 8 ->
  getPixel x' y' v (setPixCol junk x y pc mode d) =
    if (x' =? x) && (y <=? y') then color_at pc (y' - y) else getPixel x' y' v d.
Proof.
  intros Hb Hv Hs Ht Hxor Hx Hy Hx' Hy'.
  rewrite getPixel_setPixCol by (assumption || lia).
  destruct (Z.eqb_spec x' x) as [-> | Hne]; [| reflexivity]. cbn [andb].
  rewrite (getPixel_in_range x y' v d) by (assumption || lia). rewrite Hs.
  unfold color_at. cbn [lsb msb].
  rewrite !blit_bit_opaque by (assumption || lia).
  destruct (Z.leb_spec y y').
  - replace (2 * y <=? 2 * y' + 1) with true by (symmetry; apply Z.leb_le; lia).
    replace (2 * y <=? 2 * y') with true by (symmetry; apply Z.leb_le; lia).
    replace (2 * y' + 1 - 2 * y) with (2 * (y' - y) + 1) by lia.
    replace (2 * y' - 2 * y) with (2 * (y' - y)) by lia. reflexivity.
  - replace (2 * y <=? 2 * y' + 1) with false by (symmetry; apply Z.leb_gt; lia).
    replace (2 * y <=? 2 * y') with false by (symmetry; apply Z.leb_gt; lia).
    reflexivity.
Qed.

(** X3: an opaque [setPixCol] at [(x, y)] puts row [r] of the column
    given at row [y + r] of screen column [x], down to the bottom of the
    display, and changes nothing above [y] or in any other column. *)
Theorem setPixCol_opaque (junk : Z * Z * Z) (x y : Z) (pc : pixcol_t) (mode : Z)
    (x' y' v : Z) (d : DotMatrix.t) :
  buffer_ok d (scr_wrk d) ->
  v = VISIBLE \/ v = HIDDEN -> selected v d = scr_wrk d ->
  mode <> TRANSPARENT -> mode <> XOR ->
  0 <= x < DIM_X -> 0 <= y < DIM_Y -> 0 <= x' < DIM_X -> 0 <= y' < DIM_Y ->
  getPixel x' y' v (setPixCol junk x y pc mode d) =
    if (x' =? x) && (y <=? y') then color_at pc (y' - y) else getPixel x' y' v d.
Proof.
  unfold DIM_X, DIM_Y, NUM_BLOCKS_X, NUM_BLOCKS_Y, COLS_PER_BLOCK, ROWS_PER_BLOCK.
  apply getPixel_setPixCol_opaque.
Qed.

Lemma setPixCol_opaque_witness :
  getPixel 3 6 VISIBLE
    (setPixCol (0, 0, 0) 3 2 (pattern2PixCol 0xDF ORANGE) OPAQUE (init false (power_on false)))
  = if (3 =? 3) && (2 <=? 6) then color_at (pattern2PixCol 0xDF ORANGE) (6 - 2)
    else getPixel 3 6 VISIBLE (init false (power_on false)).
Proof.
  apply setPixCol_opaque; vm_compute; intuition congruence.
Defined.

Lemma color_of_bits_xor a b c e a' b' c' e' :
  color_of_bits (xorb a a') (xorb b b') (xorb c c') (xorb e e')
  = Z.lxor (color_of_bits a b c e) (color_of_bits a' b' c' e').
Proof. destruct a, b, c, e, a', b', c', e'; reflexivity. Qed.

Lemma blit_bit_xor m pl old y j :
  0 <= y -> 0 <= j < 16 ->
  Z.testbit (blit_word XOR m (raised pl (2 * y)) old) j
  = xorb (Z.testbit old j) ((2 * y <=? j) && Z.testbit pl (j - 2 * y)).
Proof.
  intros Hy Hj. unfold blit_word. change (XOR =? XOR) with true. cbv iota.
  rewrite Z.lxor_spec, raised_bit by lia.
  replace (j <? 16) with true by (symmetry; apply Z.ltb_lt; lia). reflexivity.
Qed.

(** The effect of an XOR write on the pixels of the written buffer. *)
Lemma getPixel_setPixCol_xor junk x y pc x' y' v d :
  buffer_ok d (scr_wrk d) ->
  v = VISIBLE \/ v = HIDDEN -> selected v d = scr_wrk d ->
  0 <= x < 16 -> 0 <= y < 8 -> 0 <= x' < 16 -> 0 <= y' < 8 ->
  getPixel x' y' v (setPixCol junk x y pc XOR d) =
    if (x' =? x) && (y <=? y')
    then Z.lxor (getPixel x' y' v d) (color_at pc (y' - y))
    else getPixel x' y' v d.
Proof.
  intros Hb Hv Hs Hx Hy Hx' Hy'.
  rewrite getPixel_setPixCol by assumption.
  destruct (Z.eqb_spec x' x) as [-> | Hne]; [| reflexivity]. cbn [andb].
  rewrite (getPixel_in_range x y' v d) by assumption. rewrite Hs.
  unfold color_at. cbn [lsb msb].
  rewrite !blit_bit_xor by lia.
  destruct (Z.leb_spec y y').
  - replace (2 * y <=? 2 * y' + 1) with true by (symmetry; apply Z.leb_le; lia).
    replace (2 * y <=? 2 * y') with true by (symmetry; apply Z.leb_le; lia).
    replace (2 * y' + 1 - 2 * y) with (2 * (y' - y) + 1) by lia.
    replace (2 * y' - 2 * y) with (2 * (y' - y)) by lia.
    cbn [andb]. apply color_of_bits_xor.
  - replace (2 * y <=? 2 * y' + 1) with false by (symmetry; apply Z.leb_gt; lia).
    replace (2 * y <=? 2 * y') with false by (symmetry; apply Z.leb_gt; lia).
    cbn [andb]. rewrite !xorb_false_r. reflexivity.
Qed.

(** X4: an XOR [setPixCol] toggles, bit by bit, the colour codes of the
    rows from [y] down in column [x] with the rows of the column given, and
    doing it a second time brings every pixel back. *)
Theorem setPixCol_xor_twice (junk junk' : Z * Z * Z) (x y : Z) (pc : pixcol_t)
    (x' y' v : Z) (d : DotMatrix.t) :
  buffer_ok d (scr_wrk d) ->
  v = VISIBLE \/ v = HIDDEN -> selected v d = scr_wrk d ->
  0 <= x < DIM_X -> 0 <= y < DIM_Y -> 0 <= x' < DIM_X -> 0 <= y' < DIM_Y ->
  getPixel x' y' v (setPixCol junk x y pc XOR d) =
    (if (x' =? x) && (y <=? y')
     then Z.lxor (getPixel x' y' v d) (color_at pc (y' - y))
     else getPixel x' y' v d) /\
  getPixel x' y' v (setPixCol junk' x y pc XOR (setPixCol junk x y pc XOR d))
    = getPixel x' y' v d.
Proof.
  intros Hb Hv Hs Hx Hy Hx' Hy'.
  unfold DIM_X, DIM_Y, NUM_BLOCKS_X, NUM_BLOCKS_Y, COLS_PER_BLOCK, ROWS_PER_BLOCK in *.
  split; [apply getPixel_setPixCol_xor; assumption |].
  destruct (setPixCol_frame junk x y pc XOR d Hb ltac:(lia) ltac:(lia)) as (F1 & F2 & F3 & F4).
  rewrite getPixel_setPixCol_xor; try assumption.
  - rewrite getPixel_setPixCol_xor by assumption.
    destruct ((x' =? x) && (y <=? y')); [| reflexivity].
    rewrite Z.lxor_assoc, Z.lxor_nilpotent, Z.lxor_0_r. reflexivity.
  - unfold buffer_ok in *. rewrite F3, F4. exact Hb.
  - unfold selected in *. rewrite F1, F2, F3. exact Hs.
Qed.

Lemma setPixCol_xor_twice_witness :
  getPixel 3 6 VISIBLE
    (setPixCol (7, 8, 9) 3 2 (pattern2PixCol 0xDF ORANGE) XOR
       (setPixCol (0, 0, 0) 3 2 (pattern2PixCol 0xDF ORANGE) XOR
          (setPixel 3 6 GREEN_MSB (init false (power_on false)))))
  = getPixel 3 6 VISIBLE (setPixel 3 6 GREEN_MSB (init false (power_on false))).
Proof.
  apply setPixCol_xor_twice; vm_compute; intuition congruence.
Defined.

Lemma mask5555_bit j : 0 <= j < 16 -> Z.testbit 0x5555 j = Z.even j.
Proof.
  intros Hj.
  assert (H : forallb (fun j => Bool.eqb (Z.testbit 0x5555 j) (Z.even j)) (seqZ 0 16) = true)
    by (vm_compute; reflexivity).
  apply Bool.eqb_prop. apply (forallb_seqZ _ 0 16 H). lia.
Qed.

(** The mask of a transparent write, pixel by pixel: the red bit of row
    [s] is set when the pixel given for that row is not black; the green
    bit is set then too, and also when the pixel given for the row above
    has red in it. *)
Lemma transparent_mask_bits pc s :
  0 <= s < 8 ->
  Z.testbit (mask_lo TRANSPARENT pc) (2 * s + 1)
    = Z.testbit (Z.lor (lsb pc) (msb pc)) (2 * s)
      || Z.testbit (Z.lor (lsb pc) (msb pc)) (2 * s + 1) /\
  Z.testbit (mask_lo TRANSPARENT pc) (2 * s)
    = Z.testbit (Z.lor (lsb pc) (msb pc)) (2 * s)
      || Z.testbit (Z.lor (lsb pc) (msb pc)) (2 * s + 1)
      || (1 <=? s) && Z.testbit (Z.lor (lsb pc) (msb pc)) (2 * s - 1).
Proof.
  intros Hs. unfold mask_lo. change (TRANSPARENT =? TRANSPARENT) with true. cbv iota zeta.
  set (a := u16 (Z.lor (lsb pc) (msb pc))).
  set (m1 := u16 (Z.lor a (Z.land (Z.shiftr a 1) 21845))).
  assert (Ha : forall j, 0 <= j < 16 ->
            Z.testbit a j = Z.testbit (Z.lor (lsb pc) (msb pc)) j).
  { intros j Hj. unfold a. rewrite u16_bit by lia.
    replace (j <? 16) with true by (symmetry; apply Z.ltb_lt; lia). reflexivity. }
  assert (Hodd : forall i, 0 <= i < 8 -> Z.testbit m1 (2 * i + 1) = Z.testbit a (2 * i + 1)).
  { intros i Hi. unfold m1. rewrite u16_bit, Z.lor_spec, Z.land_spec, mask5555_bit by lia.
    replace (2 * i + 1 <? 16) with true by (symmetry; apply Z.ltb_lt; lia).
    replace (2 * i + 1) with (1 + 2 * i) at 3 by lia. rewrite Z.even_add_mul_2.
    cbn [Z.even andb]. rewrite andb_false_r, orb_false_r. reflexivity. }
  assert (Heven : forall i, 0 <= i < 8 ->
            Z.testbit m1 (2 * i) = Z.testbit a (2 * i) || Z.testbit a (2 * i + 1)).
  { intros i Hi. unfold m1.
    rewrite u16_bit, Z.lor_spec, Z.land_spec, Z.shiftr_spec, mask5555_bit by lia.
    replace (2 * i <? 16) with true by (symmetry; apply Z.ltb_lt; lia).
    replace (2 * i) with (0 + 2 * i) at 3 by lia. rewrite Z.even_add_mul_2.
    cbn [Z.even andb]. rewrite andb_true_r. reflexivity. }
  split.
  - rewrite u16_bit, Z.lor_spec, Z.shiftl_spec by lia.
    replace (2 * s + 1 <? 16) with true by (symmetry; apply Z.ltb_lt; lia).
    replace (2 * s + 1 - 1) with (2 * s) by lia.
    rewrite Hodd, Heven, !Ha by lia. cbn [andb].
    destruct (Z.testbit (Z.lor (lsb pc) (msb pc)) (2 * s)),
             (Z.testbit (Z.lor (lsb pc) (msb pc)) (2 * s + 1)); reflexivity.
  - rewrite u16_bit, Z.lor_spec, Z.shiftl_spec by lia.
    replace (2 * s <? 16) with true by (symmetry; apply Z.ltb_lt; lia).
    rewrite Heven, !Ha by lia. cbn [andb].
    destruct (Z.leb_spec 1 s).
    + replace (2 * s - 1) with (2 * (s - 1) + 1) by lia.
      rewrite Hodd, Ha by lia. reflexivity.
    + rewrite (Z.testbit_neg_r m1 (2 * s - 1)) by lia.
      cbn [andb]. rewrite !orb_false_r. reflexivity.
Qed.

Lemma blit_bit_transparent pc pl old y j :
  0 <= y -> 0 <= j < 16 ->
  Z.testbit (blit_word TRANSPARENT (not16 (raised (mask_lo TRANSPARENT pc) (2 * y)))
               (raised pl (2 * y)) old) j
  = (Z.testbit old j
     && negb ((2 * y <=? j) && Z.testbit (mask_lo TRANSPARENT pc) (j - 2 * y)))
    || ((2 * y <=? j) && Z.testbit pl (j - 2 * y)).
Proof.
  intros Hy Hj. unfold blit_word. change (TRANSPARENT =? XOR) with false. cbv iota.
  rewrite Z.lor_spec, Z.land_spec, not16_bit, !raised_bit by lia.
  replace (j <? 16) with true by (symmetry; apply Z.ltb_lt; lia). reflexivity.
Qed.

Lemma red_part_bits rm gm rl gl :
  red_part (color_of_bits rm gm rl gl) = color_of_bits rm false rl false /\
  truthy (red_part (color_of_bits rm gm rl gl)) = rm || rl.
Proof. destruct rm, gm, rl, gl; split; reflexivity. Qed.

(** X5: a transparent [setPixCol] writes the pixels of the column given
    that are not black.  Where the pixel given is black the screen pixel
    stays, except that it loses its green bits when the pixel given for the
    row above has red in it.  Rows above [y] and other columns are left
    alone. *)
Theorem setPixCol_transparent (junk : Z * Z * Z) (x y : Z) (pc : pixcol_t)
    (x' y' v : Z) (d : DotMatrix.t) :
  buffer_ok d (scr_wrk d) ->
  v = VISIBLE \/ v = HIDDEN -> selected v d = scr_wrk d ->
  0 <= x < DIM_X -> 0 <= y < DIM_Y -> 0 <= x' < DIM_X -> 0 <= y' < DIM_Y ->
  getPixel x' y' v (setPixCol junk x y pc TRANSPARENT d) =
    if (x' =? x) && (y <=? y') then
      if color_at pc (y' - y) =? BLACK then
        if (y <? y') && truthy (red_part (color_at pc (y' - y - 1)))
        then red_part (getPixel x' y' v d)
        else getPixel x' y' v d
      else color_at pc (y' - y)
    else getPixel x' y' v d.
Proof.
  intros Hb Hv Hs Hx Hy Hx' Hy'.
  unfold DIM_X, DIM_Y, NUM_BLOCKS_X, NUM_BLOCKS_Y, COLS_PER_BLOCK, ROWS_PER_BLOCK in *.
  rewrite getPixel_setPixCol by (assumption || lia).
  destruct (Z.eqb_spec x' x) as [-> | Hne]; [| reflexivity]. cbn [andb].
  rewrite (getPixel_in_range x y' v d) by (assumption || lia). rewrite Hs.
  unfold color_at at 1. cbn [lsb msb].
  rewrite !blit_bit_transparent by lia.
  destruct (Z.leb_spec y y') as [Hle | Hgt].
  - replace (2 * y <=? 2 * y' + 1) with true by (symmetry; apply Z.leb_le; lia).
    replace (2 * y <=? 2 * y') with true by (symmetry; apply Z.leb_le; lia).
    replace (2 * y' + 1 - 2 * y) with (2 * (y' - y) + 1) by lia.
    replace (2 * y' - 2 * y) with (2 * (y' - y)) by lia.
    destruct (transparent_mask_bits pc (y' - y) ltac:(lia)) as [Mo Me].
    rewrite Mo, Me, !Z.lor_spec. cbn [andb].
    replace (y <? y') with (1 <=? y' - y)
      by (destruct (Z.leb_spec 1 (y' - y)), (Z.ltb_spec y y'); try reflexivity; lia).
    unfold color_at.
    destruct (red_part_bits (Z.testbit (msb (load d (scr_wrk d) x)) (2 * y' + 1))
                (Z.testbit (msb (load d (scr_wrk d) x)) (2 * y'))
                (Z.testbit (lsb (load d (scr_wrk d) x)) (2 * y' + 1))
                (Z.testbit (lsb (load d (scr_wrk d) x)) (2 * y'))) as [R1 _].
    destruct (red_part_bits (Z.testbit (msb pc) (2 * (y' - y - 1) + 1))
                (Z.testbit (msb pc) (2 * (y' - y - 1)))
                (Z.testbit (lsb pc) (2 * (y' - y - 1) + 1))
                (Z.testbit (lsb pc) (2 * (y' - y - 1)))) as [_ R2].
    rewrite R1, R2.
    replace (2 * (y' - y - 1) + 1) with (2 * (y' - y) - 1) by lia.
    rewrite (orb_comm (Z.testbit (msb pc) (2 * (y' - y) - 1))).
    generalize ((1 <=? y' - y)
                && (Z.testbit (lsb pc) (2 * (y' - y) - 1)
                    || Z.testbit (msb pc) (2 * (y' - y) - 1))).
    generalize (Z.testbit (lsb pc) (2 * (y' - y))) (Z.testbit (msb pc) (2 * (y' - y)))
      (Z.testbit (lsb pc) (2 * (y' - y) + 1)) (Z.testbit (msb pc) (2 * (y' - y) + 1))
      (Z.testbit (msb (load d (scr_wrk d) x)) (2 * y' + 1))
      (Z.testbit (msb (load d (scr_wrk d) x)) (2 * y'))
      (Z.testbit (lsb (load d (scr_wrk d) x)) (2 * y' + 1))
      (Z.testbit (lsb (load d (scr_wrk d) x)) (2 * y')).
    clear. intros sl0 sm0 sl1 sm1 om1 om0 ol1 ol0 lk.
    destruct sl0, sm0, sl1, sm1, lk, om1, om0, ol1, ol0; reflexivity.
  - replace (2 * y <=? 2 * y' + 1) with false by (symmetry; apply Z.leb_gt; lia).
    replace (2 * y <=? 2 * y') with false by (symmetry; apply Z.leb_gt; lia).
    cbn [andb negb]. rewrite !andb_true_r, !orb_false_r. reflexivity.
Qed.

Lemma setPixCol_transparent_witness :
  getPixel 3 3 VISIBLE
    (setPixCol (0, 0, 0) 3 2 (pattern2PixCol 0x01 RED_MSB) TRANSPARENT
       (setPixel 3 3 GREEN_MSB (init false (power_on false))))
  = if (3 =? 3) && (2 <=? 3) then
      if color_at (pattern2PixCol 0x01 RED_MSB) (3 - 2) =? BLACK then
        if (2 <? 3) && truthy (red_part (color_at (pattern2PixCol 0x01 RED_MSB) (3 - 2 - 1)))
        then red_part (getPixel 3 3 VISIBLE (setPixel 3 3 GREEN_MSB (init false (power_on false))))
        else getPixel 3 3 VISIBLE (setPixel 3 3 GREEN_MSB (init false (power_on false)))
      else color_at (pattern2PixCol 0x01 RED_MSB) (3 - 2)
    else getPixel 3 3 VISIBLE (setPixel 3 3 GREEN_MSB (init false (power_on false))).
Proof.
  apply setPixCol_transparent; vm_compute; intuition congruence.
Defined.

(** ** The locals of [setPixCol] *)

Lemma setPixCol_out_of_range junk x y pc mode d :
  DIM_X <= x \/ DIM_Y <= y -> setPixCol junk x y pc mode d = d.
Proof.
  intros H. unfold setPixCol. destruct junk as [[? ?] ?].
  destruct (Z.leb_spec DIM_X x); [reflexivity |].
  destruct (Z.leb_spec DIM_Y y); [reflexivity |]. lia.
Qed.

(** X6: what the three unions of [setPixCol] held before the call has no
    effect on the screen, and a column or row outside the display is not
    drawn at all. *)
Theorem setPixCol_locals (junk junk' : Z * Z * Z) (x y : Z) (pc : pixcol_t)
    (mode : Z) (d : DotMatrix.t) :
  0 <= x -> 0 <= y ->
  setPixCol junk x y pc mode d = setPixCol junk' x y pc mode d /\
  (DIM_X <= x \/ DIM_Y <= y -> setPixCol junk x y pc mode d = d).
Proof.
  intros Hx Hy. split; [| apply setPixCol_out_of_range].
  destruct (Z.leb_spec DIM_X x) as [Ox | Ix].
  { rewrite !setPixCol_out_of_range by (left; exact Ox). reflexivity. }
  destruct (Z.leb_spec DIM_Y y) as [Oy | Iy].
  { rewrite !setPixCol_out_of_range by (right; exact Oy). reflexivity. }
  unfold DIM_X, DIM_Y, NUM_BLOCKS_X, NUM_BLOCKS_Y, COLS_PER_BLOCK, ROWS_PER_BLOCK in Ix, Iy.
  rewrite !setPixCol_in_range by lia. reflexivity.
Qed.

Lemma setPixCol_locals_witness :
  setPixCol (0, 0, 0) 5 3 (pattern2PixCol 0xA5 YELLOW) TRANSPARENT (init false (power_on false))
  = setPixCol (0xDEADBEEF, 0xFFFFFFFF, 0x12345678) 5 3 (pattern2PixCol 0xA5 YELLOW)
      TRANSPARENT (init false (power_on false)).
Proof.
  refine (proj1 (setPixCol_locals _ _ 5 3 _ _ _ _ _)); lia.
Defined.

(** ** Graphics blocks *)

Lemma nth_skipn2 (k : nat) (l : list Z) : nth k (skipn 2 l) 0 = nth (2 + k) l 0.
Proof.
  destruct l as [| a [| b l]]; cbn [skipn]; [destruct k; reflexivity | | reflexivity].
  destruct k; reflexivity.
Qed.

Lemma selected_setPixCol junk x y pc mode v d :
  buffer_ok d (scr_wrk d) -> 0 <= x -> 0 <= y ->
  selected v (setPixCol junk x y pc mode d) = selected v d /\
  buffer_ok (setPixCol junk x y pc mode d) (scr_wrk (setPixCol junk x y pc mode d)) /\
  scr_wrk (setPixCol junk x y pc mode d) = scr_wrk d.
Proof.
  intros Hb Hx Hy.
  destruct (setPixCol_frame junk x y pc mode d Hb Hx Hy) as (E1 & E2 & E3 & E4).
  unfold selected, buffer_ok. rewrite E1, E2, E3, E4. auto.
Qed.

Lemma displayGraphics_loop_pixel junk n : forall i graphics pc d x y mode mem x' y' v,
  buffer_ok d (scr_wrk d) ->
  v = VISIBLE \/ v = HIDDEN -> selected v d = scr_wrk d ->
  mode <> TRANSPARENT -> mode <> XOR -> mem = RAM \/ mem = FLASH ->
  0 <= x < 256 -> 0 <= i -> i + Z.of_nat n <= 255 ->
  0 <= y -> 0 <= x' < 16 -> 0 <= y' < 8 ->
  getPixel x' y' v (displayGraphics_loop junk n i x y mode graphics mem pc d) =
    if ((x' - x - i) mod 256 <? Z.of_nat n) && (y <=? y')
    then color_at {| lsb := pgm_read_word graphics (2 * ((x' - x - i) mod 256));
                     msb := pgm_read_word graphics (2 * ((x' - x - i) mod 256) + 1) |}
                  (y' - y)
    else getPixel x' y' v d.
Proof.
  induction n as [| n IH];
    intros i graphics pc d x y mode mem x' y' v Hb Hv Hs Ht Hxor Hm Hx Hi Hlen Hy Hx' Hy'.
  - cbn [displayGraphics_loop].
    replace ((x' - x - i) mod 256 <? Z.of_nat 0) with false; [reflexivity |].
    symmetry. apply Z.ltb_ge. pose proof (Z.mod_pos_bound (x' - x - i) 256 ltac:(lia)). lia.
  - cbn [displayGraphics_loop].
    set (pc1 := {| lsb := nth 0 graphics 0; msb := nth 1 graphics 0 |}).
    assert (Er : (if mem =? RAM then (pc1, skipn 2 graphics)
                  else if mem =? FLASH then (pc1, skipn 2 graphics)
                  else if mem =? EEPROM then ({| lsb := 0; msb := 0 |}, skipn 2 graphics)
                  else (pc, graphics)) = (pc1, skipn 2 graphics)).
    { destruct Hm as [-> | ->]; reflexivity. }
    rewrite Er. clear Er.
    rewrite (u8_small (i + 1)) by lia.
    assert (Hc : 0 <= u8 (x + i) < 256) by (unfold u8; apply Z.mod_pos_bound; lia).
    destruct (selected_setPixCol (junk i) (u8 (x + i)) y pc1 mode v d Hb ltac:(lia) Hy)
      as (Es & Hb1 & Ew).
    assert (Hs1 : selected v (setPixCol (junk i) (u8 (x + i)) y pc1 mode d)
                  = scr_wrk (setPixCol (junk i) (u8 (x + i)) y pc1 mode d))
      by (rewrite Es, Ew; exact Hs).
    rewrite (IH (i + 1) (skipn 2 graphics) pc1 _ x y mode mem x' y' v Hb1 Hv Hs1 Ht Hxor Hm Hx
               ltac:(lia) ltac:(lia) Hy Hx' Hy').
    assert (Hd1 : getPixel x' y' v (setPixCol (junk i) (u8 (x + i)) y pc1 mode d) =
                  if (x' =? u8 (x + i)) && (y <=? y') then color_at pc1 (y' - y)
                  else getPixel x' y' v d).
    { destruct (Z.ltb_spec (u8 (x + i)) 16) as [In | Out].
      - destruct (Z.ltb_spec y 8) as [Iy | Oy].
        + apply getPixel_setPixCol_opaque; (assumption || lia).
        + rewrite setPixCol_out_of_range
            by (right; unfold DIM_Y, NUM_BLOCKS_Y, ROWS_PER_BLOCK; lia).
          replace (y <=? y') with false by (symmetry; apply Z.leb_gt; lia).
          rewrite andb_false_r. reflexivity.
      - rewrite setPixCol_out_of_range by (left; unfold DIM_X, NUM_BLOCKS_X, COLS_PER_BLOCK; lia).
        replace (x' =? u8 (x + i)) with false by (symmetry; apply Z.eqb_neq; lia). reflexivity. }
    rewrite Hd1. clear Hd1.
    assert (Hk : 0 <= (x' - x - i) mod 256 < 256) by (apply Z.mod_pos_bound; lia).
    assert (A1 : x' = u8 (x + i) <-> (x' - x - i) mod 256 = 0).
    { unfold u8. split; intros H; Z.div_mod_to_equations; lia. }
    assert (A2 : (x' - x - i) mod 256 = 0 -> (x' - x - (i + 1)) mod 256 = 255).
    { intros H. Z.div_mod_to_equations. lia. }
    assert (A3 : (x' - x - i) mod 256 <> 0 ->
                 (x' - x - (i + 1)) mod 256 = (x' - x - i) mod 256 - 1).
    { intros H. Z.div_mod_to_equations. lia. }
    unfold pgm_read_word.
    destruct (Z.eqb_spec x' (u8 (x + i))) as [E | Hne].
    + apply A1 in E. rewrite (A2 E), E.
      replace (255 <? Z.of_nat n) with false by (symmetry; apply Z.ltb_ge; lia).
      replace (0 <? Z.of_nat (S n)) with true by (symmetry; apply Z.ltb_lt; lia).
      cbn [andb]. reflexivity.
    + assert (Hk0 : (x' - x - i) mod 256 <> 0) by (intros E; apply Hne, A1, E).
      rewrite (A3 Hk0). cbn [andb].
      set (k := (x' - x - i) mod 256) in *.
      replace (k - 1 <? Z.of_nat n) with (k <? Z.of_nat (S n))
        by (destruct (Z.ltb_spec (k - 1) (Z.of_nat n)), (Z.ltb_spec k (Z.of_nat (S n)));
            try reflexivity; lia).
      destruct (k <? Z.of_nat (S n)); [| reflexivity].
      destruct (y <=? y'); [| reflexivity]. cbn [andb].
      rewrite !nth_skipn2.
      replace (2 + Z.to_nat (2 * (k - 1)))%nat with (Z.to_nat (2 * k)) by lia.
      replace (2 + Z.to_nat (2 * (k - 1) + 1))%nat with (Z.to_nat (2 * k + 1)) by lia.
      reflexivity.
Qed.

(** X7: [displayGraphics] in a mode other than TRANSPARENT and XOR, with
    data in RAM or flash, for any 8-bit [x], [y] and [len].  Data column
    [i] goes to screen column [(x + i) mod 256], the 8-bit value handed to
    [setPixCol]: pixel [(x', y')] of the written buffer takes row [y' - y]
    of data column [(x' - x) mod 256] when that column is below [len] and
    [y <= y'], and keeps its colour otherwise.  Columns that land past the
    right edge are dropped, and a column number that wraps comes back in
    on the left. *)
Theorem displayGraphics_opaque (junk : Z -> Z * Z * Z) (pc0 : pixcol_t)
    (x y mode : Z) (graphics : list Z) (mem len x' y' v : Z) (d : DotMatrix.t) :
  buffer_ok d (scr_wrk d) ->
  v = VISIBLE \/ v = HIDDEN -> selected v d = scr_wrk d ->
  mode <> TRANSPARENT -> mode <> XOR -> mem = RAM \/ mem = FLASH ->
  0 <= x < 256 -> 0 <= y < 256 -> 0 <= len <= 255 ->
  0 <= x' < DIM_X -> 0 <= y' < DIM_Y ->
  getPixel x' y' v (displayGraphics junk pc0 x y mode graphics mem len d) =
    if ((x' - x) mod 256 <? len) && (y <=? y')
    then color_at {| lsb := pgm_read_word graphics (2 * ((x' - x) mod 256));
                     msb := pgm_read_word graphics (2 * ((x' - x) mod 256) + 1) |}
                  (y' - y)
    else getPixel x' y' v d.
Proof.
  intros Hb Hv Hs Ht Hxor Hm Hx Hy Hlen Hx' Hy'.
  unfold DIM_X, DIM_Y, NUM_BLOCKS_X, NUM_BLOCKS_Y, COLS_PER_BLOCK, ROWS_PER_BLOCK in *.
  unfold displayGraphics.
  rewrite displayGraphics_loop_pixel; try assumption; try lia.
  rewrite Z2Nat.id by lia. rewrite !Z.sub_0_r. reflexivity.
Qed.

Lemma displayGraphics_opaque_witness :
  getPixel 1 5 VISIBLE
    (displayGraphics (fun _ => (0, 0, 0)) pixcol_zero 250 0 OPAQUE rainbow FLASH 8
       (init false (power_on false)))
  = if ((1 - 250) mod 256 <? 8) && (0 <=? 5)
    then color_at {| lsb := pgm_read_word rainbow (2 * ((1 - 250) mod 256));
                     msb := pgm_read_word rainbow (2 * ((1 - 250) mod 256) + 1) |} (5 - 0)
    else getPixel 1 5 VISIBLE (init false (power_on false)).
Proof.
  apply displayGraphics_opaque; vm_compute; intuition congruence.
Defined.

(** ** The scan *)

Lemma t_ext (a b : DotMatrix.t) :
  screen a = screen b -> scr_vis a = scr_vis b -> scr_hid a = scr_hid b ->
  scr_wrk a = scr_wrk b -> offset a = offset b -> color a = color b ->
  column a = column b -> bright_cnt a = bright_cnt b -> a = b.
Proof. destruct a, b. cbn. intros. subst. reflexivity. Qed.

Lemma update_frame d :
  screen (snd (update d)) = screen d /\
  scr_vis (snd (update d)) = scr_vis d /\
  scr_hid (snd (update d)) = scr_hid d /\
  scr_wrk (snd (update d)) = scr_wrk d /\
  offset (snd (update d)) = offset d /\
  color (snd (update d)) = color d.
Proof. unfold update. destruct (column d =? 0); cbn; auto 10. Qed.

Lemma update_scan_step d :
  (column (snd (update d)), bright_cnt (snd (update d))) = scan_step (column d, bright_cnt d).
Proof.
  unfold scan_step, update. cbn [fst snd].
  destruct (column d =? 0); reflexivity.
Qed.

Lemma scan_succ n d : scan (S n) d = snd (update (scan n d)).
Proof. unfold scan. rewrite Nat.iter_succ. reflexivity. Qed.

Lemma scan_state n d :
  (column (scan n d), bright_cnt (scan n d)) = Nat.iter n scan_step (column d, bright_cnt d).
Proof.
  induction n as [| n IH]; [reflexivity |].
  unfold scan in *. rewrite !Nat.iter_succ, update_scan_step, IH. reflexivity.
Qed.

Lemma scan_frame n d :
  screen (scan n d) = screen d /\
  scr_vis (scan n d) = scr_vis d /\
  scr_hid (scan n d) = scr_hid d /\
  scr_wrk (scan n d) = scr_wrk d /\
  offset (scan n d) = offset d /\
  color (scan n d) = color d.
Proof.
  induction n as [| n IH]; [cbn; auto 10 |].
  unfold scan in *. rewrite Nat.iter_succ.
  destruct (update_frame (Nat.iter n (fun d => snd (update d)) d)) as (E1 & E2 & E3 & E4 & E5 & E6).
  destruct IH as (F1 & F2 & F3 & F4 & F5 & F6).
  rewrite E1, E2, E3, E4, E5, E6. auto 10.
Qed.

Lemma scan_back c b :
  0 <= c < 8 -> 0 <= b < 4 -> Nat.iter 32 scan_step (c, b) = (c, b).
Proof.
  intros Hc Hb.
  assert (H : forallb (fun c => forallb (fun b =>
                (fst (Nat.iter 32 scan_step (c, b)) =? c)
                && (snd (Nat.iter 32 scan_step (c, b)) =? b)) (seqZ 0 4)) (seqZ 0 8) = true)
    by (vm_compute; reflexivity).
  pose proof (forallb_seqZ _ 0 8 H c ltac:(lia)) as H1. cbn beta in H1.
  pose proof (forallb_seqZ _ 0 4 H1 b ltac:(lia)) as H2. cbn beta in H2.
  apply andb_prop in H2. destruct H2 as [Bc Bb]. apply Z.eqb_eq in Bc, Bb.
  destruct (Nat.iter 32 scan_step (c, b)) as [c' b']. cbn [fst snd] in Bc, Bb.
  subst. reflexivity.
Qed.

Lemma scan_hits c b c' b' :
  0 <= c < 8 -> 0 <= b < 4 -> 0 <= c' < 8 -> 0 <= b' < 4 ->
  exists k, (k < 32)%nat /\
    fst (Nat.iter k scan_step (c, b)) = c' /\ snd (Nat.iter (S k) scan_step (c, b)) = b'.
Proof.
  intros Hc Hb Hc' Hb'.
  assert (H : forallb (fun c => forallb (fun b => forallb (fun c' => forallb (fun b' =>
                existsb (fun k => (fst (Nat.iter k scan_step (c, b)) =? c')
                                  && (snd (Nat.iter (S k) scan_step (c, b)) =? b'))
                        (seq 0 32))
                (seqZ 0 4)) (seqZ 0 8)) (seqZ 0 4)) (seqZ 0 8) = true)
    by (vm_compute; reflexivity).
  pose proof (forallb_seqZ _ 0 8 H c ltac:(lia)) as H1. cbn beta in H1.
  pose proof (forallb_seqZ _ 0 4 H1 b ltac:(lia)) as H2. cbn beta in H2.
  pose proof (forallb_seqZ _ 0 8 H2 c' ltac:(lia)) as H3. cbn beta in H3.
  pose proof (forallb_seqZ _ 0 4 H3 b' ltac:(lia)) as H4. cbn beta in H4.
  apply existsb_exists in H4. destruct H4 as (k & Hk & E).
  apply andb_prop in E. destruct E as [Ec Eb]. apply Z.eqb_eq in Ec, Eb.
  apply in_seq in Hk. exists k. split; [lia | split; assumption].
Qed.

(** X8: [update] never writes to the screen, the pointers or the offset;
    from any scan state in range, 32 consecutive calls drive each of the
    8 columns in each of the 4 sub-frames, and leave the object as it
    was. *)
Theorem update_full_cycle (d : DotMatrix.t) (c b : Z) :
  0 <= column d < COLS_PER_BLOCK -> 0 <= bright_cnt d <= MAX_BRIGHTNESS ->
  0 <= c < COLS_PER_BLOCK -> 0 <= b <= MAX_BRIGHTNESS ->
  screen (snd (update d)) = screen d /\
  scan 32 d = d /\
  exists k, (k < 32)%nat /\
    column (scan k d) = c /\ bright_cnt (snd (update (scan k d))) = b.
Proof.
  unfold COLS_PER_BLOCK, MAX_BRIGHTNESS. intros Hc Hb Hc' Hb'.
  split; [apply update_frame | split].
  - pose proof (scan_state 32 d) as S32.
    rewrite scan_back in S32 by lia.
    destruct (scan_frame 32 d) as (F1 & F2 & F3 & F4 & F5 & F6).
    apply t_ext; try assumption; congruence.
  - destruct (scan_hits (column d) (bright_cnt d) c b) as (k & Hk & Ec & Eb); try lia.
    exists k. split; [exact Hk |].
    rewrite <- (scan_state k d) in Ec. rewrite <- (scan_state (S k) d) in Eb.
    cbn [fst snd] in Ec, Eb. rewrite scan_succ in Eb. split; [exact Ec | exact Eb].
Qed.

Lemma update_full_cycle_witness :
  scan 32 (init false (power_on false)) = init false (power_on false).
Proof.
  refine (proj1 (proj2 (update_full_cycle (init false (power_on false)) 0 0 _ _ _ _)));
    vm_compute; intuition congruence.
Defined.

(** X9: the two words of one call of [update], rightmost block first:
    with offset [o] set by [setOffset] and scan column [column d] they come
    from the visible columns [(o + 8) mod 16 + column d] and that index
    moved by 8 modulo 16.  The first index stays below 16 for every scan
    column exactly when [o] is 0 or at least 8. *)
Theorem update_columns (o : Z) (d : DotMatrix.t) :
  0 <= o < NUM_PIXCOLS -> 0 <= column d < COLS_PER_BLOCK ->
  let d' := setOffset o d in
  let c1 := (o + 8) mod 16 + column d in
  let c2 := (c1 + 8) mod 16 in
  fst (update d') =
    [dither (msb (load d (scr_vis d) c1)) (lsb (load d (scr_vis d) c1))
            (bright_cnt (snd (update d)));
     dither (msb (load d (scr_vis d) c2)) (lsb (load d (scr_vis d) c2))
            (bright_cnt (snd (update d)))] /\
  (c1 < NUM_PIXCOLS <-> o = 0 \/ 8 <= o \/ o + column d < 8).
Proof.
  unfold NUM_PIXCOLS, NUM_BLOCKS, NUM_BLOCKS_X, NUM_BLOCKS_Y, COLS_PER_BLOCK.
  intros Ho Hc. cbv zeta. split.
  - unfold setOffset.
    replace (o <? NUM_PIXCOLS) with true
      by (symmetry; apply Z.ltb_lt;
          unfold NUM_PIXCOLS, NUM_BLOCKS, NUM_BLOCKS_X, NUM_BLOCKS_Y, COLS_PER_BLOCK; lia).
    rewrite (update_words (with_offset o d)) by (cbn [offset column with_offset]; lia).
    cbv zeta. cbn [fst offset column bright_cnt scr_vis with_offset].
    change (load (with_offset o d)) with (load d).
    pose proof (f_equal snd (update_scan_step d)) as Hb.
    unfold scan_step in Hb. cbn [fst snd] in Hb. rewrite Hb. reflexivity.
  - destruct (Z.ltb_spec (o + 8) 16).
    + rewrite Z.mod_small by lia. lia.
    + replace ((o + 8) mod 16) with (o - 8) by (apply Z.mod_unique with 1; lia). lia.
Qed.

Lemma update_columns_witness :
  (0 + 8) mod 16 + column (init false (power_on false)) < NUM_PIXCOLS <->
  0 = 0 \/ 8 <= 0 \/ 0 + column (init false (power_on false)) < 8.
Proof.
  refine (proj2 (update_columns 0 (init false (power_on false)) _ _)); vm_compute; intuition congruence.
Defined.

(** ** Initialisation and the two buffers *)

Lemma clear_from_with_screen n : forall i d,
  clear_from n i d = with_screen (screen (clear_from n i d)) d.
Proof.
  induction n as [| n IH]; intros i d; cbn [clear_from].
  - destruct d; reflexivity.
  - rewrite IH at 1. reflexivity.
Qed.

Lemma clearScreen_with_screen d : clearScreen d = with_screen (screen (clearScreen d)) d.
Proof. unfold clearScreen. apply clear_from_with_screen. Qed.

Lemma length_clearScreen d : length (screen (clearScreen d)) = length (screen d).
Proof. unfold clearScreen. apply clear_from_frame. Qed.

Lemma load_clearScreen d j :
  0 <= scr_wrk d -> 0 <= j -> scr_wrk d + 16 <= Z.of_nat (length (screen d)) ->
  load (clearScreen d) (scr_wrk d) j =
    if j <? 16 then pixcol_zero else load d (scr_wrk d) j.
Proof.
  intros Hp Hj Hl. unfold clearScreen.
  change (Z.to_nat NUM_PIXCOLS) with 16%nat.
  rewrite clear_from_load by lia.
  replace (0 <=? j) with true by (symmetry; apply Z.leb_le; lia).
  reflexivity.
Qed.

Lemma nth_clear_from_below k n : forall i d,
  0 <= i -> (k < Z.to_nat (scr_wrk d + i))%nat ->
  nth k (screen (clear_from n i d)) pixcol_zero = nth k (screen d) pixcol_zero.
Proof.
  induction n as [| n IH]; intros i d Hi Hk; cbn [clear_from]; [reflexivity |].
  rewrite IH; [| lia | exact (ltac:(lia) : (k < Z.to_nat (scr_wrk d + (i + 1)))%nat)].
  unfold store_lsb, store_msb, store. cbn [screen with_screen scr_wrk].
  rewrite !nth_lookup, !list_lookup_insert_ne by lia. reflexivity.
Qed.

Lemma nth_load d k : nth k (screen d) pixcol_zero = load d 0 (Z.of_nat k).
Proof. unfold load. rewrite Z.add_0_l, Nat2Z.id. reflexivity. Qed.

Lemma load_same d p i q j : p + i = q + j -> load d p i = load d q j.
Proof. intros H. unfold load. rewrite H. reflexivity. Qed.

Lemma nth_clearScreen d k :
  0 <= scr_wrk d -> scr_wrk d + 16 <= Z.of_nat (length (screen d)) ->
  nth k (screen (clearScreen d)) pixcol_zero =
    if (scr_wrk d <=? Z.of_nat k) && (Z.of_nat k <? scr_wrk d + 16)
    then pixcol_zero else nth k (screen d) pixcol_zero.
Proof.
  intros Hp Hl.
  destruct (Z.leb_spec (scr_wrk d) (Z.of_nat k)) as [Hle | Hlt]; cbn [andb].
  - rewrite !nth_load.
    rewrite (load_same (clearScreen d) 0 (Z.of_nat k) (scr_wrk d) (Z.of_nat k - scr_wrk d)) by lia.
    rewrite load_clearScreen by lia.
    rewrite (load_same d 0 (Z.of_nat k) (scr_wrk d) (Z.of_nat k - scr_wrk d)) by lia.
    destruct (Z.ltb_spec (Z.of_nat k - scr_wrk d) 16), (Z.ltb_spec (Z.of_nat k) (scr_wrk d + 16));
      try reflexivity; lia.
  - unfold clearScreen. apply nth_clear_from_below; lia.
Qed.

Lemma clearScreen_spec d :
  0 <= scr_wrk d -> scr_wrk d + 16 <= Z.of_nat (length (screen d)) ->
  exists l, clearScreen d = with_screen l d /\ length l = length (screen d) /\
    forall k, nth k l pixcol_zero =
      if (scr_wrk d <=? Z.of_nat k) && (Z.of_nat k <? scr_wrk d + 16)
      then pixcol_zero else nth k (screen d) pixcol_zero.
Proof.
  intros Hp Hl. exists (screen (clearScreen d)). split; [| split].
  - apply clearScreen_with_screen.
  - apply length_clearScreen.
  - intros k. apply nth_clearScreen; assumption.
Qed.

(** [init] with its local rebinding of the object written out. *)
Lemma init_true_form d :
  init true d =
    (fun c2 => {| screen := screen c2; scr_vis := scr_vis c2; scr_hid := scr_hid c2;
                  scr_wrk := scr_wrk c2; offset := offset c2; column := column c2;
                  bright_cnt := bright_cnt c2; color := DEFAULT_COLOR |})
      (with_scan 0 MAX_BRIGHTNESS
         (clearScreen
            (selectScreen VISIBLE
               ((fun c1 => with_ptrs 0 (scr_hid c1) (scr_wrk c1) c1)
                  (clearScreen
                     (selectScreen HIDDEN
                        (with_ptrs (scr_vis d) (NUM_BLOCKS * COLS_PER_BLOCK) (scr_wrk d) d))))))).
Proof. reflexivity. Qed.

Lemma init_false_form d :
  init false d =
    (fun c2 => {| screen := screen c2; scr_vis := scr_vis c2; scr_hid := scr_hid c2;
                  scr_wrk := scr_wrk c2; offset := offset c2; column := column c2;
                  bright_cnt := bright_cnt c2; color := DEFAULT_COLOR |})
      (with_scan 0 MAX_BRIGHTNESS
         (clearScreen
            (selectScreen VISIBLE
               ((fun c1 => with_ptrs 0 (scr_hid c1) (scr_wrk c1) c1)
                  (with_ptrs (scr_vis d) 0 (scr_wrk d) d))))).
Proof. reflexivity. Qed.

(** X10: [init] on an array of the configured size, whatever it holds:
    every column is zeroed, the visible and the working screen are the
    first buffer, the hidden screen is the second buffer if there is one
    and the first otherwise, the scan starts at column 0 in sub-frame 3;
    the offset is left as it is.  Every pixel of both screens reads
    black. *)
Theorem init_state (ENABLE_HIDDEN_SCREEN : bool) (d : DotMatrix.t) (x y v : Z) :
  length (screen d) = Z.to_nat (if ENABLE_HIDDEN_SCREEN
                                then NUM_BLOCKS * COLS_PER_BLOCK * 2
                                else NUM_BLOCKS * COLS_PER_BLOCK) ->
  0 <= x < DIM_X -> 0 <= y < DIM_Y -> v = VISIBLE \/ v = HIDDEN ->
  init ENABLE_HIDDEN_SCREEN d =
    {| screen := repeat pixcol_zero (length (screen d));
       scr_vis := 0;
       scr_hid := if ENABLE_HIDDEN_SCREEN then NUM_BLOCKS * COLS_PER_BLOCK else 0;
       scr_wrk := 0;
       offset := offset d; column := 0; bright_cnt := MAX_BRIGHTNESS;
       color := DEFAULT_COLOR |} /\
  getPixel x y v (init ENABLE_HIDDEN_SCREEN d) = BLACK.
Proof.
  intros Hlen Hx Hy Hv.
  unfold DIM_X, DIM_Y, NUM_BLOCKS_X, NUM_BLOCKS_Y, COLS_PER_BLOCK, ROWS_PER_BLOCK in Hx, Hy.
  assert (E : init ENABLE_HIDDEN_SCREEN d =
    {| screen := repeat pixcol_zero (length (screen d));
       scr_vis := 0;
       scr_hid := if ENABLE_HIDDEN_SCREEN then NUM_BLOCKS * COLS_PER_BLOCK else 0;
       scr_wrk := 0;
       offset := offset d; column := 0; bright_cnt := MAX_BRIGHTNESS;
       color := DEFAULT_COLOR |}).
  { destruct d as [scr vis hid wrk off col bc clr]. cbn [screen offset] in *.
    destruct ENABLE_HIDDEN_SCREEN.
    - change (Z.to_nat (NUM_BLOCKS * COLS_PER_BLOCK * 2)) with 32%nat in Hlen.
      rewrite init_true_form.
      match goal with
      | |- context [clearScreen (selectScreen HIDDEN ?X)] =>
          destruct (clearScreen_spec (selectScreen HIDDEN X)) as (l1 & E1 & L1 & N1);
            [cbv [selectScreen with_ptrs with_screen screen scr_vis scr_hid scr_wrk Z.eqb Pos.eqb
                    VISIBLE HIDDEN NUM_BLOCKS COLS_PER_BLOCK NUM_BLOCKS_X NUM_BLOCKS_Y
                    Z.mul Pos.mul Pos.add]; lia ..|]
      end.
      rewrite E1. clear E1.
      change (NUM_BLOCKS * COLS_PER_BLOCK) with 16 in L1, N1.
      cbn [selectScreen with_ptrs with_screen with_scan screen scr_vis scr_hid scr_wrk offset
             column bright_cnt color Z.eqb Pos.eqb VISIBLE HIDDEN] in L1, N1.
      match goal with
      | |- context [clearScreen ?X] =>
          destruct (clearScreen_spec X) as (l2 & E2 & L2 & N2);
            [cbv [selectScreen with_ptrs with_screen screen scr_vis scr_hid scr_wrk Z.eqb Pos.eqb
                    VISIBLE HIDDEN]; lia ..|]
      end.
      rewrite E2. clear E2.
      cbn [selectScreen with_ptrs with_screen with_scan screen scr_vis scr_hid scr_wrk offset
             column bright_cnt color Z.eqb Pos.eqb VISIBLE HIDDEN] in L2, N2.
      cbv [selectScreen with_ptrs with_screen with_scan screen scr_vis scr_hid scr_wrk offset
             column bright_cnt color Z.eqb Pos.eqb VISIBLE HIDDEN
             NUM_BLOCKS COLS_PER_BLOCK NUM_BLOCKS_X NUM_BLOCKS_Y Z.mul Pos.mul Pos.add].
      f_equal.
      apply nth_ext with pixcol_zero pixcol_zero.
      { rewrite repeat_length, L2, L1. reflexivity. }
      intros k Hk. rewrite L2, L1 in Hk.
      rewrite nth_repeat, N2.
      destruct (Z.ltb_spec (Z.of_nat k) (0 + 16)).
      + replace (0 <=? Z.of_nat k) with true by (symmetry; apply Z.leb_le; lia). reflexivity.
      + rewrite andb_false_r. rewrite N1.
        replace ((16 <=? Z.of_nat k) && (Z.of_nat k <? 16 + 16)) with true; [reflexivity |].
        symmetry. apply andb_true_iff. rewrite Z.leb_le, Z.ltb_lt. lia.
    - change (Z.to_nat (NUM_BLOCKS * COLS_PER_BLOCK)) with 16%nat in Hlen.
      rewrite init_false_form.
      match goal with
      | |- context [clearScreen ?X] =>
          destruct (clearScreen_spec X) as (l2 & E2 & L2 & N2);
            [cbv [selectScreen with_ptrs with_screen screen scr_vis scr_hid scr_wrk Z.eqb Pos.eqb
                    VISIBLE HIDDEN]; lia ..|]
      end.
      rewrite E2. clear E2.
      cbn [selectScreen with_ptrs with_screen with_scan screen scr_vis scr_hid scr_wrk offset
             column bright_cnt color Z.eqb Pos.eqb VISIBLE HIDDEN] in L2, N2.
      cbv [selectScreen with_ptrs with_screen with_scan screen scr_vis scr_hid scr_wrk offset
             column bright_cnt color Z.eqb Pos.eqb VISIBLE HIDDEN].
      f_equal.
      apply nth_ext with pixcol_zero pixcol_zero.
      { rewrite repeat_length, L2. reflexivity. }
      intros k Hk. rewrite L2 in Hk.
      rewrite nth_repeat, N2.
      replace ((0 <=? Z.of_nat k) && (Z.of_nat k <? 0 + 16)) with true; [reflexivity |].
      symmetry. apply andb_true_iff. rewrite Z.leb_le, Z.ltb_lt. lia. }
  split; [exact E |].
  rewrite E. rewrite getPixel_in_range by (assumption || lia).
  unfold load. cbn [screen]. rewrite nth_repeat. apply color_at_zero.
Qed.

Lemma init_state_witness :
  getPixel 9 4 HIDDEN (init true (power_on true)) = BLACK.
Proof.
  refine (proj2 (init_state true (power_on true) 9 4 HIDDEN _ _ _ _));
    vm_compute; intuition congruence.
Defined.

Lemma swapScreen_fields d :
  screen (swapScreen d) = screen d /\
  scr_vis (swapScreen d) = scr_hid d /\
  scr_hid (swapScreen d) = scr_vis d /\
  scr_wrk (swapScreen d) = (if scr_wrk d =? scr_hid d then scr_vis d else scr_hid d).
Proof.
  unfold swapScreen. cbv zeta. unfold with_ptrs.
  cbn [screen scr_vis scr_hid scr_wrk].
  destruct (scr_wrk d =? scr_hid d); cbn [screen scr_vis scr_hid scr_wrk]; auto.
Qed.

Lemma getPixel_swapScreen x y d :
  0 <= x < 16 -> 0 <= y < 8 ->
  getPixel x y VISIBLE (swapScreen d) = getPixel x y HIDDEN d.
Proof.
  intros Hx Hy. rewrite !getPixel_in_range by auto.
  destruct (swapScreen_fields d) as (Es & Ev & _).
  unfold selected, load. change (VISIBLE =? VISIBLE) with true. change (HIDDEN =? VISIBLE) with false.
  cbv iota. rewrite Es, Ev. reflexivity.
Qed.

(** X11: drawing on the hidden buffer of a double-buffered display.
    While the working screen is the hidden one and the two buffers do not
    overlap, [setPixel] leaves the visible screen as it is; after
    [swapScreen] the visible screen shows the hidden one with the new
    pixel, and drawing goes on in the buffer that was visible. *)
Theorem hidden_draw_then_swap (d : DotMatrix.t) (x y c x' y' : Z) :
  buffer_ok d (scr_vis d) -> buffer_ok d (scr_hid d) ->
  scr_vis d + NUM_PIXCOLS <= scr_hid d \/ scr_hid d + NUM_PIXCOLS <= scr_vis d ->
  scr_wrk d = scr_hid d ->
  0 <= x < DIM_X -> 0 <= y < DIM_Y -> 0 <= x' < DIM_X -> 0 <= y' < DIM_Y -> 0 <= c < 16 ->
  getPixel x' y' VISIBLE (setPixel x y c d) = getPixel x' y' VISIBLE d /\
  getPixel x' y' VISIBLE (swapScreen (setPixel x y c d)) =
    (if (x' =? x) && (y' =? y) then c else getPixel x' y' HIDDEN d) /\
  scr_wrk (swapScreen (setPixel x y c d)) = scr_vis d.
Proof.
  unfold DIM_X, DIM_Y, NUM_PIXCOLS, NUM_BLOCKS, NUM_BLOCKS_X, NUM_BLOCKS_Y, COLS_PER_BLOCK,
    ROWS_PER_BLOCK.
  intros Hbv Hbh Hdis Hw Hx Hy Hx' Hy' Hc.
  assert (Hbw : buffer_ok d (scr_wrk d)) by (rewrite Hw; exact Hbh).
  split; [| split].
  - rewrite setPixel_in_range by (assumption || lia).
    rewrite !getPixel_in_range by (auto; lia).
    rewrite selected_store. unfold selected. change (VISIBLE =? VISIBLE) with true. cbv iota.
    rewrite load_store_ne; [reflexivity |].
    destruct Hbv as [Hv0 _], Hbh as [Hh0 _]. rewrite Hw. lia.
  - rewrite getPixel_swapScreen by lia.
    assert (Hs : selected HIDDEN d = scr_wrk d).
    { unfold selected. change (HIDDEN =? VISIBLE) with false. cbv iota. symmetry. exact Hw. }
    apply getPixel_setPixel; auto.
  - destruct (swapScreen_fields (setPixel x y c d)) as (_ & _ & _ & ->).
    rewrite setPixel_in_range by (assumption || lia).
    destruct (store_frame (scr_wrk d) x
                {| lsb := put2 (lsb (load d (scr_wrk d) x)) (2 ^ (2 * y)) (2 ^ (2 * y + 1))
                            (truthy (Z.land c 1)) (truthy (Z.land c 4));
                   msb := put2 (msb (load d (scr_wrk d) x)) (2 ^ (2 * y)) (2 ^ (2 * y + 1))
                            (truthy (Z.land c 2)) (truthy (Z.land c 8)) |} d)
      as (-> & -> & -> & _).
    rewrite Hw, Z.eqb_refl. reflexivity.
Qed.

Lemma hidden_draw_then_swap_witness :
  getPixel 4 2 VISIBLE
    (swapScreen (setPixel 4 2 ORANGE (selectScreen HIDDEN (init true (power_on true)))))
  = ORANGE.
Proof.
  refine (proj1 (proj2 (hidden_draw_then_swap
                          (selectScreen HIDDEN (init true (power_on true)))
                          4 2 ORANGE 4 2 _ _ _ _ _ _ _ _ _)));
    vm_compute; intuition congruence.
Defined.

(** ** Waiting *)

(** X12: [wait] lets go after [ms * 5 / 2] timer ticks (rounded down,
    modulo 65536), that is 2.5 ticks per millisecond; up to 26214 ms
    nothing wraps. *)
Theorem wait_ticks (ms timer : Z) :
  0 <= ms < 65536 -> 0 <= timer < 65536 ->
  u16 (wait ms timer - timer) = (5 * ms / 2) mod 65536 /\
  (ms <= 26214 -> u16 (wait ms timer - timer) = 5 * ms / 2).
Proof.
  intros Hms Ht.
  assert (E : u16 (wait ms timer - timer) = (5 * ms / 2) mod 65536).
  { unfold wait, u16. rewrite Z.shiftl_mul_pow2, Z.shiftr_div_pow2 by lia.
    change (2 ^ 1) with 2.
    Z.div_mod_to_equations. lia. }
  split; [exact E |].
  intros Hs. rewrite E. apply Z.mod_small.
  split; [apply Z.div_pos; lia |].
  apply Z.div_lt_upper_bound; lia.
Qed.

Lemma wait_ticks_witness :
  u16 (wait 400 65000 - 65000) = 5 * 400 / 2.
Proof.
  refine (proj2 (wait_ticks 400 65000 _ _) _); lia.
Defined.

(** ** The inclination switch *)

Lemma pin3_cases pina :
  Z.land pina (Z.shiftl 1 INCL_PIN) = (if Z.testbit pina 3 then 8 else 0).
Proof.
  change (Z.shiftl 1 INCL_PIN) with (2 ^ 3).
  rewrite land_pow2 by lia. reflexivity.
Qed.

(** X13: [sense_gravity] reports a change exactly when bit 3 of the port
    differs from the stored sensor state; it then stores the bit and sets
    gravity DOWN for a high pin and UP for a low one, touching nothing
    else, and an immediate second call with the same port value reports
    no change.  With the sensor state inverted as [main] does before its
    first call, that call always reports a change. *)
Theorem sense_gravity_edge (pina sensor : Z) (g : globals) :
  0 <= pina < 256 ->
  let r := sense_gravity pina sensor g in
  fst (fst r) = (if Z.land pina 8 =? sensor then 0 else 1) /\
  snd (fst r) = Z.land pina 8 /\
  (fst (fst r) = 0 -> snd r = g) /\
  (fst (fst r) = 1 ->
     gravity (snd r) = (if Z.testbit pina 3 then DOWN else UP) /\
     dm (snd r) = dm g /\ rnd (snd r) = rnd g /\ side (snd r) = side g /\
     static_counter (snd r) = static_counter g) /\
  sense_gravity pina (snd (fst r)) (snd r) = (0, snd (fst r), snd r) /\
  fst (fst (sense_gravity pina (inverted_sensor pina) g)) = 1.
Proof.
  intros Hp. cbv zeta. unfold sense_gravity.
  change (Z.shiftl 1 INCL_PIN) with 8.
  assert (H8 : Z.land pina 8 = if Z.testbit pina 3 then 8 else 0) by apply pin3_cases.
  assert (Hinv : inverted_sensor pina = if Z.testbit pina 3 then 0 else 8).
  { unfold inverted_sensor. change (Z.shiftl 1 INCL_PIN) with (2 ^ 3).
    rewrite land_pow2 by lia. rewrite Z.lnot_spec by lia.
    destruct (Z.testbit pina 3); reflexivity. }
  destruct (Z.eqb_spec (Z.land pina 8) sensor) as [E | N]; cbn [fst snd].
  - split; [reflexivity |]. split; [symmetry; exact E |].
    split; [reflexivity |]. split; [discriminate |].
    split.
    + rewrite E, Z.eqb_refl. reflexivity.
    + rewrite Hinv, H8. destruct (Z.testbit pina 3); reflexivity.
  - split; [reflexivity |]. split; [reflexivity |].
    split; [discriminate |]. split.
    + intros _. rewrite H8.
      destruct (Z.testbit pina 3); cbn [gravity dm rnd side static_counter]; auto.
    + split.
      * rewrite Z.eqb_refl. reflexivity.
      * rewrite Hinv, H8. destruct (Z.testbit pina 3); reflexivity.
Qed.

Lemma sense_gravity_edge_witness :
  fst (fst (sense_gravity 0x0F (inverted_sensor 0x0F)
              {| dm := init false (power_on false); gravity := UP; rnd := RANDOM_SEED;
                 side := 0; static_counter := 0 |})) = 1.
Proof.
  refine (proj2 (proj2 (proj2 (proj2 (proj2 (sense_gravity_edge 0x0F (inverted_sensor 0x0F) _ _))))));
    lia.
Defined.

(** ** Turning the glass *)

Lemma orient_turn gv x y bulb :
  gv = DOWN \/ gv = UP -> bulb = UPPER \/ bulb = LOWER -> 0 <= x < 8 -> 0 <= y < 8 ->
  orient (1 - gv) x y bulb = orient gv (7 - x) (7 - y) (1 - bulb).
Proof.
  intros Hg Hb Hx Hy. rewrite !orient_arith by lia.
  destruct Hg as [-> | ->], Hb as [-> | ->]; unfold DOWN, UP, UPPER, LOWER;
    change (1 - 0) with 1; change (1 - 1) with 0;
    change (1 =? 1) with true; change (0 =? 1) with false; lxor_cases;
    cbv iota; f_equal; lia.
Qed.

(** X14: when [sense_gravity] reports that the glass was turned from one
    orientation to the other, nothing on the display moves: cell
    [(x, y)] of a bulb is from then on the pixel that was cell
    [(7 - x, 7 - y)] of the other bulb. *)
Theorem turned_glass (pina sensor : Z) (g : globals) (x y bulb : Z) :
  gravity g = DOWN \/ gravity g = UP -> logical x y bulb ->
  let g' := snd (sense_gravity pina sensor g) in
  gravity g' <> gravity g ->
  get_pixel x y bulb g' = get_pixel (7 - x) (7 - y) (1 - bulb) g.
Proof.
  intros Hg (Hx & Hy & Hb). cbv zeta. unfold sense_gravity.
  destruct (Z.land pina (Z.shiftl 1 INCL_PIN) =? sensor); cbn [snd]; [congruence |].
  intros Hne.
  rewrite !get_pixel_in by lia.
  destruct (truthy (Z.land pina (Z.shiftl 1 INCL_PIN))); cbn [gravity dm] in *.
  - destruct Hg as [Hg | Hg]; [congruence |]. rewrite Hg.
    change DOWN with (1 - UP). rewrite orient_turn by (auto; lia). reflexivity.
  - destruct Hg as [Hg | Hg]; [| congruence]. rewrite Hg.
    change UP with (1 - DOWN) at 1 2. rewrite orient_turn by (auto; lia). reflexivity.
Qed.

Lemma turned_glass_witness :
  get_pixel 7 7 UPPER (snd (sense_gravity 0 8 (glob (boot DOWN 463 0))))
  = get_pixel (7 - 7) (7 - 7) (1 - UPPER) (glob (boot DOWN 463 0)).
Proof.
  apply (turned_glass 0 8 (glob (boot DOWN 463 0)) 7 7 UPPER).
  - left. reflexivity.
  - unfold logical. split; [lia | split; [lia | left; reflexivity]].
  - vm_compute. discriminate.
Defined.

(** ** Time settings *)

(** X15: for a setting of [m] minutes (at most MAX_MINUTES) and [q]
    quarters, [get_drop_cycle] reads inside the table and returns the
    cycle of [60 m + 15 q] seconds, 10 seconds for the setting 0:0; the
    simulation runs at double speed exactly for the settings below 30
    seconds; and 54 cycles differ from the time set by at most 27 timer
    ticks. *)
Theorem get_drop_cycle_table (m q : Z) :
  0 <= m <= MAX_MINUTES -> 0 <= q <= 3 ->
  Z.shiftl m 2 + q < Z.of_nat (length times) /\
  fst (get_drop_cycle m q) = DROP_CYCLE (seconds m q) /\
  snd (get_drop_cycle m q) = (if seconds m q <? 30 then Z.shiftr SIM_SPEED 1 else SIM_SPEED) /\
  Z.abs (GRAINS_TOTAL * fst (get_drop_cycle m q) - DM_REFRESH_FREQ * seconds m q) <= 27.
Proof.
  unfold MAX_MINUTES. intros Hm Hq.
  assert (H : forallb (fun m => forallb (fun q =>
                (Z.shiftl m 2 + q <? Z.of_nat (length times))
                && (fst (get_drop_cycle m q) =? DROP_CYCLE (seconds m q))
                && (snd (get_drop_cycle m q)
                    =? (if seconds m q <? 30 then Z.shiftr SIM_SPEED 1 else SIM_SPEED))
                && (Z.abs (GRAINS_TOTAL * fst (get_drop_cycle m q)
                           - DM_REFRESH_FREQ * seconds m q) <=? 27))
              (seqZ 0 4)) (seqZ 0 6) = true) by (vm_compute; reflexivity).
  pose proof (forallb_seqZ _ 0 6 H m ltac:(lia)) as H1. cbn beta in H1.
  pose proof (forallb_seqZ _ 0 4 H1 q ltac:(lia)) as H2. cbn beta in H2.
  apply andb_prop in H2. destruct H2 as [H2 H5].
  apply andb_prop in H2. destruct H2 as [H2 H4].
  apply andb_prop in H2. destruct H2 as [H2 H3].
  apply Z.ltb_lt in H2. apply Z.eqb_eq in H3, H4. apply Z.leb_le in H5.
  auto.
Qed.

Lemma get_drop_cycle_table_witness :
  fst (get_drop_cycle 5 3) = DROP_CYCLE (seconds 5 3).
Proof.
  refine (proj1 (proj2 (get_drop_cycle_table 5 3 _ _))); unfold MAX_MINUTES; lia.
Defined.

Lemma press_ok (b : bool) mode s :
  0 <= minute s <= 5 /\ 0 <= quarter s <= 3 ->
  0 <= minute (snd (if b then button_S1 mode s else button_S2 mode s)) <= 5 /\
  0 <= quarter (snd (if b then button_S1 mode s else button_S2 mode s)) <= 3.
Proof.
  intros [Hm Hq]. destruct b; unfold button_S1, button_S2, MAX_MINUTES.
  - destruct (mode =? SET); cbn [snd minute quarter]; [| lia].
    rewrite u8_small by lia. destruct (Z.ltb_spec 5 (minute s + 1)); lia.
  - destruct (mode =? SET); cbn [snd minute quarter]; [| lia].
    rewrite u8_small by lia. destruct (Z.ltb_spec 3 (quarter s + 1)); lia.
Qed.

Lemma presses_ok bs : forall st,
  0 <= minute (snd st) <= 5 /\ 0 <= quarter (snd st) <= 3 ->
  0 <= minute (snd (presses bs st)) <= 5 /\ 0 <= quarter (snd (presses bs st)) <= 3.
Proof.
  induction bs as [| b bs IH]; intros st H; [exact H |].
  unfold presses in *. cbn [fold_left]. apply IH.
  apply press_ok. exact H.
Qed.

(** X16: whatever the two EEPROM bytes hold and however often S1 and S2
    are pressed, in whatever mode, the setting stays within 0..MAX_MINUTES
    minutes and 0..3 quarters; the table is then read within its first 24
    entries and the drop cycle is at least 463 ticks. *)
Theorem setting_stays_in_table (ee0 ee1 mode : Z) (bs : list bool) :
  0 <= ee0 < 256 -> 0 <= ee1 < 256 ->
  let s := snd (presses bs (mode, read_setting ee0 ee1)) in
  0 <= minute s <= MAX_MINUTES /\ 0 <= quarter s <= 3 /\
  Z.shiftl (minute s) 2 + quarter s < 24 /\
  463 <= fst (get_drop_cycle (minute s) (quarter s)).
Proof.
  intros H0 H1. cbv zeta.
  assert (Hr : 0 <= minute (read_setting ee0 ee1) <= 5 /\
               0 <= quarter (read_setting ee0 ee1) <= 3).
  { unfold read_setting, MAX_MINUTES. cbn [minute quarter]. split.
    - destruct (Z.ltb_spec 5 ee0); lia.
    - change 3 with (Z.ones 2). rewrite Z.land_ones by lia.
      pose proof (Z.mod_pos_bound ee1 (2 ^ 2) ltac:(lia)). change (2 ^ 2) with 4 in *.
      change (Z.ones 2) with 3. lia. }
  pose proof (presses_ok bs (mode, read_setting ee0 ee1) Hr) as [Hm Hq].
  set (s := snd (presses bs (mode, read_setting ee0 ee1))) in *.
  unfold MAX_MINUTES. split; [exact Hm | split; [exact Hq |]].
  split.
  - rewrite Z.shiftl_mul_pow2 by lia. change (2 ^ 2) with 4. lia.
  - assert (H : forallb (fun m => forallb (fun q => 463 <=? fst (get_drop_cycle m q))
                                  (seqZ 0 4)) (seqZ 0 6) = true) by (vm_compute; reflexivity).
    pose proof (forallb_seqZ _ 0 6 H (minute s) ltac:(lia)) as H2. cbn beta in H2.
    pose proof (forallb_seqZ _ 0 4 H2 (quarter s) ltac:(lia)) as H3. cbn beta in H3.
    apply Z.leb_le in H3. exact H3.
Qed.

Lemma setting_stays_in_table_witness :
  463 <= fst (get_drop_cycle
                (minute (snd (presses [true; true; false; true] (RUN, read_setting 0xFF 0xFF))))
                (quarter (snd (presses [true; true; false; true] (RUN, read_setting 0xFF 0xFF))))).
Proof.
  refine (proj2 (proj2 (proj2 (setting_stays_in_table 0xFF 0xFF RUN [true; true; false; true] _ _))));
    lia.
Defined.

(** ** The upper bulb *)

Lemma total_zero_iff (f : Z * Z -> Z) l :
  (forall p, 0 <= f p) ->
  (total f l = 0 <-> forall p, In p l -> f p = 0).
Proof.
  intros Hf. induction l as [| q l IH]; cbn [total].
  - split; [intros _ p [] | reflexivity].
  - pose proof (Hf q) as Hq. pose proof (total_nonneg f l Hf) as Hn. split.
    + intros H p [<- | Hp]; [lia |]. apply IH; [lia | exact Hp].
    + intros H. rewrite (H q) by (left; reflexivity).
      rewrite (proj2 IH); [reflexivity |]. intros p Hp. apply H. right. exact Hp.
Qed.

Lemma lit_cases c : (lit c = 0 /\ c = BLACK) \/ (lit c = 1 /\ c <> BLACK).
Proof. unfold lit. destruct (Z.eqb_spec c BLACK); auto. Qed.

(** X17: [upper_bulb_empty] answers 1 exactly when every cell of the
    upper bulb reads black, that is when the bulb holds no grain, and 0
    otherwise. *)
Theorem upper_bulb_empty_spec (g : globals) :
  (upper_bulb_empty g = 1 <->
     forall x y, 0 <= x < 8 -> 0 <= y < 8 -> get_pixel x y UPPER g = BLACK) /\
  (upper_bulb_empty g = 1 <-> grains_in UPPER g = 0) /\
  (upper_bulb_empty g <> 1 -> upper_bulb_empty g = 0).
Proof.
  assert (A : upper_bulb_empty g = 1 <->
              forall x y, 0 <= x < 8 -> 0 <= y < 8 -> get_pixel x y UPPER g = BLACK).
  { unfold upper_bulb_empty.
    destruct (existsb (fun y => existsb (fun x => negb (get_pixel x y UPPER g =? BLACK))
                                        (seqZ 0 8)) (seqZ 0 8)) eqn:Ex.
    - split; [discriminate |]. intros H. exfalso.
      apply existsb_exists in Ex. destruct Ex as (y & Hy & Ex).
      apply existsb_exists in Ex. destruct Ex as (x & Hx & Ex).
      apply list_elem_of_In, elem_of_seqZ in Hx, Hy.
      rewrite (H x y) in Ex by lia. discriminate Ex.
    - split; [| reflexivity]. intros _ x y Hx Hy.
      destruct (Z.eqb_spec (get_pixel x y UPPER g) BLACK) as [E | N]; [exact E |].
      exfalso. apply Bool.not_true_iff_false in Ex. apply Ex.
      apply existsb_exists. exists y. split; [apply list_elem_of_In, elem_of_seqZ; lia |].
      apply existsb_exists. exists x. split; [apply list_elem_of_In, elem_of_seqZ; lia |].
      apply Z.eqb_neq in N. rewrite N. reflexivity. }
  split; [exact A | split].
  - rewrite A. unfold grains_in. rewrite total_zero_iff.
    + split.
      * intros H p Hp. apply In_bulb_cells in Hp. rewrite H by lia. reflexivity.
      * intros H x y Hx Hy. specialize (H (x, y)). cbn [fst snd] in H.
        destruct (lit_cases (get_pixel x y UPPER g)) as [[_ E] | [E _]]; [exact E |].
        rewrite H in E; [discriminate |]. apply In_bulb_cells. cbn [fst snd]. lia.
    + intros p. destruct (lit_cases (get_pixel (fst p) (snd p) UPPER g)) as [[-> _] | [-> _]]; lia.
  - unfold upper_bulb_empty. destruct (existsb _ _); [reflexivity | contradiction].
Qed.

(** ** Grains bulb by bulb *)

Lemma NoDup_bulb_cells : NoDup bulb_cells.
Proof. apply (bool_decide_eq_true_1 (NoDup bulb_cells)). vm_compute. reflexivity. Qed.

Lemma grains_in_weighted bulb g : grains_in bulb g = weighted (fun _ => 1) bulb g.
Proof.
  unfold grains_in, weighted. apply total_ext. intros p _. lia.
Qed.

Lemma orient_other_bulb gv x y bulb x' y' bulb' :
  gv = DOWN \/ gv = UP -> bulb = UPPER \/ bulb = LOWER -> bulb' = UPPER \/ bulb' = LOWER ->
  bulb' <> bulb ->
  0 <= x < 8 -> 0 <= y < 8 -> 0 <= x' < 8 -> 0 <= y' < 8 ->
  orient gv x' y' bulb' <> orient gv x y bulb.
Proof.
  intros Hg Hb Hb' Hne Hx Hy Hx' Hy'. rewrite !orient_arith by lia.
  destruct Hg as [-> | ->], Hb as [-> | ->], Hb' as [-> | ->];
    try contradiction; unfold DOWN, UP, UPPER, LOWER;
    change (1 =? 1) with true; change (0 =? 1) with false; lxor_cases;
    cbv iota; intros E; injection E; lia.
Qed.

(** One pixel write changes the weighted count of its own bulb by the
    weight of the cell, and leaves the other bulb alone. *)
Lemma weighted_set_pixel w b x y bulb c g :
  display_ok (dm g) -> gravity g = DOWN \/ gravity g = UP ->
  b = UPPER \/ b = LOWER -> bulb = UPPER \/ bulb = LOWER ->
  0 <= x < 8 -> 0 <= y < 8 -> 0 <= c < 16 ->
  weighted w b (set_pixel x y bulb c g) =
    weighted w b g
    + (if b =? bulb then w (x, y) * (lit c - lit (get_pixel x y bulb g)) else 0).
Proof.
  intros Hd Hg Hb Hbulb Hx Hy Hc. unfold weighted.
  destruct (Z.eqb_spec b bulb) as [-> | Hne].
  - rewrite (total_update
               (fun p => w p * lit (get_pixel (fst p) (snd p) bulb g))
               (fun p => w p * lit (get_pixel (fst p) (snd p) bulb (set_pixel x y bulb c g)))
               bulb_cells (x, y)).
    + cbn [fst snd]. rewrite get_pixel_set_pixel by assumption.
      rewrite !Z.eqb_refl. cbn [andb]. lia.
    + apply NoDup_bulb_cells.
    + apply In_bulb_cells. cbn [fst snd]. lia.
    + intros p Hp Hpne. apply In_bulb_cells in Hp.
      rewrite get_pixel_set_pixel by (assumption || lia).
      destruct (Z.eqb_spec (fst p) x) as [E1 | N1]; [| reflexivity].
      destruct (Z.eqb_spec (snd p) y) as [E2 | N2]; [| reflexivity].
      exfalso. apply Hpne. destruct p. cbn [fst snd] in *. congruence.
  - rewrite Z.add_0_r. apply total_ext. intros p Hp. apply In_bulb_cells in Hp.
    rewrite get_pixel_set_pixel_other; try assumption; try lia.
    apply orient_other_bulb; auto; lia.
Qed.

(** A grain moved to an empty cell takes its weight along. *)
Lemma weighted_shift w b x1 y1 x2 y2 bulb g :
  display_ok (dm g) -> gravity g = DOWN \/ gravity g = UP ->
  b = UPPER \/ b = LOWER -> bulb = UPPER \/ bulb = LOWER ->
  0 <= x1 < 8 -> 0 <= y1 < 8 -> 0 <= x2 -> 0 <= y2 ->
  x1 <> x2 \/ y1 <> y2 ->
  get_pixel x1 y1 bulb g <> BLACK -> get_pixel x2 y2 bulb g = BLACK ->
  weighted w b (shift x1 y1 x2 y2 bulb g) =
    weighted w b g + (if b =? bulb then w (x2, y2) - w (x1, y1) else 0).
Proof.
  intros Hd Hg Hb Hbulb Hx1 Hy1 Hx2 Hy2 Hne N E.
  destruct (black_in_bulb x2 y2 bulb g Hx2 Hy2 E) as [Hx2' Hy2'].
  unfold shift.
  destruct (set_pixel_frame x1 y1 bulb BLACK g) as (Eg & _).
  rewrite weighted_set_pixel;
    [| apply display_ok_set_pixel; exact Hd | rewrite Eg; exact Hg | assumption | assumption
     | assumption | assumption | unfold ORANGE; lia].
  rewrite get_pixel_set_pixel by (assumption || unfold BLACK; lia).
  rewrite weighted_set_pixel by (assumption || unfold BLACK; lia).
  replace ((x2 =? x1) && (y2 =? y1)) with false
    by (symmetry; apply andb_false_iff; rewrite !Z.eqb_neq; lia).
  rewrite E, (lit_nonblack _ N).
  change (lit BLACK) with 0. change (lit ORANGE) with 1.
  destruct (b =? bulb); lia.
Qed.

Lemma simulate_grain_weighted w b x0 y0 bulb g :
  display_ok (dm g) -> gravity g = DOWN \/ gravity g = UP ->
  b = UPPER \/ b = LOWER -> bulb = UPPER \/ bulb = LOWER ->
  let x := Z.land x0 7 in
  let y := Z.land y0 7 in
  exists x2 y2,
    (x2 = x \/ x2 = x + 1) /\ (y2 = y \/ y2 = y + 1) /\
    weighted w b (snd (simulate_grain x0 y0 bulb g)) =
      weighted w b g + (if b =? bulb then w (x2, y2) - w (x, y) else 0).
Proof.
  intros Hd Hg Hb Hbulb x y.
  pose proof (land7_range x0) as Hx. pose proof (land7_range y0) as Hy.
  fold x in Hx. fold y in Hy.
  destruct (simulate_grain_cases x0 y0 bulb g) as [_ H]. cbv zeta in H.
  fold x in H. fold y in H.
  destruct H as [(E0 & ->) | [(N0 & E1 & ->) | [(N0 & N1 & E2 & ->) | [(N0 & N1 & N2 & E3 & ->) | (N0 & N1 & N2 & N3 & ->)]]]].
  - exists x, y. split; [auto | split; [auto |]].
    change (weighted w b (with_counter ?v g)) with (weighted w b g).
    destruct (b =? bulb); lia.
  - exists (x + 1), (y + 1). split; [auto | split; [auto |]].
    change (weighted w b (with_counter 0 ?h)) with (weighted w b h).
    apply weighted_shift; try assumption; lia.
  - exists (fst (if truthy (side g) then (x + 1, y) else (x, y + 1))),
           (snd (if truthy (side g) then (x + 1, y) else (x, y + 1))).
    split; [destruct (truthy (side g)); cbn [fst]; auto |].
    split; [destruct (truthy (side g)); cbn [snd]; auto |].
    change (weighted w b (with_counter 0 ?h)) with (weighted w b h).
    rewrite weighted_shift; try assumption;
      try (destruct (truthy (side g)); cbn [fst snd]; lia).
    change (weighted w b (with_side ?v g)) with (weighted w b g). reflexivity.
  - exists (fst (if truthy (side g) then (x, y + 1) else (x + 1, y))),
           (snd (if truthy (side g) then (x, y + 1) else (x + 1, y))).
    split; [destruct (truthy (side g)); cbn [fst]; auto |].
    split; [destruct (truthy (side g)); cbn [snd]; auto |].
    change (weighted w b (with_counter 0 ?h)) with (weighted w b h).
    rewrite weighted_shift; try assumption;
      try (destruct (truthy (side g)); cbn [fst snd]; lia).
    change (weighted w b (with_side ?v g)) with (weighted w b g). reflexivity.
  - exists x, y. split; [auto | split; [auto |]].
    rewrite weighted_set_pixel; try assumption; [| unfold YELLOW; lia].
    rewrite get_pixel_with_counter, get_pixel_with_side, (lit_nonblack _ N0).
    change (lit YELLOW) with 1.
    change (weighted w b (with_counter ?v (with_side ?u g))) with (weighted w b g).
    destruct (b =? bulb); lia.
Qed.

(** A pixel write in one bulb is not seen in the other. *)
Lemma set_pixel_other_bulb x y bulb c x' y' b g :
  display_ok (dm g) -> gravity g = DOWN \/ gravity g = UP ->
  bulb = UPPER \/ bulb = LOWER -> b = UPPER \/ b = LOWER -> b <> bulb ->
  0 <= x < 8 -> 0 <= y < 8 -> 0 <= x' < 8 -> 0 <= y' < 8 -> 0 <= c < 16 ->
  get_pixel x' y' b (set_pixel x y bulb c g) = get_pixel x' y' b g.
Proof.
  intros Hd Hg Hbulb Hb Hne Hx Hy Hx' Hy' Hc.
  apply get_pixel_set_pixel_other; try assumption.
  apply orient_other_bulb; assumption.
Qed.

Lemma shift_other_bulb x1 y1 x2 y2 bulb x' y' b g :
  display_ok (dm g) -> gravity g = DOWN \/ gravity g = UP ->
  bulb = UPPER \/ bulb = LOWER -> b = UPPER \/ b = LOWER -> b <> bulb ->
  0 <= x1 < 8 -> 0 <= y1 < 8 -> 0 <= x2 < 8 -> 0 <= y2 < 8 -> 0 <= x' < 8 -> 0 <= y' < 8 ->
  get_pixel x' y' b (shift x1 y1 x2 y2 bulb g) = get_pixel x' y' b g.
Proof.
  intros Hd Hg Hbulb Hb Hne Hx1 Hy1 Hx2 Hy2 Hx' Hy'. unfold shift.
  destruct (set_pixel_frame x1 y1 bulb BLACK g) as (Eg & _).
  rewrite set_pixel_other_bulb;
    [| apply display_ok_set_pixel; exact Hd | rewrite Eg; exact Hg | assumption | assumption
     | assumption | assumption | assumption | assumption | assumption | unfold ORANGE; lia].
  apply set_pixel_other_bulb; try assumption. unfold BLACK. lia.
Qed.

Lemma simulate_grain_other_bulb x0 y0 bulb b x' y' g :
  display_ok (dm g) -> gravity g = DOWN \/ gravity g = UP ->
  bulb = UPPER \/ bulb = LOWER -> b = UPPER \/ b = LOWER -> b <> bulb ->
  0 <= x' < 8 -> 0 <= y' < 8 ->
  get_pixel x' y' b (snd (simulate_grain x0 y0 bulb g)) = get_pixel x' y' b g.
Proof.
  intros Hd Hg Hbulb Hb Hne Hx' Hy'.
  pose proof (land7_range x0) as Hx. pose proof (land7_range y0) as Hy.
  destruct (simulate_grain_cases x0 y0 bulb g) as [_ H]. cbv zeta in H.
  destruct H as [(E0 & ->) | [(N0 & E1 & ->) | [(N0 & N1 & E2 & ->) | [(N0 & N1 & N2 & E3 & ->) | (N0 & N1 & N2 & N3 & ->)]]]].
  - reflexivity.
  - rewrite get_pixel_with_counter.
    destruct (black_in_bulb (Z.land x0 7 + 1) (Z.land y0 7 + 1) bulb g ltac:(lia) ltac:(lia) E1)
      as [Hx2 Hy2].
    apply shift_other_bulb; assumption.
  - rewrite get_pixel_with_counter.
    assert (Hp : 0 <= fst (if truthy (side g) then (Z.land x0 7 + 1, Z.land y0 7)
                           else (Z.land x0 7, Z.land y0 7 + 1)) /\
                 0 <= snd (if truthy (side g) then (Z.land x0 7 + 1, Z.land y0 7)
                           else (Z.land x0 7, Z.land y0 7 + 1)))
      by (destruct (truthy (side g)); cbn [fst snd]; lia).
    destruct (black_in_bulb _ _ bulb g (proj1 Hp) (proj2 Hp) E2) as [Hx2 Hy2].
    rewrite shift_other_bulb; try assumption.
    apply get_pixel_with_side.
  - rewrite get_pixel_with_counter.
    assert (Hp : 0 <= fst (if truthy (side g) then (Z.land x0 7, Z.land y0 7 + 1)
                           else (Z.land x0 7 + 1, Z.land y0 7)) /\
                 0 <= snd (if truthy (side g) then (Z.land x0 7, Z.land y0 7 + 1)
                           else (Z.land x0 7 + 1, Z.land y0 7)))
      by (destruct (truthy (side g)); cbn [fst snd]; lia).
    destruct (black_in_bulb _ _ bulb g (proj1 Hp) (proj2 Hp) E3) as [Hx2 Hy2].
    rewrite shift_other_bulb; try assumption.
    apply get_pixel_with_side.
  - rewrite set_pixel_other_bulb; try assumption; [| unfold YELLOW; lia].
    rewrite get_pixel_with_counter. apply get_pixel_with_side.
Qed.

(** X18: [simulate_grain] never takes a grain from one bulb to the
    other, and never moves one against gravity: the number of grains in
    each bulb stays, the sum of [x + y] over the grains of a bulb never
    gets smaller and grows by at most 2, and in the bulb that was not
    named every cell reads as before. *)
Theorem simulate_grain_in_bulb (x0 y0 bulb b : Z) (g : globals) :
  display_ok (dm g) -> gravity g = DOWN \/ gravity g = UP ->
  bulb = UPPER \/ bulb = LOWER -> b = UPPER \/ b = LOWER ->
  let g' := snd (simulate_grain x0 y0 bulb g) in
  grains_in b g' = grains_in b g /\
  depth b g <= depth b g' <= depth b g + 2 /\
  (b <> bulb -> depth b g' = depth b g) /\
  (b <> bulb -> forall x y, 0 <= x < 8 -> 0 <= y < 8 ->
     get_pixel x y b g' = get_pixel x y b g).
Proof.
  intros Hd Hg Hbulb Hb. cbv zeta. split; [| split; [| split]].
  - rewrite !grains_in_weighted.
    destruct (simulate_grain_weighted (fun _ => 1) b x0 y0 bulb g Hd Hg Hb Hbulb)
      as (x2 & y2 & _ & _ & ->).
    destruct (b =? bulb); lia.
  - unfold depth.
    destruct (simulate_grain_weighted (fun p => fst p + snd p) b x0 y0 bulb g Hd Hg Hb Hbulb)
      as (x2 & y2 & H1 & H2 & ->).
    cbn [fst snd]. destruct (b =? bulb); lia.
  - intros Hne. unfold depth.
    destruct (simulate_grain_weighted (fun p => fst p + snd p) b x0 y0 bulb g Hd Hg Hb Hbulb)
      as (x2 & y2 & _ & _ & ->).
    replace (b =? bulb) with false by (symmetry; apply Z.eqb_neq; exact Hne). lia.
  - intros Hne x y Hx Hy. apply simulate_grain_other_bulb; assumption.
Qed.

Lemma simulate_grain_in_bulb_witness :
  grains_in UPPER (snd (simulate_grain 3 4 UPPER (glob (boot DOWN 463 0))))
  = grains_in UPPER (glob (boot DOWN 463 0)).
Proof.
  refine (proj1 (simulate_grain_in_bulb 3 4 UPPER UPPER (glob (boot DOWN 463 0)) _ _ _ _));
    try (left; reflexivity).
  apply (boot_state DOWN 463 0). left. reflexivity.
Defined.

(** ** Sand falls, never rises *)

Lemma simulate_grain_gravity x0 y0 bulb g :
  gravity (snd (simulate_grain x0 y0 bulb g)) = gravity g.
Proof.
  destruct (simulate_grain_cases x0 y0 bulb g) as [_ H]. cbv zeta in H.
  destruct H as [(E0 & ->) | [(N0 & E1 & ->) | [(N0 & N1 & E2 & ->) | [(N0 & N1 & N2 & E3 & ->) | (N0 & N1 & N2 & N3 & ->)]]]];
    try reflexivity; unfold shift;
    change (gravity (with_counter ?v ?h)) with (gravity h);
    repeat match goal with
           | |- context [gravity (set_pixel ?a ?b ?c ?e ?h)] =>
               rewrite (proj1 (set_pixel_frame a b c e h))
           end; reflexivity.
Qed.

Lemma drop_gravity g : gravity (drop g) = gravity g.
Proof.
  unfold drop. destruct (_ =? _); [reflexivity |]. destruct (_ =? _); [| reflexivity].
  rewrite !(proj1 (set_pixel_frame _ _ _ _ _)). reflexivity.
Qed.

Lemma drop_weighted w b g :
  display_ok (dm g) -> gravity g = DOWN \/ gravity g = UP -> b = UPPER \/ b = LOWER ->
  weighted w b (drop g) =
    weighted w b g
    + (if negb (get_pixel 7 7 UPPER g =? BLACK) && (get_pixel 0 0 LOWER g =? BLACK)
       then (if b =? UPPER then - w (7, 7) else w (0, 0)) else 0).
Proof.
  intros Hd Hg Hb. unfold drop.
  destruct (Z.eqb_spec (get_pixel 7 7 UPPER g) BLACK) as [E | N]; cbn [negb andb]; [lia |].
  destruct (Z.eqb_spec (get_pixel 0 0 LOWER g) BLACK) as [E0 | N0]; [| lia].
  destruct (set_pixel_frame 7 7 UPPER BLACK g) as (Eg & _).
  rewrite weighted_set_pixel;
    [| apply display_ok_set_pixel; exact Hd | rewrite Eg; exact Hg | assumption
     | right; reflexivity | lia | lia | unfold ORANGE; lia].
  rewrite get_pixel_set_pixel_other;
    [| exact Hd | lia | lia | lia | lia | unfold BLACK; lia
     | intros F; apply (exit_entry_distinct (gravity g)); symmetry; exact F].
  rewrite weighted_set_pixel;
    [| exact Hd | exact Hg | assumption | left; reflexivity | lia | lia | unfold BLACK; lia].
  rewrite E0, (lit_nonblack _ N).
  change (lit BLACK) with 0. change (lit ORANGE) with 1.
  destruct Hb as [-> | ->]; unfold UPPER, LOWER;
    change (0 =? 0) with true; change (1 =? 1) with true;
    change (0 =? 1) with false; change (1 =? 0) with false; cbv iota; lia.
Qed.

Lemma perform_bulbs c g :
  display_ok (dm g) -> gravity g = DOWN \/ gravity g = UP -> call_ok c ->
  display_ok (dm (perform c g)) /\ gravity (perform c g) = gravity g /\
  grains_in UPPER (perform c g) + grains_in LOWER (perform c g)
    = grains_in UPPER g + grains_in LOWER g /\
  grains_in UPPER (perform c g) <= grains_in UPPER g.
Proof.
  intros Hd Hg Hc. destruct c as [| x y bulb]; cbn [perform call_ok] in *.
  - split; [apply drop_conserves; exact Hd |]. split; [apply drop_gravity |].
    rewrite !grains_in_weighted.
    rewrite !drop_weighted by (auto; try (left; reflexivity); try (right; reflexivity)).
    change (UPPER =? UPPER) with true. change (LOWER =? UPPER) with false. cbv iota.
    destruct (negb _ && _); lia.
  - split; [apply simulate_grain_conserves; exact Hd |].
    split; [apply simulate_grain_gravity |].
    destruct (simulate_grain_weighted (fun _ => 1) UPPER x y bulb g Hd Hg
                ltac:(left; reflexivity) Hc) as (? & ? & _ & _ & EU).
    destruct (simulate_grain_weighted (fun _ => 1) LOWER x y bulb g Hd Hg
                ltac:(right; reflexivity) Hc) as (? & ? & _ & _ & EL).
    rewrite !grains_in_weighted, EU, EL.
    destruct (UPPER =? bulb), (LOWER =? bulb); lia.
Qed.

(** X19: one [drop] takes exactly one grain from the upper to the lower
    bulb when the exit cell holds a grain and the entry cell is empty, and
    does nothing otherwise; over any sequence of [drop] and
    [simulate_grain] calls the two bulbs together keep their grains and
    the upper bulb never gains one. *)
Theorem sand_flows_down (cs : list call) (g : globals) :
  display_ok (dm g) -> gravity g = DOWN \/ gravity g = UP -> Forall call_ok cs ->
  (get_pixel 7 7 UPPER g <> BLACK /\ get_pixel 0 0 LOWER g = BLACK ->
     grains_in UPPER (drop g) = grains_in UPPER g - 1 /\
     grains_in LOWER (drop g) = grains_in LOWER g + 1) /\
  (get_pixel 7 7 UPPER g = BLACK \/ get_pixel 0 0 LOWER g <> BLACK -> drop g = g) /\
  grains_in UPPER (perform_all cs g) + grains_in LOWER (perform_all cs g)
    = grains_in UPPER g + grains_in LOWER g /\
  grains_in UPPER (perform_all cs g) <= grains_in UPPER g.
Proof.
  intros Hd Hg Hcs. split; [| split].
  - intros [N E]. rewrite !grains_in_weighted.
    rewrite !drop_weighted by (auto; try (left; reflexivity); try (right; reflexivity)).
    rewrite E. replace (get_pixel 7 7 UPPER g =? BLACK) with false
      by (symmetry; apply Z.eqb_neq; exact N).
    change (UPPER =? UPPER) with true. change (LOWER =? UPPER) with false.
    change (BLACK =? BLACK) with true. cbn [negb andb]. lia.
  - intros H. apply drop_blocked. destruct H; auto.
  - revert g Hd Hg. induction Hcs as [| c cs Hc Hcs IH]; intros g Hd Hg; [cbn; lia |].
    unfold perform_all. cbn [fold_left]. fold (perform_all cs (perform c g)).
    destruct (perform_bulbs c g Hd Hg Hc) as (Hd1 & Hg1 & Es & Eu).
    rewrite <- Hg1 in Hg. destruct (IH _ Hd1 Hg) as [Es2 Eu2]. lia.
Qed.

Lemma sand_flows_down_witness :
  grains_in UPPER (drop (glob (boot UP 463 0))) = grains_in UPPER (glob (boot UP 463 0)) - 1 /\
  grains_in LOWER (drop (glob (boot UP 463 0))) = grains_in LOWER (glob (boot UP 463 0)) + 1.
Proof.
  refine (proj1 (sand_flows_down [Drop; Simulate 1 2 LOWER] (glob (boot UP 463 0)) _ _ _) _).
  - apply (boot_state UP 463 0). right. reflexivity.
  - right. reflexivity.
  - constructor; [exact I | constructor; [right; reflexivity | constructor]].
  - split; vm_compute; congruence.
Defined.

(** ** Filling the glass *)

Lemma get_pixel_set_pixel_any x y bulb c x' y' bulb' g :
  display_ok (dm g) -> gravity g = DOWN \/ gravity g = UP ->
  bulb = UPPER \/ bulb = LOWER -> bulb' = UPPER \/ bulb' = LOWER ->
  0 <= x < 8 -> 0 <= y < 8 -> 0 <= x' < 8 -> 0 <= y' < 8 -> 0 <= c < 16 ->
  get_pixel x' y' bulb' (set_pixel x y bulb c g) =
    if (bulb' =? bulb) && (x' =? x) && (y' =? y) then c else get_pixel x' y' bulb' g.
Proof.
  intros Hd Hg Hb Hb' Hx Hy Hx' Hy' Hc.
  destruct (Z.eqb_spec bulb' bulb) as [-> | Hne]; cbn [andb].
  - apply get_pixel_set_pixel; assumption.
  - apply get_pixel_set_pixel_other; try assumption.
    apply orient_other_bulb; assumption.
Qed.

(** The cells a loop over [xs] (one row) or [ys] (rows) has filled. *)
Lemma fill_row bulb y xs : forall g,
  display_ok (dm g) -> gravity g = DOWN \/ gravity g = UP -> bulb = UPPER \/ bulb = LOWER ->
  0 <= y < 8 -> (forall x, In x xs -> 0 <= x < 8) ->
  let g' := fold_left (fun g x => if 3 <? x + y then set_pixel x y bulb YELLOW g else g) xs g in
  display_ok (dm g') /\
  (gravity g' = gravity g /\ rnd g' = rnd g /\ side g' = side g /\
   static_counter g' = static_counter g) /\
  forall x' y' bulb', 0 <= x' < 8 -> 0 <= y' < 8 -> bulb' = UPPER \/ bulb' = LOWER ->
    get_pixel x' y' bulb' g' =
      if (bulb' =? bulb) && (y' =? y) && existsb (Z.eqb x') xs && (3 <? x' + y')
      then YELLOW else get_pixel x' y' bulb' g.
Proof.
  induction xs as [| x xs IH]; intros g Hd Hg Hb Hy Hxs; cbv zeta.
  - cbn [fold_left existsb]. split; [exact Hd | split; [auto |]].
    intros x' y' bulb' _ _ _. rewrite andb_false_r. reflexivity.
  - cbn [fold_left existsb].
    assert (Hx : 0 <= x < 8) by (apply Hxs; left; reflexivity).
    assert (Hxs' : forall x0, In x0 xs -> 0 <= x0 < 8) by (intros x0 H0; apply Hxs; right; exact H0).
    set (g1 := if 3 <? x + y then set_pixel x y bulb YELLOW g else g).
    assert (Hd1 : display_ok (dm g1))
      by (unfold g1; destruct (3 <? x + y); [apply display_ok_set_pixel |]; exact Hd).
    assert (F1 : gravity g1 = gravity g /\ rnd g1 = rnd g /\ side g1 = side g /\
                 static_counter g1 = static_counter g)
      by (unfold g1; destruct (3 <? x + y); [apply set_pixel_frame | auto]).
    assert (Hg1 : gravity g1 = DOWN \/ gravity g1 = UP)
      by (destruct F1 as [-> _]; exact Hg).
    destruct (IH g1 Hd1 Hg1 Hb Hy Hxs') as (Hd2 & F2 & P2).
    split; [exact Hd2 |]. split.
    { destruct F1 as (A1 & A2 & A3 & A4), F2 as (B1 & B2 & B3 & B4).
      rewrite B1, B2, B3, B4. auto. }
    intros x' y' bulb' Hx' Hy' Hb'. rewrite P2 by assumption.
    assert (G1 : get_pixel x' y' bulb' g1 =
                 if (bulb' =? bulb) && (x' =? x) && (y' =? y) && (3 <? x + y)
                 then YELLOW else get_pixel x' y' bulb' g).
    { unfold g1. destruct (3 <? x + y).
      - rewrite get_pixel_set_pixel_any by (assumption || unfold YELLOW; lia).
        rewrite andb_true_r. reflexivity.
      - rewrite andb_false_r. reflexivity. }
    rewrite G1.
    destruct (Z.eqb_spec bulb' bulb), (Z.eqb_spec y' y), (Z.eqb_spec x' x); subst;
      cbn [andb orb]; try reflexivity;
      destruct (existsb (Z.eqb x) xs), (3 <? x + y); reflexivity.
Qed.

Lemma fill_rows bulb ys : forall g,
  display_ok (dm g) -> gravity g = DOWN \/ gravity g = UP -> bulb = UPPER \/ bulb = LOWER ->
  (forall y, In y ys -> 0 <= y < 8) ->
  let g' := fold_left
              (fun g y =>
                 fold_left (fun g x => if 3 <? x + y then set_pixel x y bulb YELLOW g else g)
                           (seqZ 0 8) g)
              ys g in
  display_ok (dm g') /\
  (gravity g' = gravity g /\ rnd g' = rnd g /\ side g' = side g /\
   static_counter g' = static_counter g) /\
  forall x' y' bulb', 0 <= x' < 8 -> 0 <= y' < 8 -> bulb' = UPPER \/ bulb' = LOWER ->
    get_pixel x' y' bulb' g' =
      if (bulb' =? bulb) && existsb (Z.eqb y') ys && (3 <? x' + y')
      then YELLOW else get_pixel x' y' bulb' g.
Proof.
  induction ys as [| y ys IH]; intros g Hd Hg Hb Hys; cbv zeta.
  - cbn [fold_left existsb]. split; [exact Hd | split; [auto |]].
    intros x' y' bulb' _ _ _. rewrite andb_false_r. reflexivity.
  - cbn [fold_left existsb].
    assert (Hy : 0 <= y < 8) by (apply Hys; left; reflexivity).
    assert (Hys' : forall y0, In y0 ys -> 0 <= y0 < 8) by (intros y0 H0; apply Hys; right; exact H0).
    assert (Hxs : forall x, In x (seqZ 0 8) -> 0 <= x < 8)
      by (intros x Hx; apply list_elem_of_In, elem_of_seqZ in Hx; lia).
    destruct (fill_row bulb y (seqZ 0 8) g Hd Hg Hb Hy Hxs) as (Hd1 & F1 & P1).
    set (g1 := fold_left (fun g x => if 3 <? x + y then set_pixel x y bulb YELLOW g else g)
                         (seqZ 0 8) g) in *.
    assert (Hg1 : gravity g1 = DOWN \/ gravity g1 = UP)
      by (destruct F1 as [-> _]; exact Hg).
    destruct (IH g1 Hd1 Hg1 Hb Hys') as (Hd2 & F2 & P2).
    split; [exact Hd2 |]. split.
    { destruct F1 as (A1 & A2 & A3 & A4), F2 as (B1 & B2 & B3 & B4).
      rewrite B1, B2, B3, B4. auto. }
    intros x' y' bulb' Hx' Hy' Hb'. rewrite P2, P1 by assumption.
    assert (Ex : existsb (Z.eqb x') (seqZ 0 8) = true).
    { apply existsb_exists. exists x'. split; [| apply Z.eqb_refl].
      apply list_elem_of_In, elem_of_seqZ. lia. }
    rewrite Ex.
    destruct (bulb' =? bulb), (y' =? y), (existsb (Z.eqb y') ys), (3 <? x' + y'); reflexivity.
Qed.

Lemma get_pixel_cleared x y bulb g :
  display_ok (dm g) -> 0 <= x < 8 -> 0 <= y < 8 ->
  get_pixel x y bulb (with_dm (clearScreen (dm g)) g) = BLACK.
Proof.
  intros Hd Hx Hy. rewrite get_pixel_in by assumption. cbn [dm gravity with_dm].
  pose proof (orient_range (gravity g) x y bulb Hx Hy) as [? ?].
  apply getPixel_clearScreen; assumption.
Qed.

(** X20: [reset_hour_glass], whatever the display showed before and
    whichever way gravity points: the upper bulb holds yellow grains in
    exactly the cells with [x + y > 3], 54 in all, the lower bulb is
    empty; gravity and the statics of [random] and [simulate_grain], among
    them the rest counter, are left as they were. *)
Theorem reset_hour_glass_fills (g : globals) (x y : Z) :
  display_ok (dm g) -> gravity g = DOWN \/ gravity g = UP ->
  0 <= x < 8 -> 0 <= y < 8 ->
  let g' := reset_hour_glass g in
  get_pixel x y UPPER g' = (if 3 <? x + y then YELLOW else BLACK) /\
  get_pixel x y LOWER g' = BLACK /\
  grains_in UPPER g' = GRAINS_TOTAL /\ grains_in LOWER g' = 0 /\
  display_ok (dm g') /\
  gravity g' = gravity g /\ rnd g' = rnd g /\ side g' = side g /\
  static_counter g' = static_counter g.
Proof.
  intros Hd Hg Hx Hy. cbv zeta. unfold reset_hour_glass, fill_bulb.
  assert (Hd0 : display_ok (dm (with_dm (clearScreen (dm g)) g)))
    by (apply display_ok_clearScreen; exact Hd).
  assert (Hys : forall y, In y (seqZ 0 8) -> 0 <= y < 8)
    by (intros y0 H0; apply list_elem_of_In, elem_of_seqZ in H0; lia).
  destruct (fill_rows UPPER (seqZ 0 8) (with_dm (clearScreen (dm g)) g) Hd0 Hg
              ltac:(left; reflexivity) Hys) as (Hd1 & F1 & P1).
  set (g' := fold_left _ (seqZ 0 8) (with_dm (clearScreen (dm g)) g)) in *.
  assert (PU : forall x y, 0 <= x < 8 -> 0 <= y < 8 ->
                 get_pixel x y UPPER g' = if 3 <? x + y then YELLOW else BLACK).
  { intros x1 y1 Hx1 Hy1. rewrite P1 by (auto; left; reflexivity).
    rewrite get_pixel_cleared by assumption.
    assert (Ey : existsb (Z.eqb y1) (seqZ 0 8) = true).
    { apply existsb_exists. exists y1. split; [| apply Z.eqb_refl].
      apply list_elem_of_In, elem_of_seqZ. lia. }
    rewrite Ey. change (UPPER =? UPPER) with true. reflexivity. }
  assert (PL : forall x y, 0 <= x < 8 -> 0 <= y < 8 -> get_pixel x y LOWER g' = BLACK).
  { intros x1 y1 Hx1 Hy1. rewrite P1 by (auto; right; reflexivity).
    rewrite get_pixel_cleared by assumption.
    change (LOWER =? UPPER) with false. reflexivity. }
  split; [apply PU; assumption |]. split; [apply PL; assumption |].
  split; [| split].
  - unfold grains_in.
    rewrite (total_ext (fun p => lit (if 3 <? fst p + snd p then YELLOW else BLACK))).
    + vm_compute. reflexivity.
    + intros p Hp. apply In_bulb_cells in Hp. rewrite PU by lia. reflexivity.
  - unfold grains_in.
    rewrite (total_ext (fun _ => 0)); [apply total_zero |].
    intros p Hp. apply In_bulb_cells in Hp. rewrite PL by lia. reflexivity.
  - split; [exact Hd1 |]. exact F1.
Qed.

Lemma reset_hour_glass_fills_witness :
  get_pixel 2 2 UPPER (reset_hour_glass (snd (simulate_grain 7 7 UPPER (glob (boot UP 463 0)))))
  = (if 3 <? 2 + 2 then YELLOW else BLACK).
Proof.
  refine (proj1 (reset_hour_glass_fills
                   (snd (simulate_grain 7 7 UPPER (glob (boot UP 463 0)))) 2 2 _ _ _ _));
    try lia.
  - apply simulate_grain_conserves. apply (boot_state UP 463 0). right. reflexivity.
  - right. reflexivity.
Defined.

(** ** The reset button *)



Lemma drop_frame g :
  rnd (drop g) = rnd g /\ side (drop g) = side g /\ static_counter (drop g) = static_counter g.
Proof.
  unfold drop. destruct (_ =? _); [auto |]. destruct (_ =? _); [| auto].
  destruct (set_pixel_frame 0 0 LOWER ORANGE (set_pixel 7 7 UPPER BLACK g)) as (_ & -> & -> & ->).
  destruct (set_pixel_frame 7 7 UPPER BLACK g) as (_ & -> & -> & ->). auto.
Qed.

Lemma drop_lower_cell x y g :
  display_ok (dm g) -> gravity g = DOWN \/ gravity g = UP ->
  0 <= x < 8 -> 0 <= y < 8 -> x <> 0 \/ y <> 0 ->
  get_pixel x y LOWER (drop g) = get_pixel x y LOWER g.
Proof.
  intros Hd Hg Hx Hy Hne. unfold drop.
  destruct (_ =? _); [reflexivity |]. destruct (_ =? _); [| reflexivity].
  destruct (set_pixel_frame 7 7 UPPER BLACK g) as (Eg & _).
  rewrite get_pixel_set_pixel_any;
    [| apply display_ok_set_pixel; exact Hd | rewrite Eg; exact Hg | right; reflexivity
     | right; reflexivity | lia | lia | lia | lia | unfold ORANGE; lia].
  rewrite get_pixel_set_pixel_any;
    [| exact Hd | exact Hg | left; reflexivity | right; reflexivity
     | lia | lia | lia | lia | unfold BLACK; lia].
  change (LOWER =? LOWER) with true. change (LOWER =? UPPER) with false. cbn [andb].
  replace ((x =? 0) && (y =? 0)) with false; [reflexivity |].
  symmetry. apply andb_false_iff. rewrite !Z.eqb_neq. exact Hne.
Qed.

(** X22: the block of push button S3 does not clear the rest counter of
    [simulate_grain].  Pressed when the counter stands at 254, it is
    followed by the alarm in the very next pass that picks an empty cell
    of the lower bulb other than the entry cell, although all 54 grains
    have just been put back into the upper bulb. *)
Theorem reset_keeps_rest_counter (s : setting_t) (m : main_t) (timer : Z) :
  display_ok (dm (glob m)) -> gravity (glob m) = DOWN \/ gravity (glob m) = UP ->
  static_counter (glob m) = 254 ->
  (exists x y, cell_of (fst (random 0 (rnd (glob m)))) = (x, y, LOWER) /\ (x <> 0 \/ y <> 0)) ->
  let m' := button_S3 s m in
  static_counter (glob m') = 254 /\
  grains_in UPPER (glob m') = GRAINS_TOTAL /\
  mode (main_run timer m') = ALARM.
Proof.
  intros Hd Hg Hc (x & y & Hcell & Hne). cbv zeta.
  destruct (reset_hour_glass_fills (glob m) x y Hd Hg) as (_ & EL & EU & _ & Hd' & Eg & Er & _ & Ec);
    [unfold cell_of in Hcell; injection Hcell as <- _ _; apply land7_range
    |unfold cell_of in Hcell; injection Hcell as _ <- _; apply land7_range |].
  cbv zeta in EL, EU, Hd', Eg, Er, Ec.
  unfold button_S3 at 1 2. cbn [glob].
  split; [rewrite Ec; exact Hc |]. split; [exact EU |].
  unfold main_run. unfold button_S3 at 1. cbn [mode]. change (RUN =? RUN) with true. cbv iota.
  set (m1 := timed_drop timer (button_S3 s m)).
  assert (G1 : glob m1 = reset_hour_glass (glob m) \/ glob m1 = drop (reset_hour_glass (glob m))).
  { unfold m1, timed_drop. destruct (_ <=? _); [right | left]; reflexivity. }
  assert (Hx : 0 <= x < 8) by (unfold cell_of in Hcell; injection Hcell as <- _ _; apply land7_range).
  assert (Hy : 0 <= y < 8) by (unfold cell_of in Hcell; injection Hcell as _ <- _; apply land7_range).
  assert (R1 : rnd (glob m1) = rnd (glob m) /\ static_counter (glob m1) = 254 /\
               get_pixel x y LOWER (glob m1) = BLACK).
  { destruct G1 as [-> | ->].
    - rewrite Er, Ec. auto.
    - destruct (drop_frame (reset_hour_glass (glob m))) as (-> & _ & ->).
      rewrite drop_lower_cell by (try assumption; rewrite Eg; exact Hg).
      rewrite Er, Ec. auto. }
  destruct R1 as (R1 & C1 & P1). rewrite R1.
  destruct (random 0 (rnd (glob m))) as [r rnd'] eqn:Erand. cbn [fst] in Hcell.
  unfold cell_of in Hcell. injection Hcell as Ex Ey Eb.
  unfold simulate_grain. rewrite Ex, Ey, Eb.
  change (get_pixel x y LOWER (with_rnd rnd' (glob m1))) with (get_pixel x y LOWER (glob m1)).
  rewrite P1. change (BLACK =? BLACK) with true. cbv iota zeta.
  cbn [static_counter with_counter with_rnd]. rewrite C1.
  change (255 =? u8 (254 + 1)) with true. cbv iota. reflexivity.
Qed.

Lemma reset_keeps_rest_counter_witness :
  mode (main_run 100
          (button_S3 {| minute := 1; quarter := 0 |}
             (with_glob (with_counter 254 (with_rnd 128 (glob (boot DOWN 1389 0))))
                        (boot DOWN 1389 0))))
  = ALARM.
Proof.
  refine (proj2 (proj2 (reset_keeps_rest_counter {| minute := 1; quarter := 0 |}
            (with_glob (with_counter 254 (with_rnd 128 (glob (boot DOWN 1389 0))))
                       (boot DOWN 1389 0)) 100 _ _ _ _))).
  - split; [split |]; vm_compute; congruence.
  - left. vm_compute. reflexivity.
  - vm_compute. reflexivity.
  - exists 6, 1. split; [vm_compute; reflexivity | left; lia].
Defined.

(** ** Every cell gets its turn *)

Lemma outputs_range n : forall seed r,
  0 < (if truthy seed then seed else r) < 256 ->
  forall v, In v (outputs n seed r) -> 0 < v < 256.
Proof.
  induction n as [| n IH]; intros seed r H v Hv; cbn [outputs] in Hv; [destruct Hv |].
  rewrite random_shift in Hv.
  pose proof (lfsr_closed_all _ H) as Hc.
  pose proof (random_snd 0 (if truthy seed then seed else r)) as Hs.
  destruct (random 0 (if truthy seed then seed else r)) as [v1 r1].
  cbn [fst snd] in Hs, Hc. subst r1.
  destruct Hv as [<- | Hv]; [exact Hc |].
  apply (IH 0 v1); [exact Hc | exact Hv].
Qed.

Lemma outputs_length n : forall seed r, length (outputs n seed r) = n.
Proof.
  induction n as [| n IH]; intros seed r; cbn [outputs]; [reflexivity |].
  destruct (random seed r). cbn [length]. rewrite IH. reflexivity.
Qed.

Lemma outputs_cover r v :
  0 < r < 256 -> 0 < v < 256 -> In v (outputs 255 0 r).
Proof.
  intros Hr Hv.
  assert (Hnd : List.NoDup (outputs 255 0 r)).
  { pose proof (full_period_all r Hr) as Hp. unfold full_period in Hp.
    apply andb_prop in Hp. destruct Hp as [Hp _].
    apply andb_prop in Hp. destruct Hp as [Hp _].
    apply bool_decide_eq_true in Hp.
    rewrite (outputs_seeded 255 r 0 r (truthy_pos r (proj1 Hr))) in Hp.
    apply NoDup_ListNoDup.
    replace (outputs 255 0 r) with (outputs 255 r r); [exact Hp |].
    cbn [outputs]. rewrite (random_shift r r). rewrite (truthy_pos r (proj1 Hr)). reflexivity. }
  apply (NoDup_length_incl Hnd (l' := seqZ 1 255)).
  - rewrite outputs_length, length_seqZ. lia.
  - intros u Hu. apply list_elem_of_In, elem_of_seqZ.
    pose proof (outputs_range 255 0 r ltac:(change (truthy 0) with false; cbv iota; exact Hr) u Hu).
    lia.
  - apply list_elem_of_In, elem_of_seqZ. lia.
Qed.

(** X23: from any nonzero register, 255 consecutive calls [random(0)]
    select every cell of both bulbs at least once, by the decoding
    [simulate_grain(r >> 1, r >> 4, r & 1)] of [main]. *)
Theorem random_visits_every_cell (r x y bulb : Z) :
  0 < r < 256 -> logical x y bulb ->
  exists k, (k < 255)%nat /\ cell_of (nth k (outputs 255 0 r) 0) = (x, y, bulb).
Proof.
  intros Hr (Hx & Hy & Hb).
  assert (Hbyte : 0 < byte_of x y bulb < 256 /\ cell_of (byte_of x y bulb) = (x, y, bulb)).
  { assert (H : forallb (fun x => forallb (fun y => forallb (fun b =>
                  (0 <? byte_of x y b) && (byte_of x y b <? 256)
                  && (fst (fst (cell_of (byte_of x y b))) =? x)
                  && (snd (fst (cell_of (byte_of x y b))) =? y)
                  && (snd (cell_of (byte_of x y b)) =? b))
                (seqZ 0 2)) (seqZ 0 8)) (seqZ 0 8) = true) by (vm_compute; reflexivity).
    pose proof (forallb_seqZ _ 0 8 H x ltac:(lia)) as H1. cbn beta in H1.
    pose proof (forallb_seqZ _ 0 8 H1 y ltac:(lia)) as H2. cbn beta in H2.
    assert (Hb' : 0 <= bulb < 0 + 2) by (destruct Hb as [-> | ->]; unfold UPPER, LOWER; lia).
    pose proof (forallb_seqZ _ 0 2 H2 bulb Hb') as H3. cbn beta in H3.
    apply andb_prop in H3. destruct H3 as [H3 E3].
    apply andb_prop in H3. destruct H3 as [H3 E2].
    apply andb_prop in H3. destruct H3 as [H3 E1].
    apply andb_prop in H3. destruct H3 as [L1 L2].
    apply Z.ltb_lt in L1, L2. apply Z.eqb_eq in E1, E2, E3.
    split; [lia |].
    destruct (cell_of (byte_of x y bulb)) as [[a b] c]. cbn [fst snd] in *. congruence. }
  destruct Hbyte as [Hrange Hcell].
  pose proof (outputs_cover r (byte_of x y bulb) Hr Hrange) as Hin.
  apply (In_nth _ _ 0) in Hin. destruct Hin as (k & Hk & Ek).
  rewrite outputs_length in Hk. exists k. split; [exact Hk |].
  rewrite Ek. exact Hcell.
Qed.

Lemma random_visits_every_cell_witness :
  exists k, (k < 255)%nat /\ cell_of (nth k (outputs 255 0 RANDOM_SEED) 0) = (0, 0, UPPER).
Proof.
  apply random_visits_every_cell.
  - unfold RANDOM_SEED. lia.
  - unfold logical. split; [lia | split; [lia | left; reflexivity]].
Defined.
